(** * Encore report builder: the record reconciliation engine

    A shallow embedding of [scripts/build_report_data.py] and the
    properties of its numeric parser, date resolver, identity key, merge
    rule and cross-period reconciliation pass.

    Python strings are sequences of Unicode code points, modelled as
    [list Z]; a raised exception is a value of [res].  What the script
    takes from the interpreter's Unicode database (case mapping and decimal
    digits beyond ASCII) and from the outside world (the network and the
    yt-dlp tool) is collected in two interfaces, [Runtime] and [World].
    The aggregator, the fallback links and the final sort are not part of
    the development. *)

From Stdlib Require Import ZArith Lia Bool.
From stdpp Require Import base option list gmap strings.

Local Open Scope Z_scope.

(** ** Strings *)

Abbreviation pystr := (list Z).

(** An ASCII literal as a Python string. *)
Definition str (s : string) : pystr :=
  (fun a => Z.of_N (Ascii.N_of_ascii a)) <$> String.list_ascii_of_string s.

(** [str.isspace] for one code point (CPython's [_PyUnicode_IsWhitespace]). *)
Definition py_isspace (c : Z) : bool :=
  ((9 <=? c) && (c <=? 13)) || ((28 <=? c) && (c <=? 32))
  || (c =? 133) || (c =? 160) || (c =? 5760)
  || ((8192 <=? c) && (c <=? 8202))
  || (c =? 8232) || (c =? 8233) || (c =? 8239) || (c =? 8287) || (c =? 12288).

Fixpoint lstrip_by (p : Z -> bool) (s : pystr) : pystr :=
  match s with
  | c :: s' => if p c then lstrip_by p s' else s
  | [] => []
  end.

Definition rstrip_by (p : Z -> bool) (s : pystr) : pystr :=
  rev (lstrip_by p (rev s)).

Definition strip_by (p : Z -> bool) (s : pystr) : pystr :=
  rstrip_by p (lstrip_by p s).

(** [s.strip()] *)
Definition strip (s : pystr) : pystr := strip_by py_isspace s.

(** [s.replace(c, "")] for a one-character [c]. *)
Definition remove_char (c : Z) (s : pystr) : pystr :=
  filter (fun x => x ≠ c) s.

(** [s.split()]: the maximal runs of non-whitespace characters. *)
Fixpoint split_ws_aux (cur : pystr) (s : pystr) : list pystr :=
  match s with
  | [] => if decide (cur = []) then [] else [rev cur]
  | c :: s' =>
      if py_isspace c
      then (if decide (cur = []) then split_ws_aux [] s'
            else rev cur :: split_ws_aux [] s')
      else split_ws_aux (c :: cur) s'
  end.

Definition split_ws (s : pystr) : list pystr := split_ws_aux [] s.

Fixpoint starts_with (p s : pystr) : bool :=
  match p, s with
  | [], _ => true
  | a :: p', b :: s' => bool_decide (a = b) && starts_with p' s'
  | _ :: _, [] => false
  end.

(** [p in s] *)
Fixpoint contains (p s : pystr) : bool :=
  starts_with p s ||
  match s with
  | [] => false
  | _ :: s' => contains p s'
  end.

Definition is_ascii (c : Z) : bool := (0 <=? c) && (c <? 128).

Definition ascii_lower (c : Z) : Z :=
  if (65 <=? c) && (c <=? 90) then c + 32 else c.

(** The ten decimal digits, as the value of a character of category Nd. *)
Inductive digit := D0 | D1 | D2 | D3 | D4 | D5 | D6 | D7 | D8 | D9.

Definition digit_val (d : digit) : Z :=
  match d with
  | D0 => 0 | D1 => 1 | D2 => 2 | D3 => 3 | D4 => 4
  | D5 => 5 | D6 => 6 | D7 => 7 | D8 => 8 | D9 => 9
  end.

(** What the script takes from the interpreter and its library and the
    model does not spell out: [str.lower] on a string that holds a code
    point outside ASCII, the decimal value of a code point outside ASCII
    (both from the Unicode database), and the query lookup of
    [normalize_youtube_url]'s last resort, which goes through
    [urllib.parse]: for a URL whose network location holds [youtube.com]
    and whose path is [/watch], the first value of its [v] parameter when
    there is one and it is not empty. *)
Class Runtime := {
  unicode_lower : pystr -> pystr;
  unicode_decimal : Z -> option digit;
  urlparse_watch_v : pystr -> option pystr;
}.

(** ** Exceptions *)

Inductive exn := ValueError | OverflowError.

Inductive res (A : Type) :=
  | Ret (a : A)
  | Raise (e : exn).
Arguments Ret {A} a.
Arguments Raise {A} e.

Definition res_bind {A B} (m : res A) (k : A -> res B) : res B :=
  match m with
  | Ret a => k a
  | Raise e => Raise e
  end.

Notation "'let!' x ':=' m 'in' k" := (res_bind m (fun x => k))
  (at level 10, x pattern, m at level 100, k at level 200).

(** [try: m  except ValueError: h] *)
Definition except_ValueError {A} (m : res A) (h : res A) : res A :=
  match m with
  | Raise ValueError => h
  | _ => m
  end.

(** ** Numbers *)

Definition is_digit (c : Z) : bool := (48 <=? c) && (c <=? 57).

(** The value of a run of ASCII digits. *)
Definition digits_val (ds : pystr) : Z :=
  fold_left (fun acc c => acc * 10 + (c - 48)) ds 0.

Fixpoint digits_fuel (fuel : nat) (n : Z) (acc : pystr) : pystr :=
  match fuel with
  | O => acc
  | S f =>
      let acc' := (48 + n mod 10) :: acc in
      if n <? 10 then acc' else digits_fuel f (n / 10) acc'
  end.

(** The decimal digits of [n >= 0], most significant first. *)
Definition digits_of (n : Z) : pystr :=
  digits_fuel (S (Z.to_nat (Z.log2 n))) n [].

(** [str(n)] for an integer. *)
Definition py_str_int (n : Z) : pystr :=
  if n <? 0 then 45 :: digits_of (- n) else digits_of n.

(** A binary64 value.  A finite value is [u * 2^-1074], a whole number of
    the smallest subnormal, with its sign apart (so [-0.0] exists). *)
Inductive pyfloat :=
  | Finite (neg : bool) (u : Z)
  | Infinity (neg : bool)
  | NaN.

Definition round_half_even (n d : Z) : Z :=
  let q := n / d in
  let r := n mod d in
  if 2 * r <? d then q
  else if d <? 2 * r then q + 1
  else if Z.even q then q else q + 1.

(** Round the rational [n / d] (with [0 <= n], [0 < d]) to the nearest
    binary64, ties to even: the result is in units of [2^-1074]; the
    spacing of the doubles around the value is [2^e] units. *)
Definition round_binary64 (n d : Z) : Z :=
  let N := n * 2 ^ 1074 in
  let e := Z.max (Z.log2 (N / d) - 52) 0 in
  round_half_even N (d * 2 ^ e) * 2 ^ e.

(** The double nearest to [m * 10^x], or infinity when that is out of range. *)
Definition float_of_decimal (neg : bool) (m x : Z) : pyfloat :=
  let u := if 0 <=? x then round_binary64 (m * 10 ^ x) 1
           else round_binary64 m (10 ^ (- x)) in
  if 2 ^ 2098 <=? u then Infinity neg else Finite neg u.

Section Numbers.
Context `{Runtime}.

(** CPython's [_PyUnicode_TransformDecimalAndSpaceToASCII]: what [float]
    and [int] do to a string before they read it. *)
Fixpoint transform_decimal_and_space (s : pystr) : pystr :=
  match s with
  | [] => []
  | c :: s' =>
      if c <? 127 then c :: transform_decimal_and_space s'
      else if py_isspace c then 32 :: transform_decimal_and_space s'
      else match unicode_decimal c with
           | Some d => (48 + digit_val d) :: transform_decimal_and_space s'
           | None => [63]
           end
  end.

Definition to_ascii_number (s : pystr) : pystr :=
  if forallb is_ascii s then s else transform_decimal_and_space s.
End Numbers.

(** [Py_ISSPACE] *)
Definition c_isspace (c : Z) : bool := (c =? 32) || ((9 <=? c) && (c <=? 13)).

(** An underscore may only stand between two digits; [prev] is the
    character before [s].  The result is [s] without its underscores. *)
Fixpoint strip_underscores (prev : Z) (s : pystr) : option pystr :=
  match s with
  | [] => if prev =? 95 then None else Some []
  | c :: s' =>
      if c =? 95 then
        if is_digit prev then strip_underscores c s' else None
      else if (prev =? 95) && negb (is_digit c) then None
      else cons c <$> strip_underscores c s'
  end.

(** The longest prefix of digits, and the rest. *)
Fixpoint span_digits (s : pystr) : pystr * pystr :=
  match s with
  | c :: s' =>
      if is_digit c then let '(ds, r) := span_digits s' in (c :: ds, r)
      else ([], s)
  | [] => ([], [])
  end.

(** An optional sign: [-] is 45, [+] is 43. *)
Definition read_sign (s : pystr) : bool * pystr :=
  match s with
  | c :: s' =>
      if c =? 45 then (true, s')
      else if c =? 43 then (false, s')
      else (false, s)
  | [] => (false, [])
  end.

(** The exponent part: empty, or [e], an optional sign and digits. *)
Definition read_exponent (s : pystr) : option Z :=
  match s with
  | [] => Some 0
  | c :: s' =>
      if (c =? 101) || (c =? 69) then
        let '(neg, s'') := read_sign s' in
        let '(ds, r) := span_digits s'' in
        match ds, r with
        | _ :: _, [] => Some (if neg then - digits_val ds else digits_val ds)
        | _, _ => None
        end
      else None
  end.

(** A decimal number without its sign: digits, an optional point, digits,
    an optional exponent; as a mantissa and a power of ten. *)
Definition read_decimal (s : pystr) : option (Z * Z) :=
  let '(ip, r) := span_digits s in
  let '(fp, r') :=
    match r with
    | c :: r1 => if c =? 46 then span_digits r1 else ([], r)
    | [] => ([], [])
    end in
  if decide (ip = [] ∧ fp = []) then None
  else x ← read_exponent r';
       Some (digits_val (ip ++ fp), x - Z.of_nat (length fp)).

(** [float(s)] for a string. *)
Definition float_of_ascii (s : pystr) : res pyfloat :=
  match (if contains [95] s then strip_underscores 0 s else Some s) with
  | None => Raise ValueError
  | Some s1 =>
      let s2 := strip_by c_isspace s1 in
      let '(neg, body) := read_sign s2 in
      let word : pystr := ascii_lower <$> body in
      if bool_decide (word = str "inf") || bool_decide (word = str "infinity")
      then Ret (Infinity neg)
      else if bool_decide (word = str "nan") then Ret NaN
      else match read_decimal body with
           | Some (m, x) => Ret (float_of_decimal neg m x)
           | None => Raise ValueError
           end
  end.

(** [int(x)] for a float: truncation towards zero. *)
Definition py_int_of_float (x : pyfloat) : res Z :=
  match x with
  | Finite neg u =>
      let n := u / 2 ^ 1074 in Ret (if neg then - n else n)
  | Infinity _ => Raise OverflowError
  | NaN => Raise ValueError
  end.

(** What a cell of a row can hold when it reaches [parse_int]. *)
Inductive cell :=
  | CNone
  | CInt (n : Z)
  | CStr (s : pystr).

Definition em_dash : pystr := [8212].

Section Parse.
Context `{Runtime}.

Definition py_float (s : pystr) : res pyfloat :=
  float_of_ascii (to_ascii_number s).

Definition parse_int (s : cell) : res (option Z) :=
  match s with
  | CNone => Ret None
  | CInt n => Ret (Some n)
  | CStr s =>
      let t := strip s in
      if bool_decide (t = []) || bool_decide (t = em_dash) then Ret None
      else
        let t := remove_char 44 t in
        except_ValueError
          (let! x := py_float t in
           let! n := py_int_of_float x in
           Ret (Some n))
          (Ret None)
  end.
End Parse.

(** An interpreter whose Unicode database is empty beyond ASCII and whose
    URL parser finds no query parameter. *)
Definition bare_runtime : Runtime :=
  {| unicode_lower := fun s => s;
     unicode_decimal := fun _ => None;
     urlparse_watch_v := fun _ => None |}.

(** ** Integers from text *)

(** The run of digits, with single underscores between them, at the head
    of [s]: the digits and what follows the run. *)
Fixpoint scan_int (prev : Z) (s : pystr) : option (pystr * pystr) :=
  match s with
  | c :: s' =>
      if is_digit c then
        match scan_int c s' with
        | Some (ds, r) => Some (c :: ds, r)
        | None => None
        end
      else if c =? 95 then (if prev =? 95 then None else scan_int c s')
      else if prev =? 95 then None
      else Some ([], s)
  | [] => if prev =? 95 then None else Some ([], [])
  end.

(** The longest digit string [int] converts (CPython 3.11 and later). *)
Definition int_max_str_digits : nat := 4300.

(** [int(s)] in base 10 on ASCII text; [None] stands for [ValueError]. *)
Definition int_of_ascii (s : pystr) : option Z :=
  let '(neg, s1) := read_sign (lstrip_by c_isspace s) in
  if starts_with [95] s1 then None
  else match scan_int 0 s1 with
       | Some (ds, r) =>
           if bool_decide (ds = []) then None
           else if (int_max_str_digits <? length ds)%nat then None
           else if bool_decide (lstrip_by c_isspace r = [])
                then Some (if neg then - digits_val ds else digits_val ds)
                else None
       | None => None
       end.

(** ** Calendar dates *)

Record date := Date { d_year : Z; d_month : Z; d_day : Z }.

Definition is_leap (y : Z) : bool :=
  (y mod 4 =? 0) && (negb (y mod 100 =? 0) || (y mod 400 =? 0)).

Definition days_in_month (y m : Z) : Z :=
  if m =? 2 then (if is_leap y then 29 else 28)
  else if (m =? 4) || (m =? 6) || (m =? 9) || (m =? 11) then 30
  else 31.

Definition fits_c_int (z : Z) : bool := (- 2 ^ 31 <=? z) && (z <? 2 ^ 31).

(** [dt.date(y, m, d)]: the arguments are converted to C integers
    ([OverflowError]) and then checked ([ValueError]). *)
Definition mk_date (y m d : Z) : res date :=
  if negb (fits_c_int y && fits_c_int m && fits_c_int d) then Raise OverflowError
  else if (1 <=? y) && (y <=? 9999) && (1 <=? m) && (m <=? 12)
          && (1 <=? d) && (d <=? days_in_month y m)
       then Ret (Date y m d)
       else Raise ValueError.

(** [f"{n:0wd}"] *)
Definition zero_pad (w : nat) (ds : pystr) : pystr :=
  replicate (w - length ds) 48 ++ ds.

Definition format_0d (w : nat) (n : Z) : pystr :=
  if n <? 0 then 45 :: zero_pad (w - 1) (digits_of (- n))
  else zero_pad w (digits_of n).

(** [d.isoformat()] *)
Definition isoformat (d : date) : pystr :=
  format_0d 4 (d_year d) ++ [45] ++ format_0d 2 (d_month d)
  ++ [45] ++ format_0d 2 (d_day d).

Definition month_key (d : date) : pystr :=
  format_0d 4 (d_year d) ++ [45] ++ format_0d 2 (d_month d).

(** [dt.date.fromisoformat(s)] on the form [YYYY-MM-DD], the one every
    CPython version reads; [None] stands for [ValueError]. *)
Definition date_fromisoformat (s : pystr) : option date :=
  match s with
  | [y1; y2; y3; y4; h1; m1; m2; h2; d1; d2] =>
      if forallb is_digit [y1; y2; y3; y4; m1; m2; d1; d2]
         && (h1 =? 45) && (h2 =? 45)
      then match mk_date (digits_val [y1; y2; y3; y4])
                         (digits_val [m1; m2]) (digits_val [d1; d2]) with
           | Ret d => Some d
           | Raise _ => None
           end
      else None
  | _ => None
  end.

Definition MONTHS_MAP : list (pystr * Z) :=
  [ (str "jan", 1); (str "january", 1); (str "feb", 2); (str "february", 2);
    (str "mar", 3); (str "march", 3); (str "apr", 4); (str "april", 4);
    (str "may", 5); (str "jun", 6); (str "june", 6); (str "jul", 7);
    (str "july", 7); (str "aug", 8); (str "august", 8); (str "sep", 9);
    (str "sept", 9); (str "september", 9); (str "oct", 10);
    (str "october", 10); (str "nov", 11); (str "november", 11);
    (str "dec", 12); (str "december", 12) ].

(** [d.get(k)] for a dictionary given by its items. *)
Fixpoint dict_get {V} (k : pystr) (d : list (pystr * V)) : option V :=
  match d with
  | (k', v) :: d' => if bool_decide (k' = k) then Some v else dict_get k d'
  | [] => None
  end.

Section Dates.
Context `{Runtime}.

(** [s.lower()] *)
Definition py_lower (s : pystr) : pystr :=
  if forallb is_ascii s then ascii_lower <$> s else unicode_lower s.

(** [int(s)] for a string; [None] stands for [ValueError]. *)
Definition py_int (s : pystr) : option Z := int_of_ascii (to_ascii_number s).

Definition parse_report_month (s : pystr) : res (option date) :=
  if bool_decide (s = []) then Ret None
  else match split_ws (strip s) with
       | [p0; p1] =>
           let m := dict_get (py_lower (strip p0)) MONTHS_MAP in
           match py_int p1 with
           | None => Ret None
           | Some y =>
               match m with
               | None => Ret None
               | Some m => let! d := mk_date y m 1 in Ret (Some d)
               end
           end
       | _ => Ret None
       end.

Definition parse_human_date (s : pystr) : res (option date) :=
  if bool_decide (s = []) then Ret None
  else
    let s := strip s in
    if bool_decide (s = []) then Ret None
    else match split_ws (remove_char 44 s) with
         | [p0; p1; p2] =>
             match py_int p0 with
             | None => Ret None
             | Some day =>
                 match dict_get (py_lower (strip p1)) MONTHS_MAP with
                 | None => Ret None
                 | Some m =>
                     match py_int p2 with
                     | None => Ret None
                     | Some year =>
                         except_ValueError
                           (let! d := mk_date year m day in Ret (Some d))
                           (Ret None)
                     end
                 end
             end
         | _ => Ret None
         end.
End Dates.

(** ** Canonical video URLs *)

(** [[A-Za-z0-9_-]] *)
Definition is_id_char (c : Z) : bool :=
  ((65 <=? c) && (c <=? 90)) || ((97 <=? c) && (c <=? 122))
  || ((48 <=? c) && (c <=? 57)) || (c =? 95) || (c =? 45).

Fixpoint take_while (p : Z -> bool) (s : pystr) : pystr :=
  match s with
  | c :: s' => if p c then c :: take_while p s' else []
  | [] => []
  end.

(** [([A-Za-z0-9_-]{6,})] at the head of [s]. *)
Definition read_id (s : pystr) : option pystr :=
  let vid := take_while is_id_char s in
  if (6 <=? length vid)%nat then Some vid else None.

(** One of the literal [prefixes] and then an identifier, at the head of [s]. *)
Fixpoint match_here (prefixes : list pystr) (s : pystr) : option pystr :=
  match prefixes with
  | p :: ps =>
      match (if starts_with p s then read_id (drop (length p) s) else None) with
      | Some vid => Some vid
      | None => match_here ps s
      end
  | [] => None
  end.

(** [rx.search(s)]: the leftmost match; the result is group 1. *)
Fixpoint re_search (prefixes : list pystr) (s : pystr) : option pystr :=
  match match_here prefixes s with
  | Some vid => Some vid
  | None =>
      match s with
      | _ :: s' => re_search prefixes s'
      | [] => None
      end
  end.

Definition YOUTUBE_ID_RE : list pystr :=
  [ str "youtu.be/"; str "youtube.com/watch?v=";
    str "youtube.com/shorts/"; str "youtube.com/embed/" ].

Definition STUDIO_ID_RE : list pystr := [ str "studio.youtube.com/video/" ].

Definition watch_url (vid : pystr) : pystr :=
  str "https://www.youtube.com/watch?v=" ++ vid.

Section Urls.
Context `{Runtime}.

Definition normalize_youtube_url (url : pystr) : option pystr :=
  if bool_decide (url = []) then None
  else
    let u := strip url in
    if bool_decide (u = []) then None
    else if contains (str "studio.youtube.com") u then
      match re_search STUDIO_ID_RE u with
      | Some vid => Some (watch_url vid)
      | None => None
      end
    else
      match re_search YOUTUBE_ID_RE u with
      | Some vid => Some (watch_url vid)
      | None =>
          match urlparse_watch_v u with
          | Some vid => Some (watch_url vid)
          | None => None
          end
      end.
End Urls.

(** ** The date-confirmation lookup *)

(** The outside world of one run.  [scrape_publish_date t url] is what
    [extract_publish_date(fetch_url_text(url))] gives when [t] fetches have
    been made before it ([None] also when the fetch fails), and
    [ytdlp_upload_date t url] is the date the yt-dlp fall-back gives, if
    any. *)
Class World := {
  scrape_publish_date : nat -> pystr -> option date;
  ytdlp_upload_date : nat -> pystr -> option date;
}.

(** The cache dictionary, and the URLs fetched so far, oldest first. *)
Record lookup_state := LookupState {
  cache : gmap (list Z) (list Z);
  fetched : list (list Z);
}.

Section Lookup.
Context `{Runtime} `{World}.

Definition youtube_publish_date (url : pystr) (st : lookup_state)
  : option date * lookup_state :=
  match normalize_youtube_url url with
  | None => (None, st)
  | Some norm =>
      match cache st !! norm ≫= date_fromisoformat with
      | Some d => (Some d, st)
      | None =>
          let t := length (fetched st) in
          let log := fetched st ++ [norm] in
          match scrape_publish_date t norm with
          | Some d => (Some d, LookupState (<[norm := isoformat d]> (cache st)) log)
          | None =>
              match ytdlp_upload_date t norm with
              | Some d => (Some d, LookupState (<[norm := isoformat d]> (cache st)) log)
              | None => (None, LookupState (<[norm := []]> (cache st)) log)
              end
          end
      end
  end.
End Lookup.

(** A world in which no lookup ever finds a date. *)
Definition silent_world : World :=
  {| scrape_publish_date := fun _ _ => None;
     ytdlp_upload_date := fun _ _ => None |}.

(** ** Rows and records *)

(** One row of the input: [None] where [row.get] finds nothing. *)
Record row := Row {
  r_channel : option pystr;
  r_data_type : option pystr;
  r_title : option pystr;
  r_link : option pystr;
  r_date : option pystr;
  r_report_month : option pystr;
  r_impressions : option pystr;
  r_views : option pystr;
  r_engagements : option pystr;
  r_clicks : option pystr;
  r_attendees : option pystr;
  r_chat_count : option pystr;
  r_email_sends : option pystr;
  r_article_views : option pystr;
  r_interactions : option pystr;
  r_notes : option pystr;
}.

Record item := Item {
  channel : pystr;
  dtype : pystr;
  title : pystr;
  link : pystr;
  date_raw : pystr;
  date_iso : pystr;
  month : pystr;
  date_source : pystr;
  impressions : option Z;
  views : option Z;
  engagements : option Z;
  clicks : option Z;
  attendees : option Z;
  chat_count : option Z;
  email_sends : option Z;
  article_views : option Z;
  interactions : option Z;
  report_month : pystr;
}.

(** [x or ""] *)
Definition or_empty (o : option pystr) : pystr := default [] o.

(** [a or b] on strings *)
Definition or_str (a b : pystr) : pystr := if bool_decide (a = []) then b else a.

(** [x or 0] *)
Definition or_zero (o : option Z) : Z := default 0 o.

Definition cell_of (o : option pystr) : cell :=
  match o with
  | Some s => CStr s
  | None => CNone
  end.

Definition DATE_PRIORITY : list (pystr * Z) :=
  [ (str "provided", 3); (str "youtube_publish", 2);
    (str "inferred_report_month", 1); (str "unknown", 0) ].

(** [DATE_PRIORITY.get(s, 0)] *)
Definition date_priority (s : pystr) : Z := default 0 (dict_get s DATE_PRIORITY).

(** An identity key: a tuple of four or five strings. *)
Abbreviation key := (list (list Z)).

Section Identity.
Context `{Runtime}.

(** The link as [dedup_key] compares it. *)
Definition norm_link (it : item) : pystr :=
  let channel := strip (channel it) in
  let link := strip (link it) in
  if bool_decide (py_lower channel = str "youtube") && negb (bool_decide (link = []))
  then match normalize_youtube_url link with
       | Some nl => nl
       | None => link
       end
  else link.

Definition dedup_key (it : item) : key :=
  let channel := strip (channel it) in
  let dtype := strip (dtype it) in
  let title := strip (title it) in
  let date_iso := date_iso it in
  let norm_link := norm_link it in
  if bool_decide (norm_link = []) then
    if bool_decide (title = []) then
      [channel; dtype; title; norm_link; date_iso]
    else if bool_decide (py_lower channel = str "linkedin")
            || bool_decide (py_lower channel = str "instagram") then
      [channel; dtype; title; norm_link; date_iso]
    else [channel; dtype; title; norm_link]
  else [channel; dtype; title; norm_link].
End Identity.

(** ** The map of records, in insertion order *)

Fixpoint store_get (k : key) (s : list (key * item)) : option item :=
  match s with
  | (k', v) :: s' => if bool_decide (k' = k) then Some v else store_get k s'
  | [] => None
  end.

(** [d[k] = v]: in place for a key that is there, at the end otherwise. *)
Fixpoint store_set (k : key) (v : item) (s : list (key * item)) : list (key * item) :=
  match s with
  | (k', v') :: s' =>
      if bool_decide (k' = k) then (k', v) :: s' else (k', v') :: store_set k v s'
  | [] => [(k, v)]
  end.

(** The stored record with the date of the new one. *)
Definition graft_date (prev new : item) : item :=
  {| channel := channel prev; dtype := dtype prev; title := title prev;
     link := link prev;
     date_raw := or_str (date_raw new) (date_raw prev);
     date_iso := or_str (date_iso new) (date_iso prev);
     month := or_str (month new) (month prev);
     date_source := date_source new;
     impressions := impressions prev; views := views prev;
     engagements := engagements prev; clicks := clicks prev;
     attendees := attendees prev; chat_count := chat_count prev;
     email_sends := email_sends prev; article_views := article_views prev;
     interactions := interactions prev; report_month := report_month prev |}.

Section Merge.
Context `{Runtime}.

(** The collision rule of the main loop ([main], from [k = dedup_key(item)]
    to the end of the loop body). *)
Definition merge_item (it : item) (s : list (key * item)) : list (key * item) :=
  let k := dedup_key it in
  match store_get k s with
  | None => store_set k it s
  | Some prev =>
      let p1 := date_priority (date_source prev) in
      let p2 := date_priority (date_source it) in
      let prev_imp := or_zero (impressions prev) in
      let new_imp := or_zero (impressions it) in
      if p1 <? p2 then
        if (new_imp * 10 <? prev_imp) && (100 <? prev_imp)
        then store_set k (graft_date prev it) s
        else store_set k it s
      else if p2 =? p1 then
        if prev_imp <? new_imp then store_set k it s else s
      else s
  end.
End Merge.

(** ** One row of the main loop *)

Section Rows.
Context `{Runtime} `{World}.

(** The date of a row and its tier ([main], from [parse_human_date(date_raw)]
    to the fall-back on the period).  The lookup of the model raises
    nothing, so the [try] around it has nothing to catch. *)
Definition resolve_date (channel link date_raw report_month_raw : pystr)
    (ls : lookup_state) : res (option date * pystr * lookup_state) :=
  let! d := parse_human_date date_raw in
  let '(d, date_source, ls) :=
    match d with
    | Some d => (Some d, str "provided", ls)
    | None =>
        if bool_decide (py_lower channel = str "youtube")
           && negb (bool_decide (link = []))
        then
          let '(yd, ls') := youtube_publish_date link ls in
          match yd with
          | Some yd => (Some yd, str "youtube_publish", ls')
          | None => (None, str "unknown", ls')
          end
        else (None, str "unknown", ls)
    end in
  match d with
  | Some _ => Ret (d, date_source, ls)
  | None =>
      let! rm := parse_report_month report_month_raw in
      match rm with
      | Some rm => Ret (Some rm, str "inferred_report_month", ls)
      | None => Ret (None, date_source, ls)
      end
  end.

(** The record of a row ([main], from the reading of the columns to the
    [item] dictionary). *)
Definition build_item (r : row) (ls : lookup_state) : res (item * lookup_state) :=
  let channel := strip (or_empty (r_channel r)) in
  let dtype := strip (or_empty (r_data_type r)) in
  let title := strip (or_empty (r_title r)) in
  let link := strip (or_empty (r_link r)) in
  let date_raw := strip (or_empty (r_date r)) in
  let report_month_raw := strip (or_empty (r_report_month r)) in
  let! (d, date_source, ls) := resolve_date channel link date_raw report_month_raw ls in
  let date_iso := match d with Some d => isoformat d | None => [] end in
  let mkey := match d with Some d => month_key d | None => str "_nodate" end in
  let! raw_impressions := parse_int (cell_of (r_impressions r)) in
  let! raw_views := parse_int (cell_of (r_views r)) in
  let! raw_engagements := parse_int (cell_of (r_engagements r)) in
  let! raw_clicks := parse_int (cell_of (r_clicks r)) in
  let '(impressions, engagements, views) :=
    if bool_decide (py_lower channel = str "linkedin")
       && (contains (str "post") (py_lower dtype)
           || bool_decide (py_lower dtype = str "post"))
    then
      match raw_engagements, raw_views, raw_impressions with
      | None, Some v, Some i =>
          if i <? v then (Some v, Some i, None)
          else (raw_impressions, raw_engagements, raw_views)
      | _, _, _ => (raw_impressions, raw_engagements, raw_views)
      end
    else (raw_impressions, raw_engagements, raw_views) in
  let! (impressions, engagements) :=
    if bool_decide (py_lower channel = str "instagram") then
      let! interactions_val := parse_int (cell_of (r_interactions r)) in
      let! notes_val := parse_int (cell_of (r_notes r)) in
      let engagements :=
        match interactions_val, engagements with
        | Some _, None => interactions_val
        | _, _ => engagements
        end in
      let impressions :=
        match notes_val, impressions with
        | Some _, None => notes_val
        | _, _ => impressions
        end in
      Ret (impressions, engagements)
    else Ret (impressions, engagements) in
  let! attendees := parse_int (cell_of (r_attendees r)) in
  let! chat_count := parse_int (cell_of (r_chat_count r)) in
  let! email_sends := parse_int (cell_of (r_email_sends r)) in
  let! article_views := parse_int (cell_of (r_article_views r)) in
  let! interactions := parse_int (cell_of (r_interactions r)) in
  Ret ({| channel := channel; dtype := dtype; title := title; link := link;
          date_raw := date_raw; date_iso := date_iso; month := mkey;
          date_source := date_source;
          impressions := impressions; views := views;
          engagements := engagements; clicks := raw_clicks;
          attendees := attendees; chat_count := chat_count;
          email_sends := email_sends; article_views := article_views;
          interactions := interactions;
          report_month := report_month_raw |}, ls).

(** The body of the loop over the rows. *)
Definition process_row (st : lookup_state * list (key * item)) (r : row)
  : res (lookup_state * list (key * item)) :=
  let! (it, ls) := build_item r st.1 in
  Ret (ls, merge_item it st.2).

Fixpoint process_rows (rows : list row) (st : lookup_state * list (key * item))
  : res (lookup_state * list (key * item)) :=
  match rows with
  | [] => Ret st
  | r :: rows' => let! st' := process_row st r in process_rows rows' st'
  end.
End Rows.

(** ** The cross-period reconciliation pass

    The pass mutates records in place and reads them through the
    references of its two snapshots, [dated_items] and
    [list(items_by_key.items())].  No key is bound to another record
    during the pass, so a reference is its key, and reading a record is
    looking its key up in the map as it is at that moment. *)

(** The inferred record with the date of its match. *)
Definition adopt_date (it best_mit : item) : item :=
  {| channel := channel it; dtype := dtype it; title := title it;
     link := if negb (bool_decide (link best_mit = [])) && bool_decide (link it = [])
             then link best_mit else link it;
     date_raw := date_raw best_mit;
     date_iso := date_iso best_mit;
     month := month best_mit;
     date_source := str "matched_" ++ date_source best_mit;
     impressions := impressions it; views := views it;
     engagements := engagements it; clicks := clicks it;
     attendees := attendees it; chat_count := chat_count it;
     email_sends := email_sends it; article_views := article_views it;
     interactions := interactions it; report_month := report_month it |}.

Definition is_dated (it : item) : bool :=
  bool_decide (date_source it = str "provided")
  || bool_decide (date_source it = str "youtube_publish").

(** The keys of [dated_items], in order. *)
Definition dated_items (s : list (key * item)) : list key :=
  (filter (fun p => is_dated p.2 = true) s).*1.

(** The test on the two cleaned titles. *)
Definition titles_match (ct mt : pystr) : bool :=
  if bool_decide (mt = []) || (length mt <? 8)%nat then false
  else
    let shorter := Nat.min (length ct) (length mt) in
    if (shorter <? 8)%nat then false
    else
      let prefix_len := Nat.min shorter 10 in
      bool_decide (take prefix_len ct = take prefix_len mt).

Section Reconcile.
Context `{Runtime}.

Definition clean_title (t : pystr) : pystr :=
  rstrip_by (fun c => c =? 46) (py_lower (strip t)).

(** The body of the loop over [dated_items]. *)
Definition find_best_step (s : list (key * item)) (keys_to_remove : gset key)
    (it : item) (ch ct : pystr) (best : option (key * item)) (mk : key)
  : option (key * item) :=
  if bool_decide (mk ∈ keys_to_remove) then best
  else match store_get mk s with
       | None => best
       | Some mit =>
           if negb (bool_decide (py_lower (strip (channel mit)) = ch)) then best
           else if titles_match ct (clean_title (title mit)) then
             match best with
             | None => Some (mk, mit)
             | Some (_, best_mit) =>
                 if bool_decide (dtype mit = dtype it)
                    && negb (bool_decide (dtype best_mit = dtype it))
                 then Some (mk, mit) else best
             end
           else best
       end.

Definition find_best (dated : list key) (s : list (key * item))
    (keys_to_remove : gset key) (it : item) (ch ct : pystr)
  : option (key * item) :=
  fold_left (find_best_step s keys_to_remove it ch ct) dated None.

(** The body of the loop over the records. *)
Definition reconcile_step (dated : list key)
    (st : list (key * item) * gset key) (k : key)
  : list (key * item) * gset key :=
  let '(s, keys_to_remove) := st in
  if bool_decide (k ∈ keys_to_remove) then st
  else match store_get k s with
       | None => st
       | Some it =>
           if negb (bool_decide (date_source it = str "inferred_report_month")) then st
           else
             let title := strip (title it) in
             if bool_decide (title = []) then st
             else
               let ch := py_lower (strip (channel it)) in
               let ct := clean_title title in
               match find_best dated s keys_to_remove it ch ct with
               | None => st
               | Some (best_mk, best_mit) =>
                   let inf_imp := or_zero (impressions it) in
                   let dated_imp := or_zero (impressions best_mit) in
                   if dated_imp <=? inf_imp
                   then (store_set k (adopt_date it best_mit) s,
                         {[best_mk]} ∪ keys_to_remove)
                   else (s, {[k]} ∪ keys_to_remove)
               end
       end.

Definition reconcile_loop (dated : list key) (keys : list key)
    (st : list (key * item) * gset key) : list (key * item) * gset key :=
  fold_left (reconcile_step dated) keys st.

(** The whole pass: the loop, then the removals. *)
Definition reconcile (s : list (key * item)) : list (key * item) :=
  let '(s', keys_to_remove) := reconcile_loop (dated_items s) s.*1 (s, ∅) in
  filter (fun p => p.1 ∉ keys_to_remove) s'.
End Reconcile.

(** ** Predicates of the statements *)

(** A number of units with at most 53 significant bits. *)
Definition fits53 (u : Z) : Prop :=
  exists m k, 0 <= m < 2 ^ 53 /\ 0 <= k /\ u = m * 2 ^ k.

(** A run of ASCII digits. *)
Definition digit_string (ds : pystr) : Prop := Forall (fun c => is_digit c = true) ds.

(** The characters of [str(n)]: a minus sign or a digit. *)
Definition signed (neg : bool) (ds : pystr) : pystr := if neg then 45 :: ds else ds.

(** Whether the first character of [s] other than whitespace and commas
    is a minus sign. *)
Definition leading_minus (s : pystr) : bool :=
  match lstrip_by (fun c => py_isspace c || (c =? 44)) s with
  | c :: _ => c =? 45
  | [] => false
  end.

Section Predicates.
Context `{Runtime}.

(** What [find_best] holds at any time: a candidate that passed the tests. *)
Definition candidate_ok (dated : list key) (s : list (key * item)) (R : gset key)
    (ch ct : pystr) (best : option (key * item)) : Prop :=
  match best with
  | None => True
  | Some (mk, mit) =>
      mk ∈ dated /\ (mk ∉ R) /\ store_get mk s = Some mit /\
      py_lower (strip (channel mit)) = ch /\
      titles_match ct (clean_title (title mit)) = true
  end.

(** A record outside the two exceptions of the identity key. *)
Definition plain_identity (it : item) : Prop :=
  norm_link it ≠ [] \/
  (strip (title it) ≠ [] /\
   py_lower (strip (channel it)) ≠ str "linkedin" /\
   py_lower (strip (channel it)) ≠ str "instagram").

(** A row without a title, a link or a date. *)
Definition blank_undated (r : row) : Prop :=
  strip (or_empty (r_title r)) = [] /\
  strip (or_empty (r_link r)) = [] /\
  parse_human_date (strip (or_empty (r_date r))) = Ret None /\
  parse_report_month (strip (or_empty (r_report_month r))) = Ret None.

Definition blank_key (r : row) : key :=
  [strip (or_empty (r_channel r)); strip (or_empty (r_data_type r)); []; []; []].

(** Under a key whose date is empty, a record of tier unknown. *)
Definition undated_at (k : key) (s : list (key * item)) : Prop :=
  forall it, store_get k s = Some it -> date_source it = str "unknown".

End Predicates.

(** ** Sample rows and records *)

Definition initial_state : lookup_state * list (key * item) :=
  (LookupState ∅ [], []).

(** An episode listed with a date text that is no date and no period. *)
Definition row_stored : row :=
  {| r_channel := Some (str "Podcast"); r_data_type := Some (str "Episode");
     r_title := Some (str "Ep 1"); r_link := None;
     r_date := Some (str "TBD"); r_report_month := None;
     r_impressions := Some (str "5,000"); r_views := None;
     r_engagements := None; r_clicks := None; r_attendees := None;
     r_chat_count := None; r_email_sends := None; r_article_views := None;
     r_interactions := None; r_notes := None |}.

(** The same episode listed again, without a date, under a period. *)
Definition row_relisted : row :=
  {| r_channel := Some (str "Podcast"); r_data_type := Some (str "Episode");
     r_title := Some (str "Ep 1"); r_link := None;
     r_date := None; r_report_month := Some (str "April 2025");
     r_impressions := Some (str "10"); r_views := None;
     r_engagements := None; r_clicks := None; r_attendees := None;
     r_chat_count := None; r_email_sends := None; r_article_views := None;
     r_interactions := None; r_notes := None |}.

(** A row whose period names the year 0. *)
Definition row_year_zero : row :=
  {| r_channel := Some (str "LinkedIn"); r_data_type := Some (str "Post");
     r_title := Some (str "Hello"); r_link := None;
     r_date := None; r_report_month := Some (str "January 0");
     r_impressions := None; r_views := None;
     r_engagements := None; r_clicks := None; r_attendees := None;
     r_chat_count := None; r_email_sends := None; r_article_views := None;
     r_interactions := None; r_notes := None |}.

(** A video without a date. *)
Definition row_video : row :=
  {| r_channel := Some (str "YouTube"); r_data_type := Some (str "Video");
     r_title := Some (str "Intro"); r_link := Some (str "https://youtu.be/abcdef");
     r_date := None; r_report_month := None;
     r_impressions := None; r_views := None;
     r_engagements := None; r_clicks := None; r_attendees := None;
     r_chat_count := None; r_email_sends := None; r_article_views := None;
     r_interactions := None; r_notes := None |}.

Definition video_url : pystr := str "https://www.youtube.com/watch?v=abcdef".

Definition plain_item (channel dtype title link : pystr) : item :=
  {| channel := channel; dtype := dtype; title := title; link := link;
     date_raw := []; date_iso := []; month := str "_nodate";
     date_source := str "unknown";
     impressions := None; views := None; engagements := None; clicks := None;
     attendees := None; chat_count := None; email_sends := None;
     article_views := None; interactions := None; report_month := [] |}.

Definition dated_item (channel dtype title link date_raw date_iso month source : pystr)
    (imp : option Z) : item :=
  {| channel := channel; dtype := dtype; title := title; link := link;
     date_raw := date_raw; date_iso := date_iso; month := month;
     date_source := source;
     impressions := imp; views := None; engagements := None; clicks := None;
     attendees := None; chat_count := None; email_sends := None;
     article_views := None; interactions := None; report_month := [] |}.

(** A LinkedIn post that has a link of its own. *)
Definition linkedin_post : item :=
  dated_item (str "LinkedIn") (str "Post") (str "Hello") (str "https://lnkd.in/x")
    (str "9 Apr 2025") (str "2025-04-09") (str "2025-04") (str "provided") None.

(** A video record without a title whose link names no video. *)
Definition untitled_video : item :=
  plain_item (str "YouTube") (str "Video") [] (str "https://studio.youtube.com/channel/UC1").

(** A post listed again under a later period with its title cut short,
    and the post as it was first listed. *)
Definition relisted_post : item :=
  dated_item (str "LinkedIn") (str "Post") (str "Budget Q") [] []
    (str "2025-07-01") (str "2025-07") (str "inferred_report_month") (Some 50).

Definition original_post : item :=
  dated_item (str "LinkedIn") (str "Post") (str "Budget Q4 planning") []
    (str "9 Apr 2025") (str "2025-04-09") (str "2025-04") (str "provided") (Some 30).

(** The webinar recap of the specification and the webinar it matches. *)
Definition webinar_recap : item :=
  dated_item (str "FHC") (str "Webinar") (str "Quarterly Budget Planning Webinar Recap")
    [] [] (str "2025-07-01") (str "2025-07") (str "inferred_report_month") (Some 50).

Definition webinar : item :=
  dated_item (str "FHC") (str "Webinar") (str "Quarterly Budget Planning Webinar")
    (str "https://federalhelpcenter.com/w") (str "9 Apr 2025") (str "2025-04-09")
    (str "2025-04") (str "provided") (Some 30).

(** A row with nothing but a channel and a type. *)
Definition row_blank : row :=
  {| r_channel := Some (str "FHC"); r_data_type := Some (str "Webinar");
     r_title := None; r_link := None; r_date := None; r_report_month := None;
     r_impressions := None; r_views := None;
     r_engagements := None; r_clicks := None; r_attendees := Some (str "40");
     r_chat_count := None; r_email_sends := None; r_article_views := None;
     r_interactions := None; r_notes := None |}.

(** The record of [row_blank]. *)
Definition blank_record : item :=
  {| channel := str "FHC"; dtype := str "Webinar"; title := []; link := [];
     date_raw := []; date_iso := []; month := str "_nodate";
     date_source := str "unknown";
     impressions := None; views := None; engagements := None;
     clicks := None; attendees := Some 40; chat_count := None;
     email_sends := None; article_views := None; interactions := None;
     report_month := [] |}.

Definition webinar_store : list (key * item) :=
  @merge_item bare_runtime webinar (@merge_item bare_runtime webinar_recap []).

(** A row whose impressions are written with a minus sign. *)
Definition row_negative : row :=
  {| r_channel := Some (str "Podcast"); r_data_type := Some (str "Episode");
     r_title := Some (str "Ep 2"); r_link := None;
     r_date := Some (str "9 Apr 2025"); r_report_month := None;
     r_impressions := Some (str "-5"); r_views := None;
     r_engagements := None; r_clicks := None; r_attendees := None;
     r_chat_count := None; r_email_sends := None; r_article_views := None;
     r_interactions := None; r_notes := None |}.

(** * The rest of the script *)

(** ** The months of the report *)

(** [s.split(sep)] for a one-character [sep]. *)
Fixpoint split_on_aux (sep : Z) (cur : pystr) (s : pystr) : list pystr :=
  match s with
  | [] => [rev cur]
  | c :: s' =>
      if c =? sep then rev cur :: split_on_aux sep [] s'
      else split_on_aux sep (c :: cur) s'
  end.

Definition split_on (sep : Z) (s : pystr) : list pystr := split_on_aux sep [] s.

(** [f"{y:04d}-{m:02d}"] *)
Definition format_ym (y m : Z) : pystr := format_0d 4 y ++ [45] ++ format_0d 2 m.

(** The [while] loop of [month_range]; [None] when [fuel] turns of the loop
    do not end it. *)
Fixpoint month_range_loop (fuel : nat) (y m ey em : Z) : option (list pystr) :=
  if (y <? ey) || ((y =? ey) && (m <=? em)) then
    match fuel with
    | O => None
    | S f =>
        match (if m + 1 =? 13 then month_range_loop f (y + 1) 1 ey em
               else month_range_loop f y (m + 1) ey em) with
        | Some out => Some (format_ym y m :: out)
        | None => None
        end
    end
  else Some [].

Section Months.
Context `{Runtime}.

(** [y, m = map(int, s.split("-"))]; [None] stands for [ValueError]. *)
Definition parse_ym (s : pystr) : option (Z * Z) :=
  match split_on 45 s with
  | [a; b] =>
      match py_int a, py_int b with
      | Some y, Some m => Some (y, m)
      | _, _ => None
      end
  | _ => None
  end.

Definition month_range (fuel : nat) (start_ym end_ym : pystr)
  : res (option (list pystr)) :=
  match parse_ym start_ym, parse_ym end_ym with
  | Some (sy, sm), Some (ey, em) => Ret (month_range_loop fuel sy sm ey em)
  | _, _ => Raise ValueError
  end.

End Months.

(** ** Fallback links *)

Definition PLATFORM_LINKS : list (pystr * pystr) :=
  [ (str "linkedin", str "https://www.linkedin.com/company/govcongiants");
    (str "instagram", str "https://www.instagram.com/govcongiants/");
    (str "fhc", str "https://federalhelpcenter.com/");
    (str "podcast", str "https://open.spotify.com/show/1XZCaN0VDP9zQSNYS1syoC") ].

(** A record of the output: the record and its [link_type]. *)
Record linked := Linked {
  li_item : item;
  link_type : pystr;
}.

Definition set_link (it : item) (l : pystr) : item :=
  {| channel := channel it; dtype := dtype it; title := title it;
     link := l;
     date_raw := date_raw it; date_iso := date_iso it; month := month it;
     date_source := date_source it;
     impressions := impressions it; views := views it;
     engagements := engagements it; clicks := clicks it;
     attendees := attendees it; chat_count := chat_count it;
     email_sends := email_sends it; article_views := article_views it;
     interactions := interactions it; report_month := report_month it |}.

Section Links.
Context `{Runtime}.

(** The body of the loop that gives every record a [link_type]. *)
Definition fallback_link (it : item) : linked :=
  let link := strip (link it) in
  if negb (bool_decide (link = [])) then Linked it (str "direct")
  else
    let ch := py_lower (strip (channel it)) in
    let fallback := default [] (dict_get ch PLATFORM_LINKS) in
    if negb (bool_decide (fallback = []))
    then Linked (set_link it fallback) (str "platform")
    else Linked it (str "none").

End Links.

(** ** The order of the output *)

(** [a < b] on strings: by code points, a proper prefix first. *)
Fixpoint str_lt (a b : pystr) : bool :=
  match a, b with
  | _, [] => false
  | [], _ :: _ => true
  | x :: a', y :: b' => (x <? y) || ((x =? y) && str_lt a' b')
  end.

Definition sort_key (it : item) : pystr * pystr * pystr :=
  (or_str (date_iso it) (str "9999-99-99"), channel it, title it).

(** [a < b] on the tuples of [sort_key]. *)
Definition key_lt (a b : pystr * pystr * pystr) : bool :=
  let '(a1, a2, a3) := a in
  let '(b1, b2, b3) := b in
  str_lt a1 b1
  || (bool_decide (a1 = b1)
      && (str_lt a2 b2 || (bool_decide (a2 = b2) && str_lt a3 b3))).

(** [x] goes behind the records that are not after it. *)
Fixpoint sort_insert (x : linked) (l : list linked) : list linked :=
  match l with
  | [] => [x]
  | y :: l' =>
      if key_lt (sort_key (li_item x)) (sort_key (li_item y)) then x :: y :: l'
      else y :: sort_insert x l'
  end.

(** [items.sort(key=sort_key)]: the sort of Python is stable, and the
    stable sort of a list is one list; this is it, by insertion. *)
Definition sort_items (l : list linked) : list linked :=
  fold_left (fun acc x => sort_insert x acc) l [].

(** ** The records of the output *)

Section Output.
Context `{Runtime} `{World}.

(** [main] from the loop over the rows to the sort: the cache and the
    sorted records. *)
Definition build_items (rows : list row) (ls : lookup_state)
  : res (lookup_state * list linked) :=
  let! (ls', s) := process_rows rows (ls, []) in
  Ret (ls', sort_items (fallback_link <$> (reconcile s).*2)).

End Output.

(** ** Aggregates *)

(** [d[k] = v] on a dictionary given by its items. *)
Fixpoint dict_set {V} (k : pystr) (v : V) (d : list (pystr * V)) : list (pystr * V) :=
  match d with
  | (k', v') :: d' =>
      if bool_decide (k' = k) then (k', v) :: d' else (k', v') :: dict_set k v d'
  | [] => [(k, v)]
  end.

(** The sums of one month or of one channel in a month: the eight
    [METRIC_KEYS] and the number of records. *)
Record tally := Tally {
  t_impressions : Z;
  t_views : Z;
  t_engagements : Z;
  t_clicks : Z;
  t_attendees : Z;
  t_chat_count : Z;
  t_email_sends : Z;
  t_article_views : Z;
  t_items : Z;
}.

Definition zero_tally : tally := Tally 0 0 0 0 0 0 0 0 0.

(** [if isinstance(v, int): total += v] *)
Definition add_metric (total : Z) (v : option Z) : Z :=
  match v with
  | Some n => total + n
  | None => total
  end.

(** One record more in a tally. *)
Definition tally_add (it : item) (t : tally) : tally :=
  {| t_impressions := add_metric (t_impressions t) (impressions it);
     t_views := add_metric (t_views t) (views it);
     t_engagements := add_metric (t_engagements t) (engagements it);
     t_clicks := add_metric (t_clicks t) (clicks it);
     t_attendees := add_metric (t_attendees t) (attendees it);
     t_chat_count := add_metric (t_chat_count t) (chat_count it);
     t_email_sends := add_metric (t_email_sends t) (email_sends it);
     t_article_views := add_metric (t_article_views t) (article_views it);
     t_items := t_items t + 1 |}.

(** The entry of one month; [is_empty] stands for the two keys [is_empty]
    and [note], which come together. *)
Record month_agg := MonthAgg {
  totals : tally;
  by_channel : list (pystr * tally);
  is_empty : bool;
}.

(** The body of the loop over the records. *)
Definition agg_item (agg : list (pystr * month_agg)) (it : item)
  : list (pystr * month_agg) :=
  let m := or_str (month it) (str "_nodate") in
  match dict_get m agg with
  | None => agg
  | Some a =>
      let ch := or_str (channel it) (str "Unknown") in
      let t := default zero_tally (dict_get ch (by_channel a)) in
      dict_set m
        {| totals := tally_add it (totals a);
           by_channel := dict_set ch (tally_add it t) (by_channel a);
           is_empty := is_empty a |} agg
  end.

(** The body of the loop that flags the months without records. *)
Definition flag_empty (agg : list (pystr * month_agg)) (m : pystr)
  : list (pystr * month_agg) :=
  match dict_get m agg with
  | None => agg
  | Some a =>
      if t_items (totals a) =? 0
      then dict_set m {| totals := totals a; by_channel := by_channel a;
                         is_empty := true |} agg
      else agg
  end.

(** [agg] as it is after the three loops. *)
Definition aggregate (months : list pystr) (items : list item)
  : list (pystr * month_agg) :=
  let agg0 :=
    fold_left (fun agg m => dict_set m (MonthAgg zero_tally [] false) agg) months [] in
  fold_left flag_empty months (fold_left agg_item items agg0).

(** [[agg[m]["totals"][k] for m in months]] *)
Definition series_of (f : tally -> Z) (agg : list (pystr * month_agg))
    (months : list pystr) : list Z :=
  (fun m => match dict_get m agg with
            | Some a => f (totals a)
            | None => 0
            end) <$> months.

(** ** Predicates of the further statements *)

(** The six tiers of the output. *)
Definition OUTPUT_TIERS : list pystr :=
  [ str "provided"; str "youtube_publish"; str "inferred_report_month";
    str "unknown"; str "matched_provided"; str "matched_youtube_publish" ].

(** A calendar date as [dt.date] holds it. *)
Definition valid_date (d : date) : Prop :=
  1 <= d_year d <= 9999 /\ 1 <= d_month d <= 12 /\
  1 <= d_day d <= days_in_month (d_year d) (d_month d).

(** The month of a record is the month of its date. *)
Definition month_of_date (it : item) : Prop :=
  (date_iso it = [] /\ month it = str "_nodate") \/
  exists d, date_iso it = isoformat d /\ month it = month_key d.

(** Two records that differ in their date fields and their link at most. *)
Definition same_content (a b : item) : Prop :=
  channel a = channel b /\ dtype a = dtype b /\ title a = title b /\
  impressions a = impressions b /\ views a = views b /\
  engagements a = engagements b /\ clicks a = clicks b /\
  attendees a = attendees b /\ chat_count a = chat_count b /\
  email_sends a = email_sends b /\ article_views a = article_views b /\
  interactions a = interactions b /\ report_month a = report_month b.

(** What a record of the map is after some steps of the pass, [s0] being
    the map before the pass: the record as it was, or a record tagged as
    inferred with the date of a record of tier provided or
    youtube_publish. *)
Definition pass_record (s0 : list (key * item)) (k : key) (it : item) : Prop :=
  exists it0,
    store_get k s0 = Some it0 /\
    (it = it0 \/
     (date_source it0 = str "inferred_report_month" /\
      exists mk mit, store_get mk s0 = Some mit /\ is_dated mit = true /\
                     it = adopt_date it0 mit)).

(** What the main loop keeps of every stored record. *)
Definition loop_record (it : item) : Prop :=
  date_source it ∈ [str "provided"; str "youtube_publish";
                    str "inferred_report_month"; str "unknown"]
  /\ month_of_date it.

(** The forms of a video URL that the two expressions read. *)
Definition VIDEO_URL_SHAPES : list pystr :=
  [ str "https://youtu.be/"; str "https://www.youtube.com/watch?v=";
    str "https://www.youtube.com/shorts/"; str "https://www.youtube.com/embed/";
    str "https://studio.youtube.com/video/" ].

(** A video identifier: six characters or more of [[A-Za-z0-9_-]]. *)
Definition video_id (vid : pystr) : Prop :=
  Forall (fun c => is_id_char c = true) vid /\ (6 <= length vid)%nat.

(** What may follow the identifier in a URL: nothing, or text without
    whitespace that starts with a character outside the identifiers. *)
Definition url_tail (rest : pystr) : Prop :=
  match rest with
  | [] => True
  | c :: _ => is_id_char c = false
  end /\ Forall (fun c => py_isspace c = false) rest.

(** Whether [pat] and [s] differ at a place that both have. *)
Fixpoint clash (pat s : pystr) : bool :=
  match pat, s with
  | a :: pat', b :: s' => if bool_decide (a = b) then clash pat' s' else true
  | _, _ => false
  end.

(** [u] is a URL of the video [vid] in one of the five forms. *)
Definition url_of_video (u vid : pystr) : Prop :=
  exists p rest,
    p ∈ VIDEO_URL_SHAPES /\ url_tail rest /\
    (p = str "https://studio.youtube.com/video/"
     \/ contains (str "studio.youtube.com") (vid ++ rest) = false) /\
    u = p ++ vid ++ rest.

(** The month [i] months after month [m] of year [y], as [month_range]
    writes it. *)
Definition nth_month (y m : Z) (i : nat) : pystr :=
  let t := y * 12 + (m - 1) + Z.of_nat i in
  format_ym (t / 12) (t mod 12 + 1).

(** The number of months from [(y, m)] to [(ey, em)], both included. *)
Definition months_between (y m ey em : Z) : nat :=
  Z.to_nat ((ey * 12 + em) - (y * 12 + m) + 1).

(** [b] is not before [a] in the order of the output. *)
Definition not_after (a b : linked) : Prop :=
  key_lt (sort_key (li_item b)) (sort_key (li_item a)) = false.

(** No record of [l] is before an earlier one. *)
Fixpoint ordered (l : list linked) : Prop :=
  match l with
  | [] => True
  | x :: l' => Forall (not_after x) l' /\ ordered l'
  end.

(** The records of [l] with the sort key [k], in the order of [l]. *)
Definition with_key (k : pystr * pystr * pystr) (l : list linked) : list linked :=
  filter (fun x => sort_key (li_item x) = k) l.

(** The records that the aggregates count in month [m], and those of a
    list that they count for channel [ch]. *)
Definition in_month (m : pystr) (items : list item) : list item :=
  filter (fun it => or_str (month it) (str "_nodate") = m) items.

Definition in_channel (ch : pystr) (items : list item) : list item :=
  filter (fun it => or_str (channel it) (str "Unknown") = ch) items.

(** The sum of one metric over a list of records; a record without the
    metric adds nothing. *)
Definition metric_sum (g : item -> option Z) (l : list item) : Z :=
  foldr (fun it acc => default 0 (g it) + acc) 0 l.

(** The sums of a list of records. *)
Definition tally_of (l : list item) : tally :=
  {| t_impressions := metric_sum impressions l;
     t_views := metric_sum views l;
     t_engagements := metric_sum engagements l;
     t_clicks := metric_sum clicks l;
     t_attendees := metric_sum attendees l;
     t_chat_count := metric_sum chat_count l;
     t_email_sends := metric_sum email_sends l;
     t_article_views := metric_sum article_views l;
     t_items := Z.of_nat (length l) |}.

(** A record without engagements has no more views than impressions, as
    far as it has both. *)
Definition swap_settled (it : item) : Prop :=
  engagements it = None ->
  forall v i, views it = Some v -> impressions it = Some i -> v <= i.

Section Posts.
Context `{Runtime}.

(** The records that the fix of the LinkedIn columns looks at. *)
Definition is_linkedin_post (it : item) : Prop :=
  py_lower (channel it) = str "linkedin" /\
  (contains (str "post") (py_lower (dtype it)) = true
   \/ py_lower (dtype it) = str "post").

End Posts.

Section Provenance.
Context `{Runtime} `{World}.

(** [it] has the content of the record of one of the rows. *)
Definition from_rows (rows : list row) (it : item) : Prop :=
  exists r ls0 ls1 it0,
    r ∈ rows /\ build_item r ls0 = Ret (it0, ls1) /\ same_content it it0.

End Provenance.

(** ** The date on a video page *)

(** A piece of a pattern: literal text, or a run of whitespace of [min]
    characters at least. *)
Inductive piece :=
  | Lit (s : pystr)
  | Spaces (min : nat).

Definition quoted (s : pystr) : pystr := [34] ++ s ++ [34].

(** The text before the group of each pattern of [PUBLISH_DATE_REGEXES];
    the group and the quote behind it are the same in all of them. *)
Definition PUBLISH_DATE_REGEXES : list (list piece) :=
  [ [Lit (quoted (str "publishDate")); Spaces 0; Lit [58]; Spaces 0; Lit [34]];
    [Lit (quoted (str "uploadDate")); Spaces 0; Lit [58]; Spaces 0; Lit [34]];
    [Lit (quoted (str "datePublished")); Spaces 0; Lit [58]; Spaces 0; Lit [34]];
    [Lit (str "itemprop=" ++ quoted (str "datePublished")); Spaces 1;
     Lit (str "content=" ++ [34])];
    [Lit (str "itemprop=" ++ quoted (str "uploadDate")); Spaces 1;
     Lit (str "content=" ++ [34])] ].

(** The pieces at the head of [s]: what follows them.  Every run of
    whitespace of the patterns stands before a literal that begins with
    another character, so only the longest run can match. *)
Fixpoint match_pieces (ps : list piece) (s : pystr) : option pystr :=
  match ps with
  | [] => Some s
  | Lit l :: ps' =>
      if starts_with l s then match_pieces ps' (drop (length l) s) else None
  | Spaces min :: ps' =>
      let w := take_while py_isspace s in
      if (min <=? length w)%nat then match_pieces ps' (drop (length w) s) else None
  end.

Section Pages.
Context `{Runtime}.

(** [\d]: a decimal digit of any script. *)
Definition re_digit (c : Z) : bool :=
  if is_ascii c then is_digit c
  else match unicode_decimal c with
       | Some _ => true
       | None => false
       end.

(** [\d{n}] at the head of [s]: the digits and what follows them. *)
Fixpoint read_digits (n : nat) (s : pystr) : option (pystr * pystr) :=
  match n with
  | O => Some ([], s)
  | S n' =>
      match s with
      | c :: s' =>
          if re_digit c then
            match read_digits n' s' with
            | Some (ds, r) => Some (c :: ds, r)
            | None => None
            end
          else None
      | [] => None
      end
  end.

(** [(\d{4}-\d{2}-\d{2})] and a quote at the head of [s]: group 1. *)
Definition read_date_group (s : pystr) : option pystr :=
  match read_digits 4 s with
  | Some (y, s1) =>
      if starts_with [45] s1 then
        match read_digits 2 (drop 1 s1) with
        | Some (m, s2) =>
            if starts_with [45] s2 then
              match read_digits 2 (drop 1 s2) with
              | Some (d, s3) =>
                  if starts_with [34] s3 then Some (y ++ [45] ++ m ++ [45] ++ d)
                  else None
              | None => None
              end
            else None
        | None => None
        end
      else None
  | None => None
  end.

(** A match of the pattern at the head of [s]: group 1. *)
Definition match_date_here (ps : list piece) (s : pystr) : option pystr :=
  match match_pieces ps s with
  | Some r => read_date_group r
  | None => None
  end.

(** [rx.search(html)]: group 1 of the leftmost match. *)
Fixpoint date_search (ps : list piece) (s : pystr) : option pystr :=
  match match_date_here ps s with
  | Some g => Some g
  | None =>
      match s with
      | _ :: s' => date_search ps s'
      | [] => None
      end
  end.

(** The loop of [extract_publish_date] over the patterns. *)
Fixpoint extract_loop (rxs : list (list piece)) (html : pystr) : option date :=
  match rxs with
  | rx :: rxs' =>
      match date_search rx html with
      | Some g =>
          match date_fromisoformat g with
          | Some d => Some d
          | None => extract_loop rxs' html
          end
      | None => extract_loop rxs' html
      end
  | [] => None
  end.

Definition extract_publish_date (html : pystr) : option date :=
  extract_loop PUBLISH_DATE_REGEXES html.

End Pages.

(** ** Further sample rows, records and pages *)

(** A post listed twice on the same date, with 30 impressions and with 50. *)
Definition post_first : item :=
  dated_item (str "LinkedIn") (str "Post") (str "Hello") []
    (str "9 Apr 2025") (str "2025-04-09") (str "2025-04") (str "provided") (Some 30).

Definition post_again : item :=
  dated_item (str "LinkedIn") (str "Post") (str "Hello") []
    (str "9 Apr 2025") (str "2025-04-09") (str "2025-04") (str "provided") (Some 50).

(** A LinkedIn post with fewer views than impressions. *)
Definition row_post : row :=
  {| r_channel := Some (str "LinkedIn"); r_data_type := Some (str "Post");
     r_title := Some (str "Hello"); r_link := None;
     r_date := Some (str "9 Apr 2025"); r_report_month := None;
     r_impressions := Some (str "30"); r_views := Some (str "10");
     r_engagements := None; r_clicks := None; r_attendees := None;
     r_chat_count := None; r_email_sends := None; r_article_views := None;
     r_interactions := None; r_notes := None |}.

Definition post_key : key :=
  [str "LinkedIn"; str "Post"; str "Hello"; []; str "2025-04-09"].

Definition episode_key : key := [str "Podcast"; str "Episode"; str "Ep 1"; []].

(** A world whose pages all give 9 April 2025. *)
Definition dated_world : World :=
  {| scrape_publish_date := fun _ _ => Some (Date 2025 4 9);
     ytdlp_upload_date := fun _ _ => None |}.

(** A page with the date of a video in its data. *)
Definition page_head : pystr := str "<script>{".

Definition page_sample : pystr :=
  page_head ++ quoted (str "publishDate") ++ [] ++ [58] ++ [32]
  ++ [34] ++ isoformat (Date 2025 4 9) ++ [34] ++ str "}</script>".

(** * Properties *)

(** ** Rounding to binary64 *)

Lemma round_half_even_exact n d :
  0 < d -> n mod d = 0 -> round_half_even n d = n / d.
Proof.
  intros Hd Hr. unfold round_half_even. rewrite Hr.
  destruct (Z.ltb_spec (2 * 0) d); [reflexivity | lia].
Qed.

Lemma round_half_even_range n d :
  0 < d -> n / d <= round_half_even n d <= n / d + 1.
Proof.
  intros Hd. unfold round_half_even.
  repeat match goal with |- context [if ?b then _ else _] => destruct b end; lia.
Qed.

Lemma div_lt_inv a b q : 0 < b -> a / b < q -> a < b * q.
Proof.
  intros Hb Hq. pose proof (Z.mul_div_le a b Hb).
  pose proof (Z.mod_pos_bound a b Hb). pose proof (Z.div_mod a b). nia.
Qed.

Lemma round_binary64_nonneg n d : 0 <= n -> 0 < d -> 0 <= round_binary64 n d.
Proof.
  intros Hn Hd. unfold round_binary64.
  set (N := n * 2 ^ 1074). set (e := Z.max _ 0).
  assert (0 <= N) by (subst N; apply Z.mul_nonneg_nonneg; [lia | apply Z.pow_nonneg; lia]).
  assert (0 < 2 ^ e) by (apply Z.pow_pos_nonneg; lia).
  pose proof (round_half_even_range N (d * 2 ^ e) ltac:(nia)).
  assert (0 <= N / (d * 2 ^ e)) by (apply Z.div_pos; nia).
  nia.
Qed.

Lemma round_binary64_fits53 n d :
  0 <= n -> 0 < d -> fits53 (round_binary64 n d).
Proof.
  intros Hn Hd. unfold round_binary64.
  set (N := n * 2 ^ 1074). set (q0 := N / d).
  set (e := Z.max (Z.log2 q0 - 52) 0). set (m := round_half_even _ _).
  assert (HN : 0 <= N) by (subst N; apply Z.mul_nonneg_nonneg; [lia | apply Z.pow_nonneg; lia]).
  assert (Hq0 : 0 <= q0) by (subst q0; apply Z.div_pos; lia).
  assert (He : 0 <= e) by lia.
  assert (H2e : 0 < 2 ^ e) by (apply Z.pow_pos_nonneg; lia).
  assert (Hq0lt : q0 < 2 ^ (e + 53)).
  { destruct (Z.eq_dec q0 0) as [->|Hne].
    - apply Z.pow_pos_nonneg; lia.
    - pose proof (Z.log2_spec q0 ltac:(lia)) as [_ Hlt].
      eapply Z.lt_le_trans; [exact Hlt|].
      apply Z.pow_le_mono_r; lia. }
  assert (HNlt : N < d * 2 ^ (e + 53)) by (apply div_lt_inv; [lia | exact Hq0lt]).
  assert (Hm : 0 <= m <= 2 ^ 53).
  { pose proof (round_half_even_range N (d * 2 ^ e) ltac:(nia)) as [Hlo Hhi].
    fold m in Hlo, Hhi.
    assert (0 <= N / (d * 2 ^ e)) by (apply Z.div_pos; nia).
    assert (N / (d * 2 ^ e) < 2 ^ 53).
    { apply Z.div_lt_upper_bound; [nia|].
      rewrite Z.pow_add_r in HNlt by lia. nia. }
    lia. }
  destruct (Z.eq_dec m (2 ^ 53)) as [Heq|Hne].
  - exists (2 ^ 52), (e + 1). split; [lia|]. split; [lia|].
    rewrite Heq, Z.pow_add_r by lia.
    change (2 ^ 53) with (2 ^ 52 * 2 ^ 1). lia.
  - exists m, e. repeat split; lia.
Qed.

Lemma round_binary64_exact n :
  0 <= n -> fits53 (n * 2 ^ 1074) -> round_binary64 n 1 = n * 2 ^ 1074.
Proof.
  intros Hn (m & k & Hm & Hk & HN). unfold round_binary64.
  set (N := n * 2 ^ 1074) in *. rewrite Z.div_1_r, Z.mul_1_l.
  set (e := Z.max (Z.log2 N - 52) 0).
  assert (He : 0 <= e) by lia.
  assert (H2e : 0 < 2 ^ e) by (apply Z.pow_pos_nonneg; lia).
  assert (Hdiv : N mod 2 ^ e = 0).
  { destruct (Z.eq_dec m 0) as [->|Hm0].
    - rewrite HN. apply Z.mod_0_l. lia.
    - assert (Hlog : Z.log2 N = k + Z.log2 m).
      { rewrite HN. apply Z.log2_mul_pow2; lia. }
      assert (Z.log2 m < 53) by (apply Z.log2_lt_pow2; lia).
      assert (Hek : e <= k) by lia.
      rewrite HN. replace k with ((k - e) + e) by lia.
      rewrite Z.pow_add_r, Z.mul_assoc by lia.
      apply Z.mod_mul. lia. }
  rewrite round_half_even_exact by assumption.
  pose proof (Z.div_mod N (2 ^ e) ltac:(lia)). lia.
Qed.

Lemma trunc_fits53 u :
  0 <= u -> fits53 u -> fits53 (u / 2 ^ 1074 * 2 ^ 1074).
Proof.
  intros Hu (m & k & Hm & Hk & ->).
  destruct (Z.le_gt_cases 1074 k) as [Hge|Hlt].
  - exists m, k. repeat split; try lia.
    replace k with ((k - 1074) + 1074) by lia.
    rewrite Z.pow_add_r, Z.mul_assoc by lia.
    rewrite Z.div_mul by lia. lia.
  - exists (m / 2 ^ (1074 - k)), 1074.
    assert (0 < 2 ^ (1074 - k)) by (apply Z.pow_pos_nonneg; lia).
    assert (0 < 2 ^ k) by (apply Z.pow_pos_nonneg; lia).
    split.
    + split; [apply Z.div_pos; lia|].
      apply Z.le_lt_trans with m; [|lia].
      apply Z.div_le_upper_bound; nia.
    + split; [lia|]. f_equal.
      replace 1074 with ((1074 - k) + k) at 1 by lia.
      rewrite Z.pow_add_r by lia.
      rewrite Z.div_mul_cancel_r by lia. reflexivity.
Qed.

(** Truncating a double and rounding the integer again gives the integer. *)
Lemma round_binary64_trunc n d :
  0 <= n -> 0 < d ->
  let z := round_binary64 n d / 2 ^ 1074 in
  round_binary64 z 1 = z * 2 ^ 1074.
Proof.
  intros Hn Hd z. apply round_binary64_exact.
  - apply Z.div_pos; [apply round_binary64_nonneg; lia | lia].
  - apply trunc_fits53; [apply round_binary64_nonneg; lia|].
    apply round_binary64_fits53; lia.
Qed.

Lemma is_digit_range c : is_digit c = true <-> 48 <= c <= 57.
Proof. unfold is_digit. lia. Qed.

Lemma digits_val_snoc ds c : digits_val (ds ++ [c]) = digits_val ds * 10 + (c - 48).
Proof. unfold digits_val. rewrite fold_left_app. reflexivity. Qed.

Lemma fold_digits_nonneg ds : digit_string ds -> forall a, 0 <= a ->
  0 <= fold_left (fun acc c => acc * 10 + (c - 48)) ds a.
Proof.
  induction 1 as [|c ds Hc _ IH]; intros a Ha; simpl; [lia|].
  apply IH. apply is_digit_range in Hc. lia.
Qed.

Lemma digits_val_nonneg ds : digit_string ds -> 0 <= digits_val ds.
Proof. intros Hd. apply fold_digits_nonneg; [exact Hd | lia]. Qed.

Lemma digits_fuel_spec fuel : forall n acc,
  0 <= n < 2 ^ (Z.of_nat fuel + 1) ->
  exists ds, digits_fuel (S fuel) n acc = ds ++ acc /\ digit_string ds /\
             ds <> [] /\ digits_val ds = n.
Proof.
  induction fuel as [|fuel IH]; intros n acc Hn.
  - simpl in Hn. cbn [digits_fuel].
    destruct (Z.ltb_spec n 10); [|lia].
    exists [48 + n mod 10]. repeat split; try done.
    + constructor; [|constructor]. apply is_digit_range.
      pose proof (Z.mod_pos_bound n 10). lia.
    + unfold digits_val. simpl. rewrite Z.mod_small by lia. lia.
  - cbn [digits_fuel]. destruct (Z.ltb_spec n 10) as [Hlt|Hge].
    + exists [48 + n mod 10]. repeat split; try done.
      * constructor; [|constructor]. apply is_digit_range.
        pose proof (Z.mod_pos_bound n 10). lia.
      * unfold digits_val. simpl. rewrite Z.mod_small by lia. lia.
    + destruct (IH (n / 10) ((48 + n mod 10) :: acc)) as (ds & Heq & Hds & Hne & Hval).
      { split; [apply Z.div_pos; lia|].
        apply Z.div_lt_upper_bound; [lia|].
        replace (Z.of_nat (S fuel) + 1) with (Z.of_nat fuel + 1 + 1) in Hn by lia.
        rewrite (Z.pow_add_r _ _ 1) in Hn by lia.
        change (2 ^ 1) with 2 in Hn. lia. }
      exists (ds ++ [48 + n mod 10]). split; [|split; [|split]].
      * cbn [digits_fuel] in Heq. rewrite Heq, <- app_assoc. reflexivity.
      * apply Forall_app. split; [exact Hds|].
        constructor; [|constructor]. apply is_digit_range.
        pose proof (Z.mod_pos_bound n 10). lia.
      * intros Habs. apply app_eq_nil in Habs as [_ ?]. discriminate.
      * rewrite digits_val_snoc, Hval.
        pose proof (Z.div_mod n 10). lia.
Qed.

Lemma digits_of_spec n :
  0 <= n ->
  digit_string (digits_of n) /\ digits_of n <> [] /\ digits_val (digits_of n) = n.
Proof.
  intros Hn. unfold digits_of.
  destruct (digits_fuel_spec (Z.to_nat (Z.log2 n)) n []) as (ds & Heq & Hds & Hne & Hval).
  - split; [lia|]. rewrite Z2Nat.id by apply Z.log2_nonneg.
    destruct (Z.eq_dec n 0) as [->|Hn0]; [reflexivity|].
    replace (Z.log2 n + 1) with (Z.succ (Z.log2 n)) by lia.
    apply Z.log2_spec. lia.
  - rewrite app_nil_r in Heq. rewrite Heq. auto.
Qed.

(** *** Strings that the strippers leave alone *)

Lemma lstrip_by_head p c s : p c = false -> lstrip_by p (c :: s) = c :: s.
Proof. intros Hc. simpl. rewrite Hc. reflexivity. Qed.

Lemma strip_by_clean p s :
  Forall (fun c => p c = false) s -> strip_by p s = s.
Proof.
  intros Hs. unfold strip_by, rstrip_by.
  assert (Hl : forall t, Forall (fun c => p c = false) t -> lstrip_by p t = t).
  { intros [|c t] Ht; [reflexivity|]. inversion Ht; subst. apply lstrip_by_head; assumption. }
  rewrite (Hl s Hs), Hl, rev_involutive; [reflexivity|].
  apply Forall_rev. exact Hs.
Qed.

Lemma remove_char_clean c s : Forall (fun x => x ≠ c) s -> remove_char c s = s.
Proof.
  unfold remove_char. induction 1 as [|x s Hx _ IH]; [reflexivity|].
  rewrite filter_cons_True by exact Hx. f_equal. exact IH.
Qed.

Lemma contains_single_clean c s : Forall (fun x => x ≠ c) s -> contains [c] s = false.
Proof.
  induction 1 as [|x s Hx _ IH]; [reflexivity|].
  cbn [contains starts_with]. rewrite IH.
  rewrite bool_decide_eq_false_2 by congruence. reflexivity.
Qed.

Lemma span_digits_all ds : digit_string ds -> span_digits ds = (ds, []).
Proof.
  induction 1 as [|c ds Hc _ IH]; [reflexivity|].
  simpl. rewrite Hc, IH. reflexivity.
Qed.

Lemma span_digits_digits s : digit_string (span_digits s).1.
Proof.
  induction s as [|c s IH]; simpl; [constructor|].
  destruct (is_digit c) eqn:Hc; [|constructor].
  destruct (span_digits s) as [ds r]. simpl in *. constructor; assumption.
Qed.

Lemma py_str_int_signed n :
  py_str_int n = signed (n <? 0) (digits_of (Z.abs n)).
Proof.
  unfold py_str_int, signed. destruct (Z.ltb_spec n 0).
  - rewrite Z.abs_neq by lia. reflexivity.
  - rewrite Z.abs_eq by lia. reflexivity.
Qed.

Lemma signed_chars neg ds :
  digit_string ds -> Forall (fun c => c = 45 \/ 48 <= c <= 57) (signed neg ds).
Proof.
  intros Hds. assert (Forall (fun c => c = 45 \/ 48 <= c <= 57) ds).
  { eapply Forall_impl; [exact Hds|]. intros c Hc. right. apply is_digit_range, Hc. }
  destruct neg; simpl; [constructor; [left; reflexivity|]|]; assumption.
Qed.

Lemma read_decimal_digits ds :
  digit_string ds -> ds <> [] -> read_decimal ds = Some (digits_val ds, 0).
Proof.
  intros Hds Hne. unfold read_decimal. rewrite span_digits_all by exact Hds.
  destruct (decide (ds = [] ∧ [] = [])) as [[? _]|_]; [contradiction|].
  simpl. rewrite app_nil_r. reflexivity.
Qed.

Lemma float_of_ascii_signed neg ds :
  digit_string ds -> ds <> [] ->
  float_of_ascii (signed neg ds) = Ret (float_of_decimal neg (digits_val ds) 0).
Proof.
  intros Hds Hne. pose proof (signed_chars neg ds Hds) as Hch.
  unfold float_of_ascii.
  rewrite contains_single_clean
    by (eapply Forall_impl; [exact Hch|]; simpl; intros c Hc; lia).
  rewrite strip_by_clean
    by (eapply Forall_impl; [exact Hch|]; simpl; intros c Hc; unfold c_isspace; lia).
  assert (Hsign : read_sign (signed neg ds) = (neg, ds)).
  { destruct neg; [reflexivity|]. simpl. destruct ds as [|c ds']; [contradiction|].
    inversion Hds as [|? ? Hc _]; subst. apply is_digit_range in Hc. simpl.
    destruct (Z.eqb_spec c 45); [lia|]. destruct (Z.eqb_spec c 43); [lia|]. reflexivity. }
  rewrite Hsign. cbv zeta.
  destruct ds as [|c ds']; [contradiction|].
  inversion Hds as [|? ? Hc Hds']; subst.
  assert (Hlow : ascii_lower c = c).
  { apply is_digit_range in Hc. unfold ascii_lower.
    destruct (Z.leb_spec 65 c); [lia|]. reflexivity. }
  assert (Hw : forall w, match w with x :: _ => 58 <=? x | [] => true end = true ->
            bool_decide ((ascii_lower <$> c :: ds' : pystr) = w) = false).
  { intros w Hx. apply bool_decide_eq_false_2.
    rewrite fmap_cons, Hlow. intros <-. apply is_digit_range in Hc. lia. }
  rewrite !Hw by reflexivity. simpl.
  rewrite read_decimal_digits by assumption. reflexivity.
Qed.

Section ParseStr.
Context `{Runtime}.

Lemma to_ascii_number_ascii s : Forall (fun c => 0 <= c < 128) s -> to_ascii_number s = s.
Proof.
  intros Hs. unfold to_ascii_number.
  replace (forallb is_ascii s) with true; [reflexivity|].
  symmetry. apply forallb_forall. intros c Hc%list_elem_of_In.
  assert (0 <= c < 128) by exact (proj1 (Forall_forall _ _) Hs c Hc).
  unfold is_ascii. lia.
Qed.

Lemma parse_int_signed neg ds :
  digit_string ds -> ds <> [] ->
  parse_int (CStr (signed neg ds)) =
    let! n := py_int_of_float (float_of_decimal neg (digits_val ds) 0) in Ret (Some n).
Proof.
  intros Hds Hne. pose proof (signed_chars neg ds Hds) as Hch.
  unfold parse_int, strip.
  rewrite strip_by_clean
    by (eapply Forall_impl; [exact Hch|]; simpl; intros c Hc; unfold py_isspace; lia).
  assert (Hhd : exists c r, signed neg ds = c :: r /\ c < 58).
  { destruct neg; simpl; [do 2 eexists; split; [reflexivity|lia]|].
    destruct ds as [|c r]; [contradiction|]. inversion Hds as [|? ? Hc _]; subst.
    apply is_digit_range in Hc. do 2 eexists; split; [reflexivity|lia]. }
  destruct Hhd as (c & r & Heq & Hc).
  rewrite (bool_decide_eq_false_2 (signed neg ds = []))
    by (rewrite Heq; discriminate).
  rewrite (bool_decide_eq_false_2 (signed neg ds = em_dash))
    by (rewrite Heq; unfold em_dash; intros [= -> _]; lia).
  simpl orb. cbv iota.
  rewrite remove_char_clean
    by (eapply Forall_impl; [exact Hch|]; simpl; intros x Hx; lia).
  unfold py_float.
  rewrite to_ascii_number_ascii
    by (eapply Forall_impl; [exact Hch|]; simpl; intros x Hx; lia).
  rewrite float_of_ascii_signed by assumption.
  unfold float_of_decimal. simpl res_bind.
  destruct (2 ^ 2098 <=? _); reflexivity.
Qed.
End ParseStr.

Lemma read_sign_true t body : read_sign t = (true, body) -> t = 45 :: body.
Proof.
  destruct t as [|c t]; simpl; [discriminate|].
  destruct (Z.eqb_spec c 45); [intros [= ->]; congruence|].
  destruct (c =? 43); discriminate.
Qed.

Lemma lstrip_by_suffix p s : exists pre, s = pre ++ lstrip_by p s.
Proof.
  induction s as [|c s [pre IH]]; [exists []; reflexivity|].
  simpl. destruct (p c); [|exists []; reflexivity].
  exists (c :: pre). simpl. f_equal. exact IH.
Qed.

Lemma rstrip_by_prefix p s : exists post, s = rstrip_by p s ++ post.
Proof.
  unfold rstrip_by. destruct (lstrip_by_suffix p (rev s)) as [pre Hpre].
  exists (rev pre). rewrite <- rev_app_distr, <- Hpre, rev_involutive. reflexivity.
Qed.

Lemma lstrip_by_app p a b :
  lstrip_by p a <> [] -> lstrip_by p (a ++ b) = lstrip_by p a ++ b.
Proof.
  induction a as [|c a IH]; simpl; [contradiction|].
  destruct (p c); [exact IH | reflexivity].
Qed.

Lemma lstrip_by_rstrip_head p q s c r :
  lstrip_by q (rstrip_by p s) = c :: r -> exists r', lstrip_by q s = c :: r'.
Proof.
  intros Hs. destruct (rstrip_by_prefix p s) as [post Hpost].
  exists (r ++ post). rewrite Hpost.
  rewrite lstrip_by_app by (rewrite Hs; discriminate).
  rewrite Hs. reflexivity.
Qed.

Lemma lstrip_by_weaken (p q : Z -> bool) s c r :
  (forall x, p x = true -> q x = true) -> q c = false ->
  lstrip_by p s = c :: r -> lstrip_by q s = c :: r.
Proof.
  intros Hpq Hc. induction s as [|x s IH]; simpl; [discriminate|].
  destruct (p x) eqn:Hx; [rewrite (Hpq x Hx); exact IH|].
  intros [= -> ->]. rewrite Hc. reflexivity.
Qed.

Lemma lstrip_by_lstrip (p q : Z -> bool) s :
  (forall x, p x = true -> q x = true) ->
  lstrip_by q (lstrip_by p s) = lstrip_by q s.
Proof.
  intros Hpq. induction s as [|x s IH]; simpl; [reflexivity|].
  destruct (p x) eqn:Hx; [rewrite (Hpq x Hx); exact IH | reflexivity].
Qed.

Lemma strip_underscores_head prev a s1 r :
  strip_underscores prev a = Some s1 -> prev <> 95 ->
  lstrip_by c_isspace s1 = 45 :: r ->
  exists r', lstrip_by c_isspace a = 45 :: r'.
Proof.
  revert prev s1. induction a as [|c a IH]; intros prev s1; simpl.
  - destruct (prev =? 95); [discriminate|]. intros [= <-]. discriminate.
  - destruct (Z.eqb_spec c 95) as [->|Hc].
    + destruct (is_digit prev); [|discriminate]. intros Hs1 _ Hhead. exfalso.
      destruct a as [|c' a']; simpl in Hs1; [discriminate|].
      destruct (Z.eqb_spec c' 95) as [->|Hc']; [discriminate|].
      simpl in Hs1. destruct (is_digit c') eqn:Hd; simpl in Hs1; [|discriminate].
      destruct (strip_underscores c' a') as [s1'|]; [|discriminate].
      injection Hs1 as <-. apply is_digit_range in Hd.
      simpl in Hhead. unfold c_isspace in Hhead.
      destruct ((c' =? 32) || (9 <=? c') && (c' <=? 13)) eqn:Hsp; [lia|].
      injection Hhead as -> _. lia.
    + destruct (Z.eqb_spec prev 95); [contradiction|]. simpl.
      destruct (strip_underscores c a) as [s1'|] eqn:Hrec; [|discriminate].
      intros [= <-] _. simpl. destruct (c_isspace c) eqn:Hsp.
      * apply (IH c s1' Hrec Hc).
      * intros [= -> _]. eexists. reflexivity.
Qed.

Section Sign.
Context `{Runtime}.

Lemma transform_head t r :
  lstrip_by c_isspace (transform_decimal_and_space t) = 45 :: r ->
  exists r', lstrip_by py_isspace t = 45 :: r'.
Proof.
  induction t as [|c t IH]; simpl; [discriminate|].
  destruct (Z.ltb_spec c 127) as [Hlt|Hge]; simpl.
  - destruct (c_isspace c) eqn:Hsp.
    + replace (py_isspace c) with true by (unfold c_isspace, py_isspace in *; lia).
      exact IH.
    + intros [= -> _]. simpl. eexists. reflexivity.
  - destruct (py_isspace c); simpl; [exact IH|].
    destruct (unicode_decimal c) as [d|]; simpl.
    + replace (c_isspace (48 + digit_val d)) with false
        by (destruct d; reflexivity).
      intros [= Hd _]. destruct d; discriminate.
    + discriminate.
Qed.

Lemma to_ascii_number_head t r :
  lstrip_by c_isspace (to_ascii_number t) = 45 :: r ->
  exists r', lstrip_by py_isspace t = 45 :: r'.
Proof.
  unfold to_ascii_number. destruct (forallb is_ascii t).
  - intros Ht. exists r. revert Ht. apply lstrip_by_weaken; [|reflexivity].
    intros x Hx. unfold c_isspace, py_isspace in *. lia.
  - apply transform_head.
Qed.
End Sign.

Lemma remove_comma_head s r :
  lstrip_by py_isspace (remove_char 44 s) = 45 :: r ->
  exists r', lstrip_by (fun c => py_isspace c || (c =? 44)) s = 45 :: r'.
Proof.
  unfold remove_char. induction s as [|x s IH]; simpl; [discriminate|].
  destruct (Z.eqb_spec x 44) as [->|Hx].
  - rewrite filter_cons_False by (intros ?; congruence). rewrite orb_true_r. exact IH.
  - rewrite filter_cons_True by exact Hx. simpl. rewrite orb_false_r.
    destruct (py_isspace x); [exact IH|]. intros [= -> _]. eexists. reflexivity.
Qed.

Lemma leading_minus_intro s r :
  lstrip_by py_isspace (remove_char 44 (strip s)) = 45 :: r -> leading_minus s = true.
Proof.
  intros [r' Hr']%remove_comma_head. unfold strip, strip_by in Hr'.
  apply lstrip_by_rstrip_head in Hr' as [r'' Hr''].
  rewrite lstrip_by_lstrip in Hr'' by (intros x ->; reflexivity).
  unfold leading_minus. rewrite Hr''. reflexivity.
Qed.

Lemma read_decimal_nonneg body m x : read_decimal body = Some (m, x) -> 0 <= m.
Proof.
  unfold read_decimal. pose proof (span_digits_digits body) as Hip.
  destruct (span_digits body) as [ip r]. simpl in Hip.
  assert (Hfin : forall fp r' : list Z,
    digit_string fp ->
    (if decide (ip = [] ∧ fp = []) then @None (Z * Z)
     else x0 ← read_exponent r'; Some (digits_val (ip ++ fp), x0 - Z.of_nat (length fp)))
      = Some (m, x) -> 0 <= m).
  { intros fp r' Hfp. destruct (decide _); [discriminate|].
    destruct (read_exponent r'); simpl; [|discriminate].
    intros [= <- _]. apply digits_val_nonneg, Forall_app. split; assumption. }
  destruct r as [|c r1]; [apply Hfin; constructor|].
  destruct (c =? 46); [|apply Hfin; constructor].
  pose proof (span_digits_digits r1) as Hfp.
  destruct (span_digits r1) as [fp r']. apply Hfin, Hfp.
Qed.

Lemma float_of_decimal_finite neg m x neg' u :
  0 <= m -> float_of_decimal neg m x = Finite neg' u ->
  neg' = neg /\ u < 2 ^ 2098 /\
  exists n d, 0 <= n /\ 0 < d /\ u = round_binary64 n d.
Proof.
  intros Hm. unfold float_of_decimal.
  set (u0 := if 0 <=? x then _ else _).
  destruct (Z.leb_spec (2 ^ 2098) u0) as [|Hlt]; [discriminate|].
  intros [= <- <-]. split; [reflexivity|]. split; [exact Hlt|].
  subst u0. destruct (Z.leb_spec 0 x).
  - exists (m * 10 ^ x), 1. split; [|split; [lia | reflexivity]].
    apply Z.mul_nonneg_nonneg; [lia | apply Z.pow_nonneg; lia].
  - exists m, (10 ^ (- x)). split; [lia|]. split; [|reflexivity].
    apply Z.pow_pos_nonneg; lia.
Qed.

Section Inversion.
Context `{Runtime}.

(** What a returned integer comes from: a sign, a double [u] that is the
    rounding of a non-negative rational, and its truncation. *)
Lemma parse_int_inv s n :
  parse_int (CStr s) = Ret (Some n) ->
  exists (neg : bool) (u : Z),
    n = (if neg then - (u / 2 ^ 1074) else u / 2 ^ 1074) /\
    u < 2 ^ 2098 /\
    (exists a d, 0 <= a /\ 0 < d /\ u = round_binary64 a d) /\
    (neg = true -> leading_minus s = true).
Proof.
  unfold parse_int.
  destruct (bool_decide _ || bool_decide _); [discriminate|].
  unfold py_float, float_of_ascii.
  set (a := to_ascii_number _).
  destruct (if contains [95] a then strip_underscores 0 a else Some a)
    as [s1|] eqn:Hs1; [|discriminate].
  destruct (read_sign (strip_by c_isspace s1)) as [neg body] eqn:Hsign.
  cbv zeta.
  destruct (bool_decide _ || bool_decide _); [discriminate|].
  destruct (bool_decide _); [discriminate|].
  destruct (read_decimal body) as [[m x]|] eqn:Hdec; [|discriminate].
  simpl res_bind.
  destruct (float_of_decimal neg m x) as [neg' u| |] eqn:Hf; simpl; try discriminate.
  apply float_of_decimal_finite in Hf as (-> & Hu & Hex);
    [|eapply read_decimal_nonneg; exact Hdec].
  intros [= <-]. exists neg, u. repeat split; try assumption.
  intros ->. apply read_sign_true in Hsign.
  unfold strip_by in Hsign.
  assert (Hl : lstrip_by c_isspace (rstrip_by c_isspace (lstrip_by c_isspace s1))
               = 45 :: body) by (rewrite Hsign; reflexivity).
  apply lstrip_by_rstrip_head in Hl as [r1 Hr1].
  rewrite lstrip_by_lstrip in Hr1 by auto.
  assert (exists r2, lstrip_by c_isspace a = 45 :: r2) as [r2 Hr2].
  { destruct (contains [95] a).
    - eapply strip_underscores_head; [exact Hs1 | lia | exact Hr1].
    - injection Hs1 as <-. eexists. exact Hr1. }
  subst a. apply to_ascii_number_head in Hr2 as [r3 Hr3].
  eapply leading_minus_intro. exact Hr3.
Qed.
End Inversion.

Lemma lstrip_by_idem p s : lstrip_by p (lstrip_by p s) = lstrip_by p s.
Proof.
  induction s as [|c s IH]; simpl; [reflexivity|].
  destruct (p c) eqn:Hc; [exact IH|]. simpl. rewrite Hc. reflexivity.
Qed.

Lemma lstrip_by_head_false p s c r : lstrip_by p s = c :: r -> p c = false.
Proof.
  induction s as [|x s IH]; simpl; [discriminate|].
  destruct (p x) eqn:Hx; [exact IH|]. intros [= <- _]. exact Hx.
Qed.

Lemma rstrip_by_idem p s : rstrip_by p (rstrip_by p s) = rstrip_by p s.
Proof. unfold rstrip_by. rewrite rev_involutive, lstrip_by_idem. reflexivity. Qed.

(** Stripping a stripped string changes nothing. *)
Lemma strip_by_idem p s : strip_by p (strip_by p s) = strip_by p s.
Proof.
  unfold strip_by. set (x := lstrip_by p s).
  assert (Hl : lstrip_by p (rstrip_by p x) = rstrip_by p x).
  { destruct (rstrip_by p x) as [|c r] eqn:Hy; [reflexivity|].
    destruct (rstrip_by_prefix p x) as [post Hpost]. rewrite Hy in Hpost.
    assert (Hc : p c = false).
    { apply (lstrip_by_head_false p s c (r ++ post)). fold x. exact Hpost. }
    simpl. rewrite Hc. reflexivity. }
  rewrite Hl. apply rstrip_by_idem.
Qed.

Lemma strip_idem s : strip (strip s) = strip s.
Proof. apply strip_by_idem. Qed.

Lemma strip_nil : strip [] = [].
Proof. reflexivity. Qed.

Section NumericClaims.
Context `{Runtime}.

Lemma trunc_nonneg a d : 0 <= a -> 0 < d -> 0 <= round_binary64 a d / 2 ^ 1074.
Proof.
  intros Ha Hd. apply Z.div_pos; [apply round_binary64_nonneg; assumption | lia].
Qed.

(** C1, as amended.  Whenever [parse_int] returns on a string, the result
    is [None] or an integer, and the integer is non-negative unless the
    first character of the string other than whitespace and commas is a
    minus sign. *)
Theorem parse_int_nonneg_unless_minus (s : pystr) (r : option Z) :
  parse_int (CStr s) = Ret r ->
  r = None \/ exists n, r = Some n /\ (leading_minus s = false -> 0 <= n).
Proof.
  intros Hr. destruct r as [n|]; [right | left; reflexivity].
  exists n. split; [reflexivity|]. intros Hlm.
  destruct (parse_int_inv s n Hr) as (neg & u & -> & _ & (a & d & Ha & Hd & ->) & Hneg).
  destruct neg.
  - rewrite Hneg in Hlm by reflexivity. discriminate.
  - apply trunc_nonneg; assumption.
Qed.

(** C9.  Re-parsing the decimal text [str(n)] of an integer that
    [parse_int] returned gives the same integer. *)
Theorem parse_int_str_idempotent (s : pystr) (n : Z) :
  parse_int (CStr s) = Ret (Some n) ->
  parse_int (CStr (py_str_int n)) = Ret (Some n).
Proof.
  intros Hr.
  destruct (parse_int_inv s n Hr) as (neg & u & Hn & Hu & (a & d & Ha & Hd & ->) & _).
  pose proof (trunc_nonneg a d Ha Hd) as Hz.
  pose proof (round_binary64_trunc a d Ha Hd) as Hround. cbv zeta in Hround.
  set (z := round_binary64 a d / 2 ^ 1074) in *.
  assert (Habs : Z.abs n = z) by (destruct neg; lia).
  assert (Hsgn : (if n <? 0 then - z else z) = n)
    by (destruct (Z.ltb_spec n 0); destruct neg; lia).
  rewrite py_str_int_signed, Habs.
  destruct (digits_of_spec z Hz) as (Hds & Hne & Hval).
  rewrite parse_int_signed by assumption. rewrite Hval.
  unfold float_of_decimal.
  change (0 <=? 0) with true. cbv iota.
  change (10 ^ 0) with 1. rewrite Z.mul_1_r, Hround.
  assert (Hle : z * 2 ^ 1074 <= round_binary64 a d).
  { subst z. rewrite Z.mul_comm. apply Z.mul_div_le. lia. }
  destruct (Z.leb_spec (2 ^ 2098) (z * 2 ^ 1074)) as [Hov|_]; [lia|].
  unfold py_int_of_float, res_bind.
  rewrite Z.div_mul by lia. rewrite Hsgn. reflexivity.
Qed.

(** C7, at the failing input.  The text [inf] is read by [float] as
    infinity, on which [int] raises [OverflowError]; [parse_int] catches
    [ValueError] only, so the exception leaves it. *)
Theorem parse_int_inf_raises :
  parse_int (CStr (str "inf")) = Raise OverflowError.
Proof. reflexivity. Qed.

(** The one exception [parse_int] lets through is [OverflowError]. *)
Lemma parse_int_raise_overflow (c : cell) (e : exn) :
  parse_int c = Raise e -> e = OverflowError.
Proof.
  destruct c as [|n|s]; simpl; try discriminate.
  destruct (_ || _); [discriminate|].
  destruct (py_float _) as [[neg u|neg|]|[]]; simpl; try discriminate;
    intros [= <-]; reflexivity.
Qed.
End NumericClaims.

Lemma parse_int_nonneg_unless_minus_witness :
  leading_minus (str " 1,234.9") = false /\ 
  (Some 1234 = None \/ exists n, Some 1234 = Some n /\ (leading_minus (str " 1,234.9") = false -> 0 <= n)).
Proof.
  split; [reflexivity|].
  apply (@parse_int_nonneg_unless_minus bare_runtime (str " 1,234.9") (Some 1234)).
  vm_compute. reflexivity.
Defined.

Lemma parse_int_str_idempotent_witness :
  @parse_int bare_runtime (CStr (str "-1,234.9")) = Ret (Some (-1234)) /\
  @parse_int bare_runtime (CStr (py_str_int (-1234))) = Ret (Some (-1234)).
Proof.
  split; [vm_compute; reflexivity|].
  apply (@parse_int_str_idempotent bare_runtime (str "-1,234.9") (-1234)).
  vm_compute. reflexivity.
Defined.

(** The parts of C7 that hold: commas go, the empty string and the
    em-dash are no value, a decimal point is read, and other text is no
    value. *)
Lemma parse_int_examples :
  @parse_int bare_runtime (CStr (str "1,234")) = Ret (Some 1234) /\
  @parse_int bare_runtime (CStr (str "12.7")) = Ret (Some 12) /\
  @parse_int bare_runtime (CStr (str "")) = Ret None /\
  @parse_int bare_runtime (CStr em_dash) = Ret None /\
  @parse_int bare_runtime (CStr (str "n/a")) = Ret None /\
  @parse_int bare_runtime (CStr (str "1e400")) = Raise OverflowError.
Proof. repeat split; vm_compute; reflexivity. Qed.

(** *** The map of records *)

Lemma store_get_set_eq k v s : store_get k (store_set k v s) = Some v.
Proof.
  induction s as [|[k' v'] s IH]; simpl.
  - rewrite bool_decide_eq_true_2 by reflexivity. reflexivity.
  - destruct (bool_decide (k' = k)) eqn:Hk; simpl; rewrite Hk; [reflexivity | exact IH].
Qed.

Lemma store_get_set_ne k k' v s : k' ≠ k -> store_get k' (store_set k v s) = store_get k' s.
Proof.
  intros Hne. induction s as [|[k0 v0] s IH]; simpl.
  - rewrite bool_decide_eq_false_2 by congruence. reflexivity.
  - destruct (bool_decide (k0 = k)) eqn:Hk; simpl.
    + apply bool_decide_eq_true_1 in Hk. subst k0.
      rewrite !bool_decide_eq_false_2 by congruence. reflexivity.
    + destruct (bool_decide (k0 = k')); [reflexivity | exact IH].
Qed.

Lemma store_get_Some k v s : store_get k s = Some v -> (k, v) ∈ s.
Proof.
  induction s as [|[k' v'] s IH]; simpl; [discriminate|].
  destruct (bool_decide (k' = k)) eqn:Hk.
  - apply bool_decide_eq_true_1 in Hk. intros [= ->]. subst. left.
  - intros Hv. right. apply IH, Hv.
Qed.

Lemma store_get_None k s : store_get k s = None <-> k ∉ s.*1.
Proof.
  induction s as [|[k' v'] s IH]; simpl.
  - split; [intros _; apply not_elem_of_nil | reflexivity].
  - rewrite not_elem_of_cons. destruct (bool_decide (k' = k)) eqn:Hk.
    + apply bool_decide_eq_true_1 in Hk. split; [discriminate | intros [? _]; congruence].
    + apply bool_decide_eq_false_1 in Hk. rewrite IH. split; [intros ?; split; [congruence | assumption] | intros [_ ?]; assumption].
Qed.

Lemma store_get_NoDup k v s : NoDup s.*1 -> (k, v) ∈ s -> store_get k s = Some v.
Proof.
  induction s as [|[k' v'] s IH]; simpl; intros Hnd Hin.
  - apply elem_of_nil in Hin. contradiction.
  - apply NoDup_cons in Hnd as [Hk' Hnd]. apply elem_of_cons in Hin as [[= -> ->]|Hin].
    + rewrite bool_decide_eq_true_2 by reflexivity. reflexivity.
    + rewrite bool_decide_eq_false_2; [apply IH; assumption|].
      intros ->. apply Hk'. apply (list_elem_of_fmap_2 fst) in Hin. exact Hin.
Qed.

(** Writing to a key that is there keeps the keys and their order. *)
Lemma store_set_keys_in k v s : k ∈ s.*1 -> (store_set k v s).*1 = s.*1.
Proof.
  induction s as [|[k' v'] s IH]; simpl; intros Hin.
  - apply elem_of_nil in Hin. contradiction.
  - destruct (bool_decide (k' = k)) eqn:Hk; simpl; [reflexivity|].
    apply bool_decide_eq_false_1 in Hk. f_equal. apply IH.
    apply elem_of_cons in Hin as [->|Hin]; [contradiction | exact Hin].
Qed.

(** Writing to a new key appends it. *)
Lemma store_set_keys_new k v s : k ∉ s.*1 -> (store_set k v s).*1 = s.*1 ++ [k].
Proof.
  induction s as [|[k' v'] s IH]; simpl; intros Hin; [reflexivity|].
  apply not_elem_of_cons in Hin as [Hne Hin].
  rewrite bool_decide_eq_false_2 by congruence. simpl. f_equal. apply IH, Hin.
Qed.

Lemma store_set_NoDup k v s : NoDup s.*1 -> NoDup (store_set k v s).*1.
Proof.
  intros Hnd. destruct (decide (k ∈ s.*1)) as [Hin|Hout].
  - rewrite store_set_keys_in by exact Hin. exact Hnd.
  - rewrite store_set_keys_new by exact Hout.
    apply NoDup_app. split; [exact Hnd|]. split; [|apply NoDup_singleton].
    intros x Hx Hx'. apply list_elem_of_singleton in Hx'. subst. contradiction.
Qed.

Lemma store_set_keys_elem k k' v s : k' ∈ (store_set k v s).*1 <-> k' = k \/ k' ∈ s.*1.
Proof.
  destruct (decide (k ∈ s.*1)) as [Hin|Hout].
  - rewrite store_set_keys_in by exact Hin. split; [auto | intros [->|?]; assumption].
  - rewrite store_set_keys_new by exact Hout. rewrite elem_of_app, list_elem_of_singleton. tauto.
Qed.

Section MergeFacts.
Context `{Runtime}.

(** The main loop never drops a key, and never stores one twice. *)
Lemma merge_item_keys it s k :
  k ∈ (merge_item it s).*1 <-> k = dedup_key it \/ k ∈ s.*1.
Proof.
  unfold merge_item. destruct (store_get (dedup_key it) s) as [prev|] eqn:Hget.
  - assert (Hin : dedup_key it ∈ s.*1).
    { destruct (decide (dedup_key it ∈ s.*1)) as [?|Hn]; [assumption|].
      apply store_get_None in Hn. congruence. }
    assert (Hs : k ∈ s.*1 <-> k = dedup_key it \/ k ∈ s.*1)
      by (split; [auto | intros [->|?]; assumption]).
    repeat match goal with |- context [if ?b then _ else _] => destruct b end;
      rewrite ?store_set_keys_elem; tauto.
  - apply store_set_keys_elem.
Qed.

Lemma merge_item_NoDup it s : NoDup s.*1 -> NoDup (merge_item it s).*1.
Proof.
  intros Hnd. unfold merge_item. destruct (store_get _ s); [|apply store_set_NoDup, Hnd].
  repeat match goal with |- context [if ?b then _ else _] => destruct b end;
    try apply store_set_NoDup; exact Hnd.
Qed.
End MergeFacts.

Lemma isoformat_nonempty d : isoformat d ≠ [].
Proof. unfold isoformat. intros Heq. apply app_eq_nil in Heq as [_ Heq]. discriminate. Qed.

Lemma month_key_nonempty d : month_key d ≠ [].
Proof. unfold month_key. intros Heq. apply app_eq_nil in Heq as [_ Heq]. discriminate. Qed.

Lemma or_str_nonempty a b : a ≠ [] -> or_str a b = a.
Proof. intros Ha. unfold or_str. rewrite bool_decide_eq_false_2 by exact Ha. reflexivity. Qed.

Lemma or_str_empty b : or_str [] b = b.
Proof. reflexivity. Qed.

Lemma date_priority_nonneg src : 0 <= date_priority src.
Proof.
  unfold date_priority, DATE_PRIORITY. cbn [dict_get].
  repeat match goal with |- context [bool_decide ?P] => destruct (bool_decide P) end;
    cbn; lia.
Qed.

Section RowFacts.
Context `{Runtime} `{World}.

(** A row without a date is of tier unknown, and only such a row. *)
Lemma resolve_date_tier channel link date_raw report_month_raw ls d src ls' :
  resolve_date channel link date_raw report_month_raw ls = Ret (d, src, ls') ->
  match d with
  | None => src = str "unknown"
  | Some _ => 0 < date_priority src
  end.
Proof.
  unfold resolve_date.
  destruct (parse_human_date date_raw) as [[d0|]|e]; cbn [res_bind]; [| |discriminate].
  - intros [= <- <- _]. reflexivity.
  - destruct (bool_decide _ && negb _).
    + destruct (youtube_publish_date link ls) as [[yd|] ls1].
      * intros [= <- <- _]. reflexivity.
      * destruct (parse_report_month report_month_raw) as [[rm|]|e];
          cbn [res_bind]; [| |discriminate]; intros [= <- <- _]; reflexivity.
    + destruct (parse_report_month report_month_raw) as [[rm|]|e];
        cbn [res_bind]; [| |discriminate]; intros [= <- <- _]; reflexivity.
Qed.

(** The fields of a record that do not come from the metric columns. *)
Lemma build_item_inv r ls it ls' :
  build_item r ls = Ret (it, ls') ->
  exists d,
    resolve_date (strip (or_empty (r_channel r))) (strip (or_empty (r_link r)))
                 (strip (or_empty (r_date r))) (strip (or_empty (r_report_month r))) ls
      = Ret (d, date_source it, ls') /\
    channel it = strip (or_empty (r_channel r)) /\
    dtype it = strip (or_empty (r_data_type r)) /\
    title it = strip (or_empty (r_title r)) /\
    link it = strip (or_empty (r_link r)) /\
    date_raw it = strip (or_empty (r_date r)) /\
    date_iso it = match d with Some d => isoformat d | None => [] end /\
    month it = match d with Some d => month_key d | None => str "_nodate" end.
Proof.
  unfold build_item.
  destruct (resolve_date _ _ _ _ ls) as [[[d src] ls1]|e]; cbn [res_bind]; [|discriminate].
  repeat match goal with
         | |- context [parse_int ?c] =>
             destruct (parse_int c) as [?|?]; cbn [res_bind]; try discriminate
         end;
  repeat match goal with
         | |- context [if ?b then _ else _] => destruct b; cbn [res_bind]
         | |- context [match ?x with Some _ => _ | None => _ end] => destruct x; cbn [res_bind]
         end;
  try discriminate; intros [= <- <-]; eexists; repeat split; reflexivity.
Qed.

(** A record of a known tier has a date and a month. *)
Lemma build_item_dated r ls it ls' :
  build_item r ls = Ret (it, ls') ->
  0 < date_priority (date_source it) ->
  date_iso it ≠ [] /\ month it ≠ [].
Proof.
  intros (d & Hres & _ & _ & _ & _ & _ & Hiso & Hmonth)%build_item_inv Hprio.
  apply resolve_date_tier in Hres. destruct d as [d|].
  - rewrite Hiso, Hmonth. split; [apply isoformat_nonempty | apply month_key_nonempty].
  - rewrite Hres in Hprio. vm_compute in Hprio. discriminate.
Qed.
End RowFacts.

Section MergeClaims.
Context `{Runtime} `{World}.

(** C2, as amended.  A new record of a strictly higher tier meets a stored
    record under its key.  If the stored impressions exceed ten times the
    new ones and exceed 100, the stored record stays, with its metrics,
    and takes the new record's ISO date, month and tier, and the new
    record's date text when that text is not empty (its own date text
    stays otherwise).  If not, the new record replaces the stored one. *)
Theorem merge_higher_tier (r : row) (ls ls' : lookup_state) (new prev : item)
    (s : list (key * item)) :
  build_item r ls = Ret (new, ls') ->
  store_get (dedup_key new) s = Some prev ->
  date_priority (date_source prev) < date_priority (date_source new) ->
  store_get (dedup_key new) (merge_item new s) =
    Some (if (or_zero (impressions new) * 10 <? or_zero (impressions prev))
             && (100 <? or_zero (impressions prev))
          then {| channel := channel prev; dtype := dtype prev;
                  title := title prev; link := link prev;
                  date_raw := if bool_decide (date_raw new = [])
                              then date_raw prev else date_raw new;
                  date_iso := date_iso new;
                  month := month new;
                  date_source := date_source new;
                  impressions := impressions prev; views := views prev;
                  engagements := engagements prev; clicks := clicks prev;
                  attendees := attendees prev; chat_count := chat_count prev;
                  email_sends := email_sends prev;
                  article_views := article_views prev;
                  interactions := interactions prev;
                  report_month := report_month prev |}
          else new).
Proof.
  intros Hbuild Hget Hprio.
  pose proof (date_priority_nonneg (date_source prev)) as Hp0.
  destruct (build_item_dated r ls new ls' Hbuild) as [Hiso Hmonth]; [lia|].
  unfold merge_item. rewrite Hget. cbv zeta.
  destruct (Z.ltb_spec (date_priority (date_source prev))
                       (date_priority (date_source new))) as [_|?]; [|lia].
  destruct (_ && _); rewrite store_get_set_eq; [|reflexivity].
  unfold graft_date. rewrite (or_str_nonempty (date_iso new)) by exact Hiso.
  rewrite (or_str_nonempty (month new)) by exact Hmonth. reflexivity.
Qed.

(** C5, at the failing input.  A row whose period label names a month and
    the year 0: [parse_report_month] builds the date outside any [try],
    so the [ValueError] of [dt.date] leaves the resolver and ends the run. *)
Theorem resolve_date_year_zero (st : lookup_state * list (key * item)) :
  parse_report_month (str "January 0") = Raise ValueError /\
  resolve_date (str "LinkedIn") [] [] (str "January 0") st.1 = Raise ValueError /\
  process_rows [row_year_zero] st = Raise ValueError.
Proof. repeat split; reflexivity. Qed.

(** Where the parsers return, the resolver follows the precedence:
    the provided date, then the confirmed one, then the period, then
    nothing. *)
Lemma resolve_date_precedence channel link date_raw report_month_raw ls :
  match parse_human_date date_raw with
  | Raise e => resolve_date channel link date_raw report_month_raw ls = Raise e
  | Ret (Some d) =>
      resolve_date channel link date_raw report_month_raw ls
      = Ret (Some d, str "provided", ls)
  | Ret None =>
      let confirmed :=
        if bool_decide (py_lower channel = str "youtube") && negb (bool_decide (link = []))
        then youtube_publish_date link ls else (None, ls) in
      match confirmed.1 with
      | Some yd =>
          resolve_date channel link date_raw report_month_raw ls
          = Ret (Some yd, str "youtube_publish", confirmed.2)
      | None =>
          match parse_report_month report_month_raw with
          | Raise e => resolve_date channel link date_raw report_month_raw ls = Raise e
          | Ret (Some rm) =>
              resolve_date channel link date_raw report_month_raw ls
              = Ret (Some rm, str "inferred_report_month", confirmed.2)
          | Ret None =>
              resolve_date channel link date_raw report_month_raw ls
              = Ret (None, str "unknown", confirmed.2)
          end
      end
  end.
Proof.
  unfold resolve_date.
  destruct (parse_human_date date_raw) as [[d|]|e]; cbn [res_bind]; try reflexivity.
  destruct (bool_decide _ && negb _); cbn [fst snd].
  - destruct (youtube_publish_date link ls) as [[yd|] ls1]; cbn [fst snd]; [reflexivity|].
    destruct (parse_report_month report_month_raw) as [[rm|]|e]; reflexivity.
  - destruct (parse_report_month report_month_raw) as [[rm|]|e]; reflexivity.
Qed.

(** The first day of the month is what a period label gives. *)
Lemma parse_report_month_first_day s d :
  parse_report_month s = Ret (Some d) -> d_day d = 1.
Proof.
  unfold parse_report_month. destruct (bool_decide (s = [])); [discriminate|].
  destruct (split_ws (strip s)) as [|p0 [|p1 [|]]]; try discriminate.
  destruct (py_int p1) as [y|]; [|discriminate].
  destruct (dict_get _ MONTHS_MAP) as [m|]; [|discriminate].
  unfold mk_date. repeat (destruct (_ : bool); cbn [res_bind]; try discriminate).
  intros [= <-]. reflexivity.
Qed.
End MergeClaims.

Section LookupClaims.
Context `{Runtime}.

(** An empty cache entry is no date, so the lookup goes on to fetch. *)
Lemma youtube_publish_date_refetch `{World} url norm st :
  normalize_youtube_url url = Some norm ->
  cache st !! norm = Some [] ->
  fetched (youtube_publish_date url st).2 = fetched st ++ [norm].
Proof.
  intros Hnorm Hc. unfold youtube_publish_date. rewrite Hnorm, Hc. simpl.
  destruct (scrape_publish_date _ norm); [reflexivity|].
  destruct (ytdlp_upload_date _ norm); reflexivity.
Qed.

(** C8, at the failing input.  Two rows name the same video and no date is
    found for it: the first lookup fetches and stores the empty string,
    and the second lookup, with that entry in the cache, fetches again. *)
Theorem lookup_fetches_twice :
  let first := @youtube_publish_date _ silent_world (str "https://youtu.be/abcdef")
                 (LookupState ∅ []) in
  let second := @youtube_publish_date _ silent_world (str "https://youtu.be/abcdef")
                  first.2 in
  cache first.2 !! video_url = Some [] /\
  fetched first.2 = [video_url] /\
  fetched second.2 = [video_url; video_url] /\
  exists ls s,
    @process_rows _ silent_world [row_video; row_video] initial_state = Ret (ls, s) /\
    fetched ls = [video_url; video_url].
Proof.
  cbv zeta. split; [|split; [|split]]; try (vm_compute; reflexivity).
  eexists _, _. split; vm_compute; reflexivity.
Qed.
End LookupClaims.

(** C2, as stated, fails on the date text: the relisted row has none, and
    the stored record keeps its own. *)
Lemma merge_keeps_stored_date_text :
  exists prev new ls s,
    @build_item bare_runtime silent_world row_stored initial_state.1 = Ret (prev, ls) /\
    @build_item bare_runtime silent_world row_relisted ls = Ret (new, ls) /\
    @process_rows bare_runtime silent_world [row_stored; row_relisted] initial_state
      = Ret (ls, s) /\
    @dedup_key bare_runtime prev = @dedup_key bare_runtime new /\
    date_priority (date_source prev) < date_priority (date_source new) /\
    or_zero (impressions new) * 10 < or_zero (impressions prev) /\
    100 < or_zero (impressions prev) /\
    exists merged,
      s = [(@dedup_key bare_runtime new, merged)] /\
      impressions merged = impressions prev /\
      date_iso merged = date_iso new /\
      date_raw new = [] /\
      date_raw merged = str "TBD" /\
      date_raw merged ≠ date_raw new.
Proof.
  eexists _, _, _, _. split; [vm_compute; reflexivity|].
  split; [vm_compute; reflexivity|]. split; [vm_compute; reflexivity|].
  split; [vm_compute; reflexivity|]. split; [vm_compute; reflexivity|].
  split; [vm_compute; reflexivity|]. split; [vm_compute; reflexivity|].
  eexists. split; [vm_compute; reflexivity|].
  repeat split; try (vm_compute; reflexivity). vm_compute. discriminate.
Qed.

Lemma merge_higher_tier_witness :
  exists new prev ls,
    store_get (@dedup_key bare_runtime new)
              (@merge_item bare_runtime new [(@dedup_key bare_runtime new, prev)]) =
      Some (dated_item (str "Podcast") (str "Episode") (str "Ep 1") [] (str "TBD")
              (str "2025-04-01") (str "2025-04") (str "inferred_report_month")
              (Some 5000)) /\
    @build_item bare_runtime silent_world row_stored initial_state.1 = Ret (prev, ls).
Proof.
  eexists _, _, _. split; [|vm_compute; reflexivity].
  etransitivity.
  - eapply (@merge_higher_tier bare_runtime silent_world row_relisted (LookupState ∅ [])).
    + vm_compute. reflexivity.
    + vm_compute. reflexivity.
    + vm_compute. reflexivity.
  - vm_compute. reflexivity.
Defined.

Lemma store_get_elem k v s : store_get k s = Some v -> k ∈ s.*1.
Proof.
  intros Hget. destruct (decide (k ∈ s.*1)) as [?|Hn]; [assumption|].
  apply store_get_None in Hn. congruence.
Qed.

Lemma store_get_filter (R : gset key) k s :
  store_get k (filter (fun p => p.1 ∉ R) s) = if decide (k ∈ R) then None else store_get k s.
Proof.
  induction s as [|[k' v] s IH]; simpl; [destruct (decide _); reflexivity|].
  destruct (decide (k' ∈ R)) as [Hin|Hout].
  - rewrite filter_cons_False by (simpl; intros Hn; apply Hn, Hin).
    rewrite IH. destruct (decide (k ∈ R)); [reflexivity|].
    rewrite bool_decide_eq_false_2 by (intros ->; contradiction). reflexivity.
  - rewrite filter_cons_True by exact Hout. simpl.
    destruct (bool_decide (k' = k)) eqn:Hk; [|exact IH].
    apply bool_decide_eq_true_1 in Hk. subst k'.
    destruct (decide (k ∈ R)); [contradiction | reflexivity].
Qed.

Lemma filter_keys_elem (R : gset key) k (s : list (key * item)) :
  k ∈ (filter (fun p => p.1 ∉ R) s).*1 <-> k ∈ s.*1 /\ k ∉ R.
Proof.
  rewrite !list_elem_of_fmap. split.
  - intros ([k' v] & -> & [Hout Hin]%list_elem_of_filter). simpl in *.
    split; [exists (k', v); split; [reflexivity | exact Hin] | exact Hout].
  - intros [([k' v] & -> & Hin) Hout]. exists (k', v). split; [reflexivity|].
    apply list_elem_of_filter. split; assumption.
Qed.

Lemma filter_keys_NoDup (R : gset key) (s : list (key * item)) :
  NoDup s.*1 -> NoDup (filter (fun p => p.1 ∉ R) s).*1.
Proof.
  induction s as [|[k v] s IH]; simpl; intros Hnd; [constructor|].
  apply NoDup_cons in Hnd as [Hk Hnd].
  destruct (decide (k ∉ R)) as [Hout|Hin].
  - rewrite filter_cons_True by exact Hout. simpl. apply NoDup_cons. split; [|apply IH, Hnd].
    intros [Hin _]%filter_keys_elem. contradiction.
  - rewrite filter_cons_False by exact Hin. apply IH, Hnd.
Qed.

Lemma dated_items_elem k s :
  k ∈ dated_items s -> exists it, (k, it) ∈ s /\ is_dated it = true.
Proof.
  unfold dated_items. intros ([k' it] & -> & [Hd Hin]%list_elem_of_filter)%list_elem_of_fmap.
  exists it. split; assumption.
Qed.

(** The tiers that the pass writes are not the tiers that it looks for. *)
Lemma matched_not_inferred src : str "matched_" ++ src ≠ str "inferred_report_month".
Proof. discriminate. Qed.

Lemma dated_not_inferred it :
  is_dated it = true -> date_source it ≠ str "inferred_report_month".
Proof.
  unfold is_dated. intros Hd Heq. rewrite Heq in Hd. vm_compute in Hd. discriminate.
Qed.

Lemma titles_match_spec ct mt :
  titles_match ct mt = true ->
  (8 <= length ct)%nat /\ (8 <= length mt)%nat /\
  take (Nat.min (Nat.min (length ct) (length mt)) 10) ct
  = take (Nat.min (Nat.min (length ct) (length mt)) 10) mt.
Proof.
  unfold titles_match.
  destruct (bool_decide (mt = []) || (length mt <? 8)%nat) eqn:H1; [discriminate|].
  apply orb_false_iff in H1 as [_ H1]. apply Nat.ltb_ge in H1.
  destruct (Nat.ltb_spec (Nat.min (length ct) (length mt)) 8) as [|H2]; [discriminate|].
  intros Heq%bool_decide_eq_true_1. repeat split; [lia | lia | exact Heq].
Qed.

Section ReconcileFacts.
Context `{Runtime}.

Lemma find_best_step_ok dated s R it ch ct best mk :
  mk ∈ dated -> candidate_ok dated s R ch ct best ->
  candidate_ok dated s R ch ct (find_best_step s R it ch ct best mk).
Proof.
  intros Hmk Hbest. unfold find_best_step.
  destruct (bool_decide (mk ∈ R)) eqn:HR; [exact Hbest|].
  apply bool_decide_eq_false_1 in HR.
  destruct (store_get mk s) as [mit|] eqn:Hget; [|exact Hbest].
  destruct (bool_decide (py_lower (strip (channel mit)) = ch)) eqn:Hch; simpl; [|exact Hbest].
  apply bool_decide_eq_true_1 in Hch.
  destruct (titles_match ct (clean_title (title mit))) eqn:Ht; [|exact Hbest].
  assert (Hnew : candidate_ok dated s R ch ct (Some (mk, mit))) by (simpl; auto).
  destruct best as [[bk bit]|]; [|exact Hnew].
  destruct (_ && _); [exact Hnew | exact Hbest].
Qed.

Lemma find_best_ok dated s R it ch ct :
  candidate_ok dated s R ch ct (find_best dated s R it ch ct).
Proof.
  unfold find_best.
  assert (Hgen : forall l best, (forall x, x ∈ l -> x ∈ dated) ->
            candidate_ok dated s R ch ct best ->
            candidate_ok dated s R ch ct
              (fold_left (find_best_step s R it ch ct) l best)).
  { induction l as [|mk l IH]; intros best Hl Hbest; simpl; [exact Hbest|].
    apply IH; [intros x Hx; apply Hl; right; exact Hx|].
    apply find_best_step_ok; [apply Hl; left | exact Hbest]. }
  apply Hgen; [auto | exact I].
Qed.

(** The three ways a step of the pass can go. *)
Lemma reconcile_step_cases dated s R k :
  reconcile_step dated (s, R) k = (s, R) \/
  exists it mk mit,
    (k ∉ R) /\ store_get k s = Some it /\
    date_source it = str "inferred_report_month" /\
    strip (title it) ≠ [] /\
    find_best dated s R it (py_lower (strip (channel it)))
      (clean_title (strip (title it))) = Some (mk, mit) /\
    reconcile_step dated (s, R) k =
      if or_zero (impressions mit) <=? or_zero (impressions it)
      then (store_set k (adopt_date it mit) s, {[mk]} ∪ R)
      else (s, {[k]} ∪ R).
Proof.
  unfold reconcile_step.
  destruct (bool_decide (k ∈ R)) eqn:HR; [left; reflexivity|].
  apply bool_decide_eq_false_1 in HR.
  destruct (store_get k s) as [it|] eqn:Hget; [|left; reflexivity].
  destruct (bool_decide (date_source it = str "inferred_report_month")) eqn:Hsrc;
    simpl; [|left; reflexivity].
  apply bool_decide_eq_true_1 in Hsrc.
  destruct (bool_decide (strip (title it) = [])) eqn:Ht; [left; reflexivity|].
  apply bool_decide_eq_false_1 in Ht.
  destruct (find_best _ _ _ _ _ _) as [[mk mit]|] eqn:Hbest; [|left; reflexivity].
  right. exists it, mk, mit. repeat split; try assumption.
Qed.

Lemma reconcile_step_keys dated s R k : (reconcile_step dated (s, R) k).1.*1 = s.*1.
Proof.
  destruct (reconcile_step_cases dated s R k)
    as [->|(it & mk & mit & _ & Hget & _ & _ & _ & ->)]; [reflexivity|].
  destruct (_ <=? _); [|reflexivity]. simpl.
  apply store_set_keys_in. eapply store_get_elem, Hget.
Qed.

Lemma reconcile_step_other dated s R k k' :
  k' ≠ k -> store_get k' (reconcile_step dated (s, R) k).1 = store_get k' s.
Proof.
  intros Hne. destruct (reconcile_step_cases dated s R k)
    as [->|(it & mk & mit & _ & _ & _ & _ & _ & ->)]; [reflexivity|].
  destruct (_ <=? _); [|reflexivity]. simpl. apply store_get_set_ne, Hne.
Qed.

Lemma reconcile_step_unchanged dated s R k k' it :
  store_get k' s = Some it -> date_source it ≠ str "inferred_report_month" ->
  store_get k' (reconcile_step dated (s, R) k).1 = Some it.
Proof.
  intros Hget Hsrc. destruct (decide (k' = k)) as [->|Hne].
  - destruct (reconcile_step_cases dated s R k)
      as [->|(it' & mk & mit & _ & Hget' & Hsrc' & _)]; [exact Hget|].
    congruence.
  - rewrite reconcile_step_other by exact Hne. exact Hget.
Qed.

Lemma reconcile_step_removed dated s R k k' :
  k' ∈ (reconcile_step dated (s, R) k).2 ->
  k' ∈ R \/ k' ∈ dated \/
  (k' = k /\ exists it, store_get k s = Some it /\
                        date_source it = str "inferred_report_month").
Proof.
  destruct (reconcile_step_cases dated s R k)
    as [->|(it & mk & mit & _ & Hget & Hsrc & _ & Hbest & ->)]; [auto|].
  pose proof (find_best_ok dated s R it (py_lower (strip (channel it)))
                (clean_title (strip (title it)))) as Hok.
  rewrite Hbest in Hok. destruct Hok as (Hmk & _).
  destruct (_ <=? _); simpl; rewrite elem_of_union, elem_of_singleton;
    intros [->|?]; eauto 10.
Qed.

Lemma reconcile_step_mono dated s R k k' :
  k' ∈ R -> k' ∈ (reconcile_step dated (s, R) k).2.
Proof.
  intros Hin. destruct (reconcile_step_cases dated s R k)
    as [->|(it & mk & mit & _ & _ & _ & _ & _ & ->)]; [exact Hin|].
  destruct (_ <=? _); simpl; apply elem_of_union; right; exact Hin.
Qed.

(** *** The loop *)

Lemma reconcile_loop_cons dated k ks st :
  reconcile_loop dated (k :: ks) st = reconcile_loop dated ks (reconcile_step dated st k).
Proof. reflexivity. Qed.

Lemma reconcile_loop_app dated ks1 ks2 st :
  reconcile_loop dated (ks1 ++ ks2) st
  = reconcile_loop dated ks2 (reconcile_loop dated ks1 st).
Proof. unfold reconcile_loop. apply fold_left_app. Qed.

Lemma reconcile_loop_keys dated ks s R : (reconcile_loop dated ks (s, R)).1.*1 = s.*1.
Proof.
  revert s R. induction ks as [|k ks IH]; intros s R; [reflexivity|].
  rewrite reconcile_loop_cons.
  destruct (reconcile_step dated (s, R) k) as [s' R'] eqn:Hstep.
  rewrite IH. pose proof (reconcile_step_keys dated s R k) as Hk.
  rewrite Hstep in Hk. exact Hk.
Qed.

Lemma reconcile_loop_other dated ks s R k' :
  k' ∉ ks -> store_get k' (reconcile_loop dated ks (s, R)).1 = store_get k' s.
Proof.
  revert s R. induction ks as [|k ks IH]; intros s R Hout; [reflexivity|].
  apply not_elem_of_cons in Hout as [Hne Hout]. rewrite reconcile_loop_cons.
  destruct (reconcile_step dated (s, R) k) as [s' R'] eqn:Hstep.
  rewrite IH by exact Hout. pose proof (reconcile_step_other dated s R k k' Hne) as Hk.
  rewrite Hstep in Hk. exact Hk.
Qed.

Lemma reconcile_loop_unchanged dated ks s R k' it :
  store_get k' s = Some it -> date_source it ≠ str "inferred_report_month" ->
  store_get k' (reconcile_loop dated ks (s, R)).1 = Some it.
Proof.
  revert s R. induction ks as [|k ks IH]; intros s R Hget Hsrc; [exact Hget|].
  rewrite reconcile_loop_cons.
  destruct (reconcile_step dated (s, R) k) as [s' R'] eqn:Hstep.
  apply IH; [|exact Hsrc].
  pose proof (reconcile_step_unchanged dated s R k k' it Hget Hsrc) as Hk.
  rewrite Hstep in Hk. exact Hk.
Qed.

Lemma reconcile_loop_mono dated ks s R k' :
  k' ∈ R -> k' ∈ (reconcile_loop dated ks (s, R)).2.
Proof.
  revert s R. induction ks as [|k ks IH]; intros s R Hin; [exact Hin|].
  rewrite reconcile_loop_cons.
  destruct (reconcile_step dated (s, R) k) as [s' R'] eqn:Hstep.
  apply IH. pose proof (reconcile_step_mono dated s R k k' Hin) as Hk.
  rewrite Hstep in Hk. exact Hk.
Qed.

(** A key is removed only if its record is a candidate or was tagged as
    inferred when its turn came. *)
Lemma reconcile_loop_removed dated ks s R k' :
  NoDup ks -> k' ∈ (reconcile_loop dated ks (s, R)).2 ->
  k' ∈ R \/ k' ∈ dated \/
  (k' ∈ ks /\ exists it, store_get k' s = Some it /\
                         date_source it = str "inferred_report_month").
Proof.
  revert s R. induction ks as [|k ks IH]; intros s R Hnd Hin; [left; exact Hin|].
  apply NoDup_cons in Hnd as [Hk Hnd]. rewrite reconcile_loop_cons in Hin.
  destruct (reconcile_step dated (s, R) k) as [s' R'] eqn:Hstep.
  destruct (IH s' R' Hnd Hin) as [HR'|[Hd|(Hks & it & Hget & Hsrc)]].
  - pose proof (reconcile_step_removed dated s R k k') as Hrem.
    rewrite Hstep in Hrem. destruct (Hrem HR') as [?|[?|(-> & Hit)]]; auto.
    right. right. split; [left | exact Hit].
  - auto.
  - right. right. split; [right; exact Hks|]. exists it. split; [|exact Hsrc].
    assert (Hne : k' ≠ k) by (intros ->; contradiction).
    pose proof (reconcile_step_other dated s R k k' Hne) as Hother.
    rewrite Hstep in Hother. simpl in Hother. congruence.
Qed.

(** A record that is neither a candidate nor tagged as inferred is in the
    result of the pass as it was. *)
Lemma reconcile_keeps s k it :
  NoDup s.*1 -> store_get k s = Some it ->
  is_dated it = false -> date_source it ≠ str "inferred_report_month" ->
  store_get k (reconcile s) = Some it.
Proof.
  intros Hnd Hget Hnd' Hsrc. unfold reconcile.
  destruct (reconcile_loop (dated_items s) s.*1 (s, ∅)) as [sF RF] eqn:Hloop.
  rewrite store_get_filter.
  pose proof (reconcile_loop_unchanged (dated_items s) s.*1 s ∅ k it Hget Hsrc) as Hun.
  rewrite Hloop in Hun. simpl in Hun.
  destruct (decide (k ∈ RF)) as [Hin|_]; [|exact Hun]. exfalso.
  pose proof (reconcile_loop_removed (dated_items s) s.*1 s ∅ k Hnd) as Hrem.
  rewrite Hloop in Hrem.
  destruct (Hrem Hin) as [Hempty|[Hd|(_ & it' & Hget' & Hsrc')]].
  - apply not_elem_of_empty in Hempty. exact Hempty.
  - apply dated_items_elem in Hd as (it' & Hin' & Hd').
    apply (store_get_NoDup _ _ _ Hnd) in Hin'. congruence.
  - congruence.
Qed.

Lemma reconcile_NoDup s : NoDup s.*1 -> NoDup (reconcile s).*1.
Proof.
  intros Hnd. unfold reconcile.
  destruct (reconcile_loop (dated_items s) s.*1 (s, ∅)) as [sF RF] eqn:Hloop.
  apply filter_keys_NoDup.
  pose proof (reconcile_loop_keys (dated_items s) s.*1 s ∅) as Hk.
  rewrite Hloop in Hk. simpl in Hk. rewrite Hk. exact Hnd.
Qed.
End ReconcileFacts.

Section ReconcileClaims.
Context `{Runtime}.

Lemma reconcile_step_match dated s R k it mk mit :
  k ∉ R -> store_get k s = Some it ->
  date_source it = str "inferred_report_month" -> strip (title it) ≠ [] ->
  find_best dated s R it (py_lower (strip (channel it)))
    (clean_title (strip (title it))) = Some (mk, mit) ->
  reconcile_step dated (s, R) k =
    if or_zero (impressions mit) <=? or_zero (impressions it)
    then (store_set k (adopt_date it mit) s, {[mk]} ∪ R)
    else (s, {[k]} ∪ R).
Proof.
  intros HR Hget Hsrc Ht Hbest. unfold reconcile_step.
  rewrite (bool_decide_eq_false_2 _ HR), Hget.
  rewrite (bool_decide_eq_true_2 _ Hsrc). simpl negb. cbv iota zeta.
  rewrite (bool_decide_eq_false_2 _ Ht), Hbest. reflexivity.
Qed.

(** C3.  When the turn of a record tagged as inferred comes and the pass
    finds it a candidate: if its impressions (none counting as 0) are at
    least the candidate's, the record is in the result with the
    candidate's date text, ISO date and month, with the tier [matched_]
    followed by the candidate's tier, and with the candidate's link if it
    had none, and the candidate is not in the result; otherwise the
    record itself is not in the result. *)
Theorem reconcile_matched_pair (s0 : list (key * item)) (pre post : list key)
    (k mk : key) (it mit : item) :
  NoDup s0.*1 ->
  s0.*1 = pre ++ k :: post ->
  let dated := dated_items s0 in
  let st := reconcile_loop dated pre (s0, ∅) in
  k ∉ st.2 ->
  store_get k st.1 = Some it ->
  date_source it = str "inferred_report_month" ->
  strip (title it) ≠ [] ->
  find_best dated st.1 st.2 it (py_lower (strip (channel it)))
    (clean_title (strip (title it))) = Some (mk, mit) ->
  if or_zero (impressions mit) <=? or_zero (impressions it)
  then store_get k (reconcile s0) =
         Some {| channel := channel it; dtype := dtype it; title := title it;
                 link := if bool_decide (link it = []) then link mit else link it;
                 date_raw := date_raw mit;
                 date_iso := date_iso mit;
                 month := month mit;
                 date_source := str "matched_" ++ date_source mit;
                 impressions := impressions it; views := views it;
                 engagements := engagements it; clicks := clicks it;
                 attendees := attendees it; chat_count := chat_count it;
                 email_sends := email_sends it;
                 article_views := article_views it;
                 interactions := interactions it;
                 report_month := report_month it |}
       /\ mk ∉ (reconcile s0).*1
  else k ∉ (reconcile s0).*1.
Proof.
  intros Hnd Hkeys dated st HR Hget Hsrc Ht Hbest.
  assert (Hndk : NoDup (pre ++ k :: post)) by (rewrite <- Hkeys; exact Hnd).
  apply NoDup_app in Hndk as (_ & Hpre & Hndpost).
  apply NoDup_cons in Hndpost as [Hpost Hndpost].
  assert (Hkpre : k ∉ pre) by (intros Hin; apply (Hpre k Hin); left).
  unfold reconcile. fold dated. rewrite Hkeys, reconcile_loop_app, reconcile_loop_cons.
  fold st. destruct st as [s1 R1] eqn:Hst. simpl in HR, Hget, Hbest.
  rewrite (reconcile_step_match dated s1 R1 k it mk mit HR Hget Hsrc Ht Hbest).
  pose proof (find_best_ok dated s1 R1 it (py_lower (strip (channel it)))
                (clean_title (strip (title it)))) as Hok.
  rewrite Hbest in Hok. destruct Hok as (Hmk & _).
  assert (Hget0 : store_get k s0 = Some it).
  { pose proof (reconcile_loop_other dated pre s0 ∅ k Hkpre) as Ho.
    fold st in Ho. rewrite Hst in Ho. simpl in Ho. congruence. }
  assert (Hkd : k ∉ dated).
  { intros (it' & Hin & Hd)%dated_items_elem.
    apply (store_get_NoDup _ _ _ Hnd) in Hin.
    apply dated_not_inferred in Hd. congruence. }
  destruct (or_zero (impressions mit) <=? or_zero (impressions it)).
  - destruct (reconcile_loop dated post (store_set k (adopt_date it mit) s1, {[mk]} ∪ R1))
      as [sF RF] eqn:Hloop.
    assert (HmkF : mk ∈ RF).
    { pose proof (reconcile_loop_mono dated post (store_set k (adopt_date it mit) s1)
                    ({[mk]} ∪ R1) mk) as Hm.
      rewrite Hloop in Hm. apply Hm. apply elem_of_union. left.
      apply elem_of_singleton. reflexivity. }
    split.
    + rewrite store_get_filter. destruct (decide (k ∈ RF)) as [Hin|_].
      * exfalso.
        pose proof (reconcile_loop_removed dated post
                      (store_set k (adopt_date it mit) s1) ({[mk]} ∪ R1) k Hndpost) as Hrem.
        rewrite Hloop in Hrem. destruct (Hrem Hin) as [HR2|[Hd|(Hp & _)]].
        -- apply elem_of_union in HR2 as [->%elem_of_singleton|HR1]; contradiction.
        -- contradiction.
        -- contradiction.
      * pose proof (reconcile_loop_other dated post
                      (store_set k (adopt_date it mit) s1) ({[mk]} ∪ R1) k Hpost) as Ho.
        rewrite Hloop in Ho. simpl in Ho. rewrite Ho, store_get_set_eq.
        f_equal. unfold adopt_date. f_equal.
        destruct (bool_decide (link it = [])) eqn:Hli;
          destruct (bool_decide (link mit = [])) eqn:Hlm; simpl; try reflexivity.
        apply bool_decide_eq_true_1 in Hli, Hlm. congruence.
    + intros [_ Hout]%filter_keys_elem. contradiction.
  - destruct (reconcile_loop dated post (s1, {[k]} ∪ R1)) as [sF RF] eqn:Hloop.
    intros [_ Hout]%filter_keys_elem. apply Hout.
    pose proof (reconcile_loop_mono dated post s1 ({[k]} ∪ R1) k) as Hm.
    rewrite Hloop in Hm. apply Hm. apply elem_of_union. left.
    apply elem_of_singleton. reflexivity.
Qed.

(** C4, as amended.  The candidate that the pass finds for a record is a
    record of tier provided or youtube_publish, of the same channel up to
    case and surrounding whitespace, and the two cleaned titles have at
    least 8 characters each and are equal on their first [p] characters,
    [p] being the length of the shorter one or 10 if that is less; and a
    step of the pass changes nothing unless it finds such a candidate for
    a record tagged as inferred. *)
Theorem reconcile_match_conditions (s0 : list (key * item)) (pre post : list key)
    (k mk : key) (it mit : item) :
  NoDup s0.*1 ->
  s0.*1 = pre ++ k :: post ->
  let dated := dated_items s0 in
  let st := reconcile_loop dated pre (s0, ∅) in
  store_get k st.1 = Some it ->
  find_best dated st.1 st.2 it (py_lower (strip (channel it)))
    (clean_title (strip (title it))) = Some (mk, mit) ->
  let ct := clean_title (strip (title it)) in
  let mt := clean_title (title mit) in
  let p := Nat.min (Nat.min (length ct) (length mt)) 10 in
  (store_get k s0 = Some it /\ store_get mk s0 = Some mit /\
   is_dated mit = true /\
   py_lower (strip (channel mit)) = py_lower (strip (channel it)) /\
   (8 <= length ct)%nat /\ (8 <= length mt)%nat /\
   take p ct = take p mt) /\
  (forall s R k',
     reconcile_step dated (s, R) k' ≠ (s, R) ->
     exists it' mk' mit',
       store_get k' s = Some it' /\
       date_source it' = str "inferred_report_month" /\
       find_best dated s R it' (py_lower (strip (channel it')))
         (clean_title (strip (title it'))) = Some (mk', mit')).
Proof.
  intros Hnd Hkeys dated st Hget Hbest ct mt p. split.
  - assert (Hndk : NoDup (pre ++ k :: post)) by (rewrite <- Hkeys; exact Hnd).
    apply NoDup_app in Hndk as (_ & Hpre & _).
    assert (Hkpre : k ∉ pre) by (intros Hin; apply (Hpre k Hin); left).
    pose proof (find_best_ok dated st.1 st.2 it (py_lower (strip (channel it)))
                  (clean_title (strip (title it)))) as Hok.
    rewrite Hbest in Hok. destruct Hok as (Hmk & _ & Hgetm & Hch & Htm).
    apply titles_match_spec in Htm as (Hct & Hmt & Htake).
    apply dated_items_elem in Hmk as (m0 & Hin0 & Hd0).
    apply (store_get_NoDup _ _ _ Hnd) in Hin0.
    pose proof (reconcile_loop_unchanged dated pre s0 ∅ mk m0 Hin0
                  (dated_not_inferred m0 Hd0)) as Hun.
    fold st in Hun. assert (mit = m0) by congruence. subst m0.
    pose proof (reconcile_loop_other dated pre s0 ∅ k Hkpre) as Ho. fold st in Ho.
    repeat split; try assumption. congruence.
  - intros s R k' Hne.
    destruct (reconcile_step_cases dated s R k')
      as [?|(it' & mk' & mit' & _ & Hg & Hs & _ & Hb & _)]; [contradiction|].
    exists it', mk', mit'. auto.
Qed.
End ReconcileClaims.

(** C4, as stated, fails: a title of 8 characters is matched to a longer
    one, though the two cannot share 10 characters, and the two records
    become one. *)
Lemma short_title_matched :
  let s := @merge_item bare_runtime original_post
             (@merge_item bare_runtime relisted_post []) in
  let ct := @clean_title bare_runtime (strip (title relisted_post)) in
  s = [(@dedup_key bare_runtime relisted_post, relisted_post);
       (@dedup_key bare_runtime original_post, original_post)] /\
  @find_best bare_runtime (dated_items s) s ∅ relisted_post
    (@py_lower bare_runtime (strip (channel relisted_post))) ct
    = Some (@dedup_key bare_runtime original_post, original_post) /\
  length ct = 8%nat /\
  @reconcile bare_runtime s
    = [(@dedup_key bare_runtime relisted_post, adopt_date relisted_post original_post)].
Proof. cbv zeta. repeat split; vm_compute; reflexivity. Qed.

Lemma reconcile_matched_pair_witness :
  store_get (@dedup_key bare_runtime webinar_recap) (@reconcile bare_runtime webinar_store)
  = Some (dated_item (str "FHC") (str "Webinar")
            (str "Quarterly Budget Planning Webinar Recap")
            (str "https://federalhelpcenter.com/w") (str "9 Apr 2025")
            (str "2025-04-09") (str "2025-04") (str "matched_provided") (Some 50))
  /\ @dedup_key bare_runtime webinar ∉ (@reconcile bare_runtime webinar_store).*1.
Proof.
  apply (@reconcile_matched_pair bare_runtime webinar_store []
           [@dedup_key bare_runtime webinar]
           (@dedup_key bare_runtime webinar_recap) (@dedup_key bare_runtime webinar)
           webinar_recap webinar).
  - apply (bool_decide_unpack _). vm_compute. exact I.
  - vm_compute. reflexivity.
  - apply not_elem_of_empty.
  - vm_compute. reflexivity.
  - vm_compute. reflexivity.
  - vm_compute. discriminate.
  - vm_compute. reflexivity.
Defined.

Lemma reconcile_match_conditions_witness :
  let ct := @clean_title bare_runtime (strip (title webinar_recap)) in
  let mt := @clean_title bare_runtime (title webinar) in
  store_get (@dedup_key bare_runtime webinar_recap) webinar_store = Some webinar_recap /\
  store_get (@dedup_key bare_runtime webinar) webinar_store = Some webinar /\
  is_dated webinar = true /\
  @py_lower bare_runtime (strip (channel webinar))
  = @py_lower bare_runtime (strip (channel webinar_recap)) /\
  (8 <= length ct)%nat /\ (8 <= length mt)%nat /\
  take (Nat.min (Nat.min (length ct) (length mt)) 10) ct
  = take (Nat.min (Nat.min (length ct) (length mt)) 10) mt.
Proof.
  refine (proj1 (@reconcile_match_conditions bare_runtime webinar_store []
                   [@dedup_key bare_runtime webinar]
                   (@dedup_key bare_runtime webinar_recap)
                   (@dedup_key bare_runtime webinar)
                   webinar_recap webinar _ _ _ _)).
  - apply (bool_decide_unpack _). vm_compute. exact I.
  - vm_compute. reflexivity.
  - vm_compute. reflexivity.
  - vm_compute. reflexivity.
Defined.

Section IdentityClaims.
Context `{Runtime}.

Lemma dedup_key_plain it :
  plain_identity it ->
  dedup_key it = [strip (channel it); strip (dtype it); strip (title it); norm_link it].
Proof.
  unfold dedup_key. intros [Hl|(Ht & Hli & Hig)].
  - rewrite (bool_decide_eq_false_2 _ Hl). reflexivity.
  - destruct (bool_decide (norm_link it = [])); [|reflexivity].
    rewrite (bool_decide_eq_false_2 _ Ht), (bool_decide_eq_false_2 _ Hli),
      (bool_decide_eq_false_2 _ Hig). reflexivity.
Qed.

(** C6, as amended.  The date is part of the key of a LinkedIn or
    Instagram record (the channel compared without case) when the record
    has no link; a record that has a link, or that has a title and is of
    another channel, has the key (channel, type, title, link), so two
    such records with the same four values have one key and the main
    loop keeps one record for them. *)
Theorem dedup_key_shape (a b : item) (s : list (key * item)) :
  (norm_link a = [] ->
   py_lower (strip (channel a)) = str "linkedin"
   \/ py_lower (strip (channel a)) = str "instagram" ->
   dedup_key a = [strip (channel a); strip (dtype a); strip (title a); []; date_iso a]) /\
  (plain_identity a ->
   dedup_key a = [strip (channel a); strip (dtype a); strip (title a); norm_link a]) /\
  (plain_identity a -> plain_identity b ->
   strip (channel a) = strip (channel b) -> strip (dtype a) = strip (dtype b) ->
   strip (title a) = strip (title b) -> norm_link a = norm_link b ->
   NoDup s.*1 ->
   dedup_key a = dedup_key b /\
   NoDup (merge_item b (merge_item a s)).*1 /\
   dedup_key a ∈ (merge_item b (merge_item a s)).*1).
Proof.
  split; [|split].
  - intros Hl Hch. unfold dedup_key. rewrite Hl.
    rewrite (bool_decide_eq_true_2 ([] = []) eq_refl).
    destruct (bool_decide (strip (title a) = [])); [reflexivity|].
    destruct Hch as [->| ->]; reflexivity.
  - apply dedup_key_plain.
  - intros Ha Hb Hc Hd Ht Hl Hnd.
    assert (Hk : dedup_key a = dedup_key b).
    { rewrite (dedup_key_plain a Ha), (dedup_key_plain b Hb). congruence. }
    split; [exact Hk|]. split.
    + apply merge_item_NoDup, merge_item_NoDup, Hnd.
    + apply merge_item_keys. left. exact Hk.
Qed.

(** *** Rows with nothing to tell them apart *)

Lemma dedup_key_blank it :
  strip (title it) = [] -> strip (link it) = [] -> date_iso it = [] ->
  dedup_key it = [strip (channel it); strip (dtype it); []; []; []].
Proof.
  intros Ht Hl Hd. unfold dedup_key, norm_link. rewrite Hl, Ht, Hd.
  rewrite (bool_decide_eq_true_2 ([] = []) eq_refl), andb_false_r.
  rewrite (bool_decide_eq_true_2 ([] = []) eq_refl). reflexivity.
Qed.

Lemma dedup_key_last it c t ti l d :
  dedup_key it = [c; t; ti; l; d] -> date_iso it = d.
Proof.
  unfold dedup_key.
  repeat match goal with |- context [if ?b then _ else _] => destruct b end;
    intros [=]; congruence.
Qed.

Context `{World}.

Lemma build_item_no_date r ls it ls' :
  build_item r ls = Ret (it, ls') -> date_iso it = [] ->
  date_source it = str "unknown".
Proof.
  intros (d & Hres & _ & _ & _ & _ & _ & Hiso & _)%build_item_inv Hd.
  apply resolve_date_tier in Hres. destruct d as [d|]; [|exact Hres].
  rewrite Hiso in Hd. apply isoformat_nonempty in Hd. contradiction.
Qed.

Lemma build_item_blank r ls it ls' :
  build_item r ls = Ret (it, ls') -> blank_undated r -> dedup_key it = blank_key r.
Proof.
  intros (d & Hres & Hch & Hty & Hti & Hli & _ & Hiso & _)%build_item_inv
         (Ht & Hl & Hhd & Hrm).
  assert (Hd : d = None).
  { unfold resolve_date in Hres. rewrite Hhd, Hl in Hres. cbn [res_bind] in Hres.
    rewrite (bool_decide_eq_true_2 ([] = []) eq_refl), andb_false_r in Hres.
    rewrite Hrm in Hres. cbn [res_bind] in Hres. congruence. }
  subst d. rewrite dedup_key_blank.
  - unfold blank_key. rewrite Hch, Hty, !strip_idem. reflexivity.
  - rewrite Hti, strip_idem. exact Ht.
  - rewrite Hli, strip_idem. exact Hl.
  - exact Hiso.
Qed.

Lemma merge_item_undated r ls new ls' s c t ti l :
  build_item r ls = Ret (new, ls') ->
  undated_at [c; t; ti; l; []] s ->
  undated_at [c; t; ti; l; []] (merge_item new s).
Proof.
  intros Hbuild Hinv it. set (K := [c; t; ti; l; []]) in *.
  destruct (decide (dedup_key new = K)) as [Hk|Hk].
  - assert (Hsrc : date_source new = str "unknown").
    { eapply build_item_no_date; [exact Hbuild|].
      eapply dedup_key_last. exact Hk. }
    unfold merge_item. rewrite Hk.
    destruct (store_get K s) as [prev|] eqn:Hget.
    + repeat match goal with |- context [if ?b then _ else _] => destruct b end;
        rewrite ?store_get_set_eq; try (intros [= <-]; exact Hsrc).
      all: rewrite Hget; intros [= <-]; apply Hinv, Hget.
    + rewrite store_get_set_eq. intros [= <-]. exact Hsrc.
  - unfold merge_item.
    destruct (store_get (dedup_key new) s) as [prev|].
    + repeat match goal with |- context [if ?b then _ else _] => destruct b end;
        rewrite ?store_get_set_ne by congruence; apply Hinv.
    + rewrite store_get_set_ne by congruence. apply Hinv.
Qed.

Lemma process_rows_blank rows : forall st stF c t,
  process_rows rows st = Ret stF ->
  NoDup st.2.*1 -> undated_at [c; t; []; []; []] st.2 ->
  [c; t; []; []; []] ∈ st.2.*1
  \/ (exists r, r ∈ rows /\ blank_undated r /\ blank_key r = [c; t; []; []; []]) ->
  NoDup stF.2.*1 /\ undated_at [c; t; []; []; []] stF.2
  /\ [c; t; []; []; []] ∈ stF.2.*1.
Proof.
  induction rows as [|r rows IH]; intros st stF c t Hrun Hnd Hinv Hin.
  - simpl in Hrun. injection Hrun as <-. split; [exact Hnd|]. split; [exact Hinv|].
    destruct Hin as [Hin|(r & Hr & _)]; [exact Hin|].
    apply elem_of_nil in Hr. contradiction.
  - simpl in Hrun. unfold process_row in Hrun at 1.
    destruct (build_item r st.1) as [[it ls]|e] eqn:Hbuild; cbn [res_bind] in Hrun;
      [|discriminate].
    apply (IH _ _ c t Hrun); simpl.
    + apply merge_item_NoDup, Hnd.
    + eapply merge_item_undated; [exact Hbuild | exact Hinv].
    + destruct Hin as [Hin|(r' & [->|Hr']%elem_of_cons & Hb & Hk)].
      * left. apply merge_item_keys. right. exact Hin.
      * left. apply merge_item_keys. left.
        rewrite (build_item_blank _ _ _ _ Hbuild Hb). symmetry. exact Hk.
      * right. exists r'. auto.
Qed.

(** C10, as amended.  A record without a title, a link or a date has
    the key (channel, type, "", "", ""); and whatever rows of that kind a
    run reads for one channel and type, its result holds one record
    under that key. *)
Theorem blank_rows_merge (rows : list row) (r : row) (ls0 ls : lookup_state)
    (s : list (key * item)) :
  (forall it, strip (title it) = [] -> strip (link it) = [] -> date_iso it = [] ->
     dedup_key it = [strip (channel it); strip (dtype it); []; []; []]) /\
  (process_rows rows (ls0, []) = Ret (ls, s) ->
   r ∈ rows -> blank_undated r ->
   NoDup (reconcile s).*1 /\
   exists it, store_get (blank_key r) (reconcile s) = Some it /\
              date_source it = str "unknown").
Proof.
  split; [apply dedup_key_blank|]. intros Hrun Hr Hb.
  destruct (process_rows_blank rows (ls0, []) (ls, s)
              (strip (or_empty (r_channel r))) (strip (or_empty (r_data_type r))) Hrun)
    as (Hnd & Hinv & Hin); simpl.
  - constructor.
  - intros it [=].
  - right. exists r. auto.
  - fold (blank_key r) in Hinv, Hin. simpl in Hnd, Hinv, Hin.
    split; [apply reconcile_NoDup, Hnd|].
    destruct (store_get (blank_key r) s) as [it|] eqn:Hget;
      [|apply store_get_None in Hget; contradiction].
    pose proof (Hinv it Hget) as Hsrc.
    exists it. split.
    + apply reconcile_keeps; try assumption.
      * unfold is_dated. rewrite Hsrc. reflexivity.
      * rewrite Hsrc. discriminate.
    + exact Hsrc.
Qed.
End IdentityClaims.

(** C6, as stated, fails: the key of a LinkedIn post that has a link
    does not hold its date. *)
Lemma linkedin_key_without_date :
  @py_lower bare_runtime (strip (channel linkedin_post)) = str "linkedin" /\
  date_iso linkedin_post = str "2025-04-09" /\
  @dedup_key bare_runtime linkedin_post
  = [str "LinkedIn"; str "Post"; str "Hello"; str "https://lnkd.in/x"].
Proof. repeat split; vm_compute; reflexivity. Qed.

(** C10, as stated, fails: a link that names no video stays in the key as
    it is. *)
Lemma unnormalized_link_in_key :
  title untitled_video = [] /\ date_iso untitled_video = [] /\
  @normalize_youtube_url bare_runtime (link untitled_video) = None /\
  @dedup_key bare_runtime untitled_video
  = [str "YouTube"; str "Video"; []; str "https://studio.youtube.com/channel/UC1"] /\
  @dedup_key bare_runtime untitled_video ≠ [str "YouTube"; str "Video"; []; []; []].
Proof. repeat split; try (vm_compute; reflexivity). vm_compute. discriminate. Qed.

Lemma dedup_key_shape_witness :
  @dedup_key bare_runtime relisted_post
  = [str "LinkedIn"; str "Post"; str "Budget Q"; []; str "2025-07-01"] /\
  @dedup_key bare_runtime webinar
  = [str "FHC"; str "Webinar"; str "Quarterly Budget Planning Webinar";
     str "https://federalhelpcenter.com/w"] /\
  (@dedup_key bare_runtime webinar = @dedup_key bare_runtime webinar /\
   NoDup (@merge_item bare_runtime webinar (@merge_item bare_runtime webinar [])).*1 /\
   @dedup_key bare_runtime webinar
   ∈ (@merge_item bare_runtime webinar (@merge_item bare_runtime webinar [])).*1).
Proof.
  assert (Hplain : @plain_identity bare_runtime webinar)
    by (left; vm_compute; discriminate).
  split; [|split].
  - apply (proj1 (@dedup_key_shape bare_runtime relisted_post relisted_post [])).
    + vm_compute. reflexivity.
    + left. vm_compute. reflexivity.
  - apply (proj1 (proj2 (@dedup_key_shape bare_runtime webinar webinar []))).
    exact Hplain.
  - apply (proj2 (proj2 (@dedup_key_shape bare_runtime webinar webinar [])));
      try reflexivity; try exact Hplain. constructor.
Defined.

Lemma blank_rows_merge_witness :
  exists it,
    store_get [str "FHC"; str "Webinar"; []; []; []]
      (@reconcile bare_runtime [([str "FHC"; str "Webinar"; []; []; []], blank_record)])
    = Some it /\
    date_source it = str "unknown".
Proof.
  refine (proj2 (proj2 (@blank_rows_merge bare_runtime silent_world
            [row_blank; row_blank] row_blank (LookupState ∅ []) (LookupState ∅ [])
            [([str "FHC"; str "Webinar"; []; []; []], blank_record)]) _ _ _)).
  - vm_compute. reflexivity.
  - left.
  - repeat split; vm_compute; reflexivity.
Defined.

(** C1, as stated, fails: a leading minus sign gives a negative integer,
    and the record of the row carries it. *)
Lemma parse_int_negative :
  @parse_int bare_runtime (CStr (str "-5")) = Ret (Some (-5)) /\
  ~ (forall (R : Runtime) (s : pystr),
       parse_int (CStr s) = Ret None \/
       exists n, 0 <= n /\ parse_int (CStr s) = Ret (Some n)) /\
  exists ls k it,
    @process_rows bare_runtime silent_world [row_negative] initial_state
    = Ret (ls, [(k, it)]) /\
    @reconcile bare_runtime [(k, it)] = [(k, it)] /\
    impressions it = Some (-5).
Proof.
  split; [vm_compute; reflexivity|]. split.
  - intros Hall. destruct (Hall bare_runtime (str "-5")) as [Hn|(n & Hn & Heq)].
    + vm_compute in Hn. discriminate.
    + vm_compute in Heq. injection Heq as <-. lia.
  - eexists _, _, _. split; [vm_compute; reflexivity|].
    split; vm_compute; reflexivity.
Qed.

(** * Further properties *)

(** ** The main loop *)

Lemma store_set_new k v s : store_get k s = None -> store_set k v s = s ++ [(k, v)].
Proof.
  induction s as [|[k' v'] s IH]; simpl; [reflexivity|].
  destruct (bool_decide (k' = k)); [discriminate|]. intros Hn. f_equal. apply IH, Hn.
Qed.

Lemma store_set_length k v s : (length (store_set k v s) <= S (length s))%nat.
Proof.
  induction s as [|[k' v'] s IH]; simpl; [lia|].
  destruct (bool_decide (k' = k)); simpl; lia.
Qed.

Section LoopFacts.
Context `{Runtime}.

(** X1.  A new record of an equal or lower tier than the stored one under
    its key: with equal tiers the one with strictly more impressions
    (none counting as 0) stays, the stored one on a tie; with a lower
    tier the stored one stays. *)
Theorem merge_equal_or_lower_tier (new prev : item) (s : list (key * item)) :
  store_get (dedup_key new) s = Some prev ->
  date_priority (date_source new) <= date_priority (date_source prev) ->
  store_get (dedup_key new) (merge_item new s) =
    Some (if (date_priority (date_source new) =? date_priority (date_source prev))
             && (or_zero (impressions prev) <? or_zero (impressions new))
          then new else prev).
Proof.
  intros Hget Hle. unfold merge_item. rewrite Hget. cbv zeta.
  destruct (Z.ltb_spec (date_priority (date_source prev))
                       (date_priority (date_source new))); [lia|].
  destruct (_ =? _); simpl; [|exact Hget].
  destruct (_ <? _); [apply store_get_set_eq | exact Hget].
Qed.

Lemma merge_item_other_key (new : item) (s : list (key * item)) (k : key) :
  k <> dedup_key new -> store_get k (merge_item new s) = store_get k s.
Proof.
  intros Hk. unfold merge_item.
  destruct (store_get (dedup_key new) s);
    repeat match goal with |- context [if ?b then _ else _] => destruct b end;
    rewrite ?store_get_set_ne by exact Hk; reflexivity.
Qed.

(** X2.  A record under a new key goes to the end of the map, and no
    record, new or not, touches what is stored under another key. *)
Theorem merge_item_frame (new : item) (s : list (key * item)) :
  (store_get (dedup_key new) s = None -> merge_item new s = s ++ [(dedup_key new, new)]) /\
  (forall k, k ≠ dedup_key new -> store_get k (merge_item new s) = store_get k s).
Proof.
  split.
  - intros Hn. unfold merge_item. rewrite Hn. apply store_set_new, Hn.
  - intros k Hk. apply merge_item_other_key, Hk.
Qed.

Lemma merge_item_length it s : (length (merge_item it s) <= S (length s))%nat.
Proof.
  unfold merge_item. destruct (store_get _ s); [|apply store_set_length].
  repeat match goal with |- context [if ?b then _ else _] => destruct b end;
    try apply store_set_length; lia.
Qed.

Lemma reconcile_length s : (length (reconcile s) <= length s)%nat.
Proof.
  unfold reconcile.
  destruct (reconcile_loop (dated_items s) s.*1 (s, ∅)) as [sF RF] eqn:Hloop.
  pose proof (reconcile_loop_keys (dated_items s) s.*1 s ∅) as Hk.
  rewrite Hloop in Hk. simpl in Hk.
  etransitivity; [apply length_filter|].
  rewrite <- (length_fmap fst sF), Hk, length_fmap. reflexivity.
Qed.

Lemma reconcile_keys_subset s k : k ∈ (reconcile s).*1 -> k ∈ s.*1.
Proof.
  unfold reconcile.
  destruct (reconcile_loop (dated_items s) s.*1 (s, ∅)) as [sF RF] eqn:Hloop.
  pose proof (reconcile_loop_keys (dated_items s) s.*1 s ∅) as Hk.
  rewrite Hloop in Hk. simpl in Hk.
  intros [Hin _]%filter_keys_elem. rewrite <- Hk. exact Hin.
Qed.

Context `{World}.

Lemma process_rows_NoDup rows : forall st stF,
  process_rows rows st = Ret stF -> NoDup st.2.*1 ->
  NoDup stF.2.*1 /\ (length stF.2 <= length st.2 + length rows)%nat.
Proof.
  induction rows as [|r rows IH]; intros st stF Hrun Hnd.
  - simpl in Hrun. injection Hrun as <-. split; [exact Hnd | simpl; lia].
  - simpl in Hrun. unfold process_row in Hrun at 1.
    destruct (build_item r st.1) as [[it ls]|e]; cbn [res_bind] in Hrun; [|discriminate].
    destruct (IH _ _ Hrun) as [Hnd' Hlen]; [apply merge_item_NoDup, Hnd|].
    split; [exact Hnd'|]. simpl in Hlen |- *.
    pose proof (merge_item_length it st.2). lia.
Qed.

(** X3.  After the rows and after the pass no two records have one key,
    the pass adds no key, and there are no more records than rows. *)
Theorem dataset_keys_unique (rows : list row) (ls ls' : lookup_state)
    (s : list (key * item)) :
  process_rows rows (ls, []) = Ret (ls', s) ->
  NoDup s.*1 /\ NoDup (reconcile s).*1 /\
  (forall k, k ∈ (reconcile s).*1 -> k ∈ s.*1) /\
  (length (reconcile s) <= length s <= length rows)%nat.
Proof.
  intros Hrun.
  destruct (process_rows_NoDup rows (ls, []) (ls', s) Hrun) as [Hnd Hlen]; [constructor|].
  simpl in Hnd, Hlen. split; [exact Hnd|]. split; [apply reconcile_NoDup, Hnd|].
  split; [apply reconcile_keys_subset|]. split; [apply reconcile_length | lia].
Qed.

End LoopFacts.

(** ** What the pass does to a record *)

Lemma adopt_not_inferred it mit :
  date_source (adopt_date it mit) ≠ str "inferred_report_month".
Proof. simpl. discriminate. Qed.

Section PassFacts.
Context `{Runtime}.

Lemma reconcile_step_pass_record s0 s R k :
  NoDup s0.*1 ->
  (forall k' it, store_get k' s = Some it -> pass_record s0 k' it) ->
  forall k' it, store_get k' (reconcile_step (dated_items s0) (s, R) k).1 = Some it ->
                pass_record s0 k' it.
Proof.
  intros Hnd Hinv k' it.
  destruct (reconcile_step_cases (dated_items s0) s R k)
    as [->|(it1 & mk & mit & _ & Hget & Hsrc & _ & Hbest & ->)]; [apply Hinv|].
  destruct (_ <=? _); simpl; [|apply Hinv].
  destruct (decide (k' = k)) as [->|Hne];
    [|rewrite store_get_set_ne by exact Hne; apply Hinv].
  rewrite store_get_set_eq. intros [= <-].
  pose proof (find_best_ok (dated_items s0) s R it1 (py_lower (strip (channel it1)))
                (clean_title (strip (title it1)))) as Hok.
  rewrite Hbest in Hok. destruct Hok as (Hmk & _ & Hgetm & _).
  destruct (Hinv k it1 Hget) as (it0 & Hget0 & [->|(_ & mk' & mit' & _ & _ & ->)]);
    [|exfalso; eapply adopt_not_inferred, Hsrc].
  apply dated_items_elem in Hmk as (m0 & Hin0 & Hd0).
  apply (store_get_NoDup _ _ _ Hnd) in Hin0.
  destruct (Hinv mk mit Hgetm) as (m0' & Hgetm0 & [->|(Hinf & _)]).
  - assert (m0' = m0) by congruence. subst m0'.
    exists it0. split; [exact Hget0|]. right. split; [exact Hsrc|].
    exists mk, m0. auto.
  - assert (m0' = m0) by congruence. subst m0'.
    apply dated_not_inferred in Hd0. contradiction.
Qed.

Lemma reconcile_loop_pass_record s0 ks : forall s R,
  NoDup s0.*1 ->
  (forall k' it, store_get k' s = Some it -> pass_record s0 k' it) ->
  forall k' it, store_get k' (reconcile_loop (dated_items s0) ks (s, R)).1 = Some it ->
                pass_record s0 k' it.
Proof.
  induction ks as [|k ks IH]; intros s R Hnd Hinv; [exact Hinv|].
  rewrite reconcile_loop_cons.
  pose proof (reconcile_step_pass_record s0 s R k Hnd Hinv) as Hstep.
  destruct (reconcile_step (dated_items s0) (s, R) k) as [s' R'].
  apply IH; assumption.
Qed.

(** Every record of the result of the pass is a record of the map, as it
    was or with the date of a candidate. *)
Lemma reconcile_pass_record s k it :
  NoDup s.*1 -> store_get k (reconcile s) = Some it -> pass_record s k it.
Proof.
  intros Hnd. unfold reconcile.
  pose proof (reconcile_loop_pass_record s s.*1 s ∅ Hnd) as Hloop.
  destruct (reconcile_loop (dated_items s) s.*1 (s, ∅)) as [sF RF].
  rewrite store_get_filter. destruct (decide (k ∈ RF)); [discriminate|].
  apply Hloop. intros k' it' Hget. exists it'. auto.
Qed.

(** X4.  The pass changes the date fields and the link of a record and
    nothing else: a record of its result stands in the map under the same
    key with the same channel, type, title, metrics and period. *)
Theorem reconcile_same_content (s : list (key * item)) (k : key) (it : item) :
  NoDup s.*1 ->
  store_get k (reconcile s) = Some it ->
  exists it0, store_get k s = Some it0 /\ same_content it it0.
Proof.
  intros Hnd Hget.
  destruct (reconcile_pass_record s k it Hnd Hget)
    as (it0 & Hget0 & [->|(_ & mk & mit & _ & _ & ->)]);
    exists it0; (split; [exact Hget0|]); repeat split; reflexivity.
Qed.

Context `{World}.

(** The tier that [main] gives a record is one of four. *)
Lemma build_item_tier r ls it ls' :
  build_item r ls = Ret (it, ls') ->
  date_source it ∈ [str "provided"; str "youtube_publish";
                    str "inferred_report_month"; str "unknown"].
Proof.
  intros (d & Hres & _)%build_item_inv. revert Hres. unfold resolve_date.
  destruct (parse_human_date _) as [[d0|]|e]; cbn [res_bind]; [| |discriminate].
  - intros [= _ <- _]. rewrite !elem_of_cons. tauto.
  - destruct (bool_decide _ && negb _).
    + destruct (youtube_publish_date _ ls) as [[yd|] ls1].
      * intros [= _ <- _]. rewrite !elem_of_cons. tauto.
      * destruct (parse_report_month _) as [[rm|]|e];
          cbn [res_bind]; [| |discriminate]; intros [= _ <- _];
          rewrite !elem_of_cons; tauto.
    + destruct (parse_report_month _) as [[rm|]|e];
        cbn [res_bind]; [| |discriminate]; intros [= _ <- _];
        rewrite !elem_of_cons; tauto.
Qed.

Lemma build_item_month r ls it ls' :
  build_item r ls = Ret (it, ls') -> month_of_date it.
Proof.
  intros (d & _ & _ & _ & _ & _ & _ & Hiso & Hmonth)%build_item_inv.
  destruct d as [d|]; [right; exists d | left]; auto.
Qed.

Lemma merge_item_loop_record r ls new ls' s :
  build_item r ls = Ret (new, ls') ->
  (forall k it, store_get k s = Some it -> loop_record it) ->
  forall k it, store_get k (merge_item new s) = Some it -> loop_record it.
Proof.
  intros Hbuild Hinv k it.
  assert (Hnew : loop_record new)
    by (split; [eapply build_item_tier | eapply build_item_month]; exact Hbuild).
  destruct (decide (k = dedup_key new)) as [->|Hne];
    [|rewrite merge_item_other_key by exact Hne; apply Hinv].
  unfold merge_item. destruct (store_get (dedup_key new) s) as [prev|] eqn:Hget.
  - cbv zeta.
    destruct (Z.ltb_spec (date_priority (date_source prev))
                         (date_priority (date_source new))) as [Hlt|_].
    + destruct (_ && _); rewrite store_get_set_eq; intros [= <-]; [|exact Hnew].
      pose proof (date_priority_nonneg (date_source prev)).
      destruct (build_item_dated r ls new ls' Hbuild) as [Hiso Hmonth]; [lia|].
      split; [exact (proj1 Hnew)|]. unfold month_of_date, graft_date. simpl.
      rewrite (or_str_nonempty _ _ Hiso), (or_str_nonempty _ _ Hmonth).
      exact (proj2 Hnew).
    + destruct (_ =? _); [destruct (_ <? _)|];
        rewrite ?store_get_set_eq, ?Hget; intros [= <-];
        try exact Hnew; eapply Hinv, Hget.
  - rewrite store_get_set_eq. intros [= <-]. exact Hnew.
Qed.

Lemma process_rows_loop_record rows : forall st stF,
  process_rows rows st = Ret stF ->
  (forall k it, store_get k st.2 = Some it -> loop_record it) ->
  forall k it, store_get k stF.2 = Some it -> loop_record it.
Proof.
  induction rows as [|r rows IH]; intros st stF Hrun Hinv.
  - simpl in Hrun. injection Hrun as <-. exact Hinv.
  - simpl in Hrun. unfold process_row in Hrun at 1.
    destruct (build_item r st.1) as [[it ls]|e] eqn:Hb; cbn [res_bind] in Hrun;
      [|discriminate].
    apply (IH _ _ Hrun). simpl. eapply merge_item_loop_record; eassumption.
Qed.

Lemma loop_tier_output src :
  src ∈ [str "provided"; str "youtube_publish"; str "inferred_report_month";
         str "unknown"] ->
  src ∈ OUTPUT_TIERS.
Proof. unfold OUTPUT_TIERS. rewrite !elem_of_cons. tauto. Qed.

Lemma dataset_record_tier (rows : list row) (ls ls' : lookup_state)
    (s : list (key * item)) (k : key) (it : item) :
  process_rows rows (ls, []) = Ret (ls', s) ->
  store_get k (reconcile s) = Some it ->
  date_source it ∈ OUTPUT_TIERS /\
  month_of_date it /\
  (store_get k s = Some it ->
   date_source it ∈ [str "provided"; str "youtube_publish";
                     str "inferred_report_month"; str "unknown"]).
Proof.
  intros Hrun Hget.
  destruct (process_rows_NoDup rows (ls, []) (ls', s) Hrun) as [Hnd _]; [constructor|].
  cbn [snd] in Hnd.
  pose proof (process_rows_loop_record rows (ls, []) (ls', s) Hrun) as Hloop.
  simpl in Hloop. specialize (Hloop ltac:(intros ? ? [=])).
  split; [|split].
  - destruct (reconcile_pass_record s k it Hnd Hget)
      as (it0 & Hget0 & [->|(Hinf & mk & mit & Hgetm & Hd & ->)]).
    + apply loop_tier_output. exact (proj1 (Hloop k it0 Hget0)).
    + unfold is_dated in Hd. simpl. unfold OUTPUT_TIERS.
      destruct (bool_decide (date_source mit = str "provided")) eqn:Hp.
      * apply bool_decide_eq_true_1 in Hp. rewrite Hp.
        change (str "matched_" ++ str "provided") with (str "matched_provided").
        rewrite !elem_of_cons. tauto.
      * simpl in Hd. apply bool_decide_eq_true_1 in Hd. rewrite Hd.
        change (str "matched_" ++ str "youtube_publish")
          with (str "matched_youtube_publish").
        rewrite !elem_of_cons. tauto.
  - destruct (reconcile_pass_record s k it Hnd Hget)
      as (it0 & Hget0 & [->|(Hinf & mk & mit & Hgetm & Hd & ->)]).
    + exact (proj2 (Hloop k it0 Hget0)).
    + destruct (Hloop mk mit Hgetm) as [_ Hm]. exact Hm.
  - intros Hsame. exact (proj1 (Hloop k it Hsame)).
Qed.

(** X5.  Every record of the dataset has one of the six tiers, a
    [matched_] tier only if the pass gave the record its date, and its
    month is the month of its date. *)
Theorem dataset_tiers_and_months (rows : list row) (ls ls' : lookup_state)
    (s : list (key * item)) (k : key) (it : item) :
  process_rows rows (ls, []) = Ret (ls', s) ->
  store_get k (reconcile s) = Some it ->
  date_source it ∈ OUTPUT_TIERS /\
  month_of_date it /\
  (store_get k s = Some it ->
   date_source it ∈ [str "provided"; str "youtube_publish";
                     str "inferred_report_month"; str "unknown"]).
Proof. apply dataset_record_tier. Qed.

End PassFacts.

(** ** Dates *)

Lemma mk_date_valid y m d dd :
  mk_date y m d = Ret dd -> dd = Date y m d /\ valid_date dd.
Proof.
  unfold mk_date. destruct (negb _); [discriminate|].
  destruct (_ && _) eqn:Hv; [|discriminate]. intros [= <-].
  split; [reflexivity|]. unfold valid_date. simpl. lia.
Qed.

Lemma mk_date_of_valid d : valid_date d -> mk_date (d_year d) (d_month d) (d_day d) = Ret d.
Proof.
  destruct d as [y m dd]. unfold valid_date, mk_date. simpl. intros (Hy & Hm & Hd).
  assert (Hdim : days_in_month y m <= 31).
  { unfold days_in_month. repeat destruct (_ : bool); lia. }
  replace (fits_c_int y && fits_c_int m && fits_c_int dd) with true
    by (unfold fits_c_int; lia).
  simpl. replace (_ && _) with true by lia. reflexivity.
Qed.

Section DateFacts.
Context `{Runtime}.

(** X6.  A date that [parse_human_date] or [parse_report_month] returns
    is a date of the calendar (year 1 to 9999, a day that the month has),
    the date of a period is the first of its month, and the one exception
    that leaves [parse_human_date] is [OverflowError]. *)
Theorem parsed_dates_valid (s : pystr) :
  (forall d, parse_human_date s = Ret (Some d) -> valid_date d) /\
  (forall d, parse_report_month s = Ret (Some d) -> valid_date d /\ d_day d = 1) /\
  (forall e, parse_human_date s = Raise e -> e = OverflowError).
Proof.
  split; [|split].
  - intros d. unfold parse_human_date.
    destruct (bool_decide (s = [])); [discriminate|].
    destruct (bool_decide (strip s = [])); [discriminate|].
    destruct (split_ws _) as [|p0 [|p1 [|p2 [|]]]]; try discriminate.
    destruct (py_int p0) as [day|]; [|discriminate].
    destruct (dict_get _ MONTHS_MAP) as [m|]; [|discriminate].
    destruct (py_int p2) as [year|]; [|discriminate].
    destruct (mk_date year m day) as [dd|[]] eqn:Hmk; simpl; try discriminate.
    intros [= <-]. apply mk_date_valid in Hmk as [_ Hv]. exact Hv.
  - intros d. unfold parse_report_month.
    destruct (bool_decide (s = [])); [discriminate|].
    destruct (split_ws _) as [|p0 [|p1 [|]]]; try discriminate.
    destruct (py_int p1) as [y|]; [|discriminate].
    destruct (dict_get _ MONTHS_MAP) as [m|]; [|discriminate].
    destruct (mk_date y m 1) as [dd|e] eqn:Hmk; simpl; [|discriminate].
    intros [= <-]. apply mk_date_valid in Hmk as [-> Hv]. split; [exact Hv | reflexivity].
  - intros e. unfold parse_human_date.
    destruct (bool_decide (s = [])); [discriminate|].
    destruct (bool_decide (strip s = [])); [discriminate|].
    destruct (split_ws _) as [|p0 [|p1 [|p2 [|]]]]; try discriminate.
    destruct (py_int p0) as [day|]; [|discriminate].
    destruct (dict_get _ MONTHS_MAP) as [m|]; [|discriminate].
    destruct (py_int p2) as [year|]; [|discriminate].
    destruct (mk_date year m day) as [dd|[]]; simpl; try discriminate.
    intros [= <-]. reflexivity.
Qed.

End DateFacts.

(** *** The text of a date *)

Lemma digits_fuel_length fuel : forall n acc (w : nat),
  0 <= n < 10 ^ Z.of_nat w -> (1 <= w)%nat ->
  (length (digits_fuel fuel n acc) <= w + length acc)%nat.
Proof.
  induction fuel as [|fuel IH]; intros n acc w Hn Hw; simpl; [lia|].
  destruct (Z.ltb_spec n 10) as [Hlt|Hge]; simpl; [lia|].
  destruct w as [|[|w]]; [lia | simpl in Hn; lia |].
  specialize (IH (n / 10) ((48 + n mod 10) :: acc) (S w)). simpl length in IH.
  assert (0 <= n / 10 < 10 ^ Z.of_nat (S w)).
  { split; [apply Z.div_pos; lia|]. apply Z.div_lt_upper_bound; [lia|].
    replace (Z.of_nat (S (S w))) with (Z.of_nat (S w) + 1) in Hn by lia.
    rewrite Z.pow_add_r in Hn by lia. lia. }
  specialize (IH ltac:(assumption) ltac:(lia)). lia.
Qed.

Lemma digits_val_zeros k ds : digits_val (replicate k 48 ++ ds) = digits_val ds.
Proof.
  unfold digits_val. rewrite fold_left_app.
  replace (fold_left _ (replicate k 48) 0) with 0; [reflexivity|].
  induction k as [|k IH]; simpl; [reflexivity | exact IH].
Qed.

(** [f"{n:0wd}"] for a number of at most [w] digits: [w] digits, of value [n]. *)
Lemma format_0d_spec (w : nat) n :
  0 <= n < 10 ^ Z.of_nat w -> (1 <= w)%nat ->
  length (format_0d w n) = w /\ digit_string (format_0d w n) /\
  digits_val (format_0d w n) = n.
Proof.
  intros Hn Hw. unfold format_0d. destruct (Z.ltb_spec n 0); [lia|].
  destruct (digits_of_spec n ltac:(lia)) as (Hds & Hne & Hval).
  pose proof (digits_fuel_length (S (Z.to_nat (Z.log2 n))) n [] w Hn Hw) as Hlen.
  fold (digits_of n) in Hlen. simpl in Hlen. unfold zero_pad.
  split; [|split].
  - rewrite length_app, length_replicate. lia.
  - apply Forall_app. split; [|exact Hds]. apply Forall_replicate. reflexivity.
  - rewrite digits_val_zeros. exact Hval.
Qed.

Lemma digits4_inj a b c d a' b' c' d' :
  digit_string [a; b; c; d] -> digit_string [a'; b'; c'; d'] ->
  digits_val [a; b; c; d] = digits_val [a'; b'; c'; d'] ->
  [a; b; c; d] = [a'; b'; c'; d'].
Proof.
  intros H1 H2. unfold digits_val. simpl.
  repeat match goal with
         | H : digit_string (_ :: _) |- _ => inversion H as [|? ? ?%is_digit_range ?]; subst; clear H
         | H : Forall _ (_ :: _) |- _ => inversion H as [|? ? ?%is_digit_range ?]; subst; clear H
         end.
  intros Heq. repeat f_equal; lia.
Qed.

Lemma digits2_inj a b a' b' :
  digit_string [a; b] -> digit_string [a'; b'] ->
  digits_val [a; b] = digits_val [a'; b'] -> [a; b] = [a'; b'].
Proof.
  intros H1 H2. unfold digits_val. simpl.
  repeat match goal with
         | H : digit_string (_ :: _) |- _ => inversion H as [|? ? ?%is_digit_range ?]; subst; clear H
         | H : Forall _ (_ :: _) |- _ => inversion H as [|? ? ?%is_digit_range ?]; subst; clear H
         end.
  intros Heq. repeat f_equal; lia.
Qed.

Lemma list_length4 (l : list Z) : length l = 4%nat -> exists a b c d, l = [a; b; c; d].
Proof. destruct l as [|a [|b [|c [|d [|]]]]]; try discriminate. eauto. Qed.

Lemma list_length2 (l : list Z) : length l = 2%nat -> exists a b, l = [a; b].
Proof. destruct l as [|a [|b [|]]]; try discriminate. eauto. Qed.

Lemma days_in_month_bound y m : 28 <= days_in_month y m <= 31.
Proof. unfold days_in_month. repeat destruct (_ : bool); lia. Qed.

Lemma fromisoformat_isoformat (d : date) :
  valid_date d -> date_fromisoformat (isoformat d) = Some d.
Proof.
  intros Hv. pose proof Hv as (Hy & Hm & Hd).
  pose proof (days_in_month_bound (d_year d) (d_month d)).
  destruct (format_0d_spec 4 (d_year d)) as (Hly & Hdy & Hvy); [simpl; lia | lia |].
  destruct (format_0d_spec 2 (d_month d)) as (Hlm & Hdm & Hvm); [simpl; lia | lia |].
  destruct (format_0d_spec 2 (d_day d)) as (Hld & Hdd & Hvd); [simpl; lia | lia |].
  unfold isoformat.
  destruct (list_length4 _ Hly) as (y1 & y2 & y3 & y4 & Ey).
  destruct (list_length2 _ Hlm) as (m1 & m2 & Em).
  destruct (list_length2 _ Hld) as (d1 & d2 & Ed).
  rewrite Ey, Em, Ed in *. simpl app. unfold date_fromisoformat.
  replace (forallb is_digit [y1; y2; y3; y4; m1; m2; d1; d2]) with true.
  2:{ symmetry. apply forallb_forall. intros c Hc%list_elem_of_In.
      assert (Hall : digit_string ([y1; y2; y3; y4] ++ [m1; m2] ++ [d1; d2]))
        by (repeat (apply Forall_app; split); assumption).
      exact (proj1 (Forall_forall _ _) Hall c Hc). }
  simpl. rewrite Hvy, Hvm, Hvd, (mk_date_of_valid d Hv). reflexivity.
Qed.

Lemma isoformat_fromisoformat (d : date) (s : pystr) :
  date_fromisoformat s = Some d -> isoformat d = s /\ valid_date d.
Proof.
  unfold date_fromisoformat.
  destruct s as [|y1 [|y2 [|y3 [|y4 [|h1 [|m1 [|m2 [|h2 [|d1 [|d2 [|]]]]]]]]]]];
    try discriminate.
  destruct (forallb is_digit _ && (h1 =? 45) && (h2 =? 45)) eqn:Hok; [|discriminate].
  apply andb_true_iff in Hok as [[Hdig Hh1%Z.eqb_eq]%andb_true_iff Hh2%Z.eqb_eq].
  subst h1 h2.
  assert (Hall : digit_string [y1; y2; y3; y4; m1; m2; d1; d2]).
  { apply Forall_forall. intros c Hc%list_elem_of_In.
    exact (proj1 (forallb_forall _ _) Hdig c Hc). }
  destruct (mk_date _ _ _) as [dd|e] eqn:Hmk; [|discriminate]. intros [= <-].
  apply mk_date_valid in Hmk as [-> Hv]. split; [|exact Hv].
  pose proof Hv as (Hy & Hm & Hd). simpl in Hy, Hm, Hd.
  pose proof (days_in_month_bound (digits_val [y1; y2; y3; y4]) (digits_val [m1; m2])).
  destruct (format_0d_spec 4 (digits_val [y1; y2; y3; y4])) as (Hly & Hdy & Hvy);
    [simpl Z.of_nat; lia | lia |].
  destruct (format_0d_spec 2 (digits_val [m1; m2])) as (Hlm & Hdm & Hvm);
    [simpl Z.of_nat; lia | lia |].
  destruct (format_0d_spec 2 (digits_val [d1; d2])) as (Hld & Hdd & Hvd);
    [simpl Z.of_nat; lia | lia |].
  unfold isoformat. cbn [d_year d_month d_day].
  destruct (list_length4 _ Hly) as (a1 & a2 & a3 & a4 & Ey).
  destruct (list_length2 _ Hlm) as (b1 & b2 & Em).
  destruct (list_length2 _ Hld) as (c1 & c2 & Ed).
  rewrite Ey, Em, Ed in *.
  inversion Hall as [|? ? Hy1 Hall1]; subst.
  inversion Hall1 as [|? ? Hy2 Hall2]; subst.
  inversion Hall2 as [|? ? Hy3 Hall3]; subst.
  inversion Hall3 as [|? ? Hy4 Hall4]; subst.
  inversion Hall4 as [|? ? Hm1 Hall5]; subst.
  inversion Hall5 as [|? ? Hm2 Hall6]; subst.
  assert (HY : digit_string [y1; y2; y3; y4])
    by (repeat (constructor; [assumption|]); constructor).
  assert (HM : digit_string [m1; m2])
    by (repeat (constructor; [assumption|]); constructor).
  rewrite (digits4_inj _ _ _ _ _ _ _ _ Hdy HY Hvy).
  rewrite (digits2_inj _ _ _ _ Hdm HM Hvm).
  rewrite (digits2_inj _ _ _ _ Hdd Hall6 Hvd).
  reflexivity.
Qed.


(** ** The lookup and its cache *)

Section LookupFacts.
Context `{Runtime} `{World}.

(** X8.  Once a lookup has given a date, a lookup of any URL of the same
    canonical form gives that date again, fetches nothing and leaves the
    cache as it is. *)
Theorem lookup_memoized (url url' : pystr) (st st1 : lookup_state) (d : date) :
  youtube_publish_date url st = (Some d, st1) ->
  valid_date d ->
  normalize_youtube_url url' = normalize_youtube_url url ->
  youtube_publish_date url' st1 = (Some d, st1).
Proof.
  intros Hfirst Hv Hnorm. unfold youtube_publish_date in *. rewrite Hnorm.
  destruct (normalize_youtube_url url) as [norm|]; [|discriminate].
  assert (Hhit : cache st1 !! norm ≫= date_fromisoformat = Some d).
  { destruct (cache st !! norm ≫= date_fromisoformat) as [d0|] eqn:Hc.
    - injection Hfirst as <- <-. exact Hc.
    - assert (Hiso : (Some (isoformat d) : option (list Z)) ≫= date_fromisoformat = Some d)
        by (simpl; apply fromisoformat_isoformat, Hv).
      destruct (scrape_publish_date _ norm) as [d1|].
      + injection Hfirst as <- <-. simpl. rewrite lookup_insert_eq. exact Hiso.
      + destruct (ytdlp_upload_date _ norm) as [d2|]; [|discriminate].
        injection Hfirst as <- <-. simpl. rewrite lookup_insert_eq. exact Hiso. }
  rewrite Hhit. reflexivity.
Qed.

(** X9.  A lookup of a URL that names no video does nothing.  Any lookup
    writes to the cache under the canonical form of its URL only, makes
    one fetch at most, and when it finds no date it leaves the empty
    string in the cache. *)
Theorem lookup_frame (url : pystr) (st : lookup_state) :
  let r := youtube_publish_date url st in
  (normalize_youtube_url url = None -> r = (None, st)) /\
  (forall k, normalize_youtube_url url ≠ Some k -> cache r.2 !! k = cache st !! k) /\
  (fetched r.2 = fetched st \/
   exists norm, normalize_youtube_url url = Some norm /\
                fetched r.2 = fetched st ++ [norm]) /\
  (forall norm, normalize_youtube_url url = Some norm -> r.1 = None ->
                cache r.2 !! norm = Some []).
Proof.
  cbv zeta. unfold youtube_publish_date.
  destruct (normalize_youtube_url url) as [norm|]; simpl.
  2:{ repeat split; auto; intros; discriminate. }
  split; [discriminate|].
  destruct (cache st !! norm ≫= date_fromisoformat) as [d0|] eqn:Hc; simpl.
  { split; [reflexivity|]. split; [left; reflexivity|]. discriminate. }
  destruct (scrape_publish_date _ norm) as [d1|]; simpl.
  { split; [intros k Hk; apply lookup_insert_ne; congruence|].
    split; [right; eauto | discriminate]. }
  destruct (ytdlp_upload_date _ norm) as [d2|]; simpl.
  { split; [intros k Hk; apply lookup_insert_ne; congruence|].
    split; [right; eauto | discriminate]. }
  split; [intros k Hk; apply lookup_insert_ne; congruence|].
  split; [right; eauto|]. intros norm' [= <-] _. apply lookup_insert_eq.
Qed.

End LookupFacts.

(** ** Canonical video URLs *)

Lemma clash_starts_with pat s x : clash pat s = true -> starts_with pat (s ++ x) = false.
Proof.
  revert s. induction pat as [|a pat IH]; intros [|b s]; simpl; try discriminate.
  destruct (bool_decide (a = b)); [apply IH | reflexivity].
Qed.

Lemma starts_with_app q y : starts_with q (q ++ y) = true.
Proof.
  induction q as [|a q IH]; [destruct y; reflexivity|].
  simpl. rewrite bool_decide_eq_true_2 by reflexivity. exact IH.
Qed.

Lemma starts_with_elem pat s c : starts_with pat s = true -> c ∈ pat -> c ∈ s.
Proof.
  revert s. induction pat as [|a pat IH]; intros s Hs Hc.
  - apply elem_of_nil in Hc. contradiction.
  - destruct s as [|b s]; [discriminate|]. simpl in Hs.
    apply andb_true_iff in Hs as [->%bool_decide_eq_true_1 Hs].
    apply elem_of_cons in Hc as [->|Hc]; [left | right; apply IH; assumption].
Qed.

Lemma contains_elem pat s c : contains pat s = true -> c ∈ pat -> c ∈ s.
Proof.
  induction s as [|b s IH]; simpl; intros Hs Hc.
  - rewrite orb_false_r in Hs. eapply starts_with_elem; eassumption.
  - apply orb_true_iff in Hs as [Hs|Hs]; [eapply starts_with_elem; eassumption|].
    right. apply IH; assumption.
Qed.

Lemma forallb_seq_shift (f : nat -> bool) a n :
  forallb f (seq (S a) n) = forallb (fun i => f (S i)) (seq a n).
Proof.
  revert a. induction n as [|n IH]; intros a; [reflexivity|].
  simpl. rewrite IH. reflexivity.
Qed.

(** Text in which no place can start [pat], whatever follows. *)
Lemma contains_skip pat p x :
  forallb (fun i => clash pat (drop i p)) (seq 0 (length p)) = true ->
  contains pat (p ++ x) = contains pat x.
Proof.
  induction p as [|c p IH]; [reflexivity|]. simpl length. simpl seq.
  cbn [forallb]. intros [Hc Hrest]%andb_true_iff.
  change ((c :: p) ++ x) with (c :: (p ++ x)). cbn [contains].
  rewrite (clash_starts_with pat (c :: p) x Hc : starts_with pat (c :: p ++ x) = false).
  simpl. apply IH. rewrite forallb_seq_shift in Hrest. exact Hrest.
Qed.

Lemma match_here_clash prefixes s x :
  forallb (fun r => clash r s) prefixes = true -> match_here prefixes (s ++ x) = None.
Proof.
  induction prefixes as [|r rs IH]; [reflexivity|].
  cbn [forallb]. intros [Hr Hrs]%andb_true_iff. simpl.
  rewrite (clash_starts_with r s x Hr). apply IH, Hrs.
Qed.

Lemma re_search_skip prefixes p x :
  forallb (fun i => forallb (fun r => clash r (drop i p)) prefixes) (seq 0 (length p)) = true ->
  re_search prefixes (p ++ x) = re_search prefixes x.
Proof.
  induction p as [|c p IH]; [reflexivity|]. simpl length. simpl seq.
  cbn [forallb]. intros [Hc Hrest]%andb_true_iff.
  change ((c :: p) ++ x) with (c :: (p ++ x)). cbn [re_search].
  rewrite (match_here_clash prefixes (c :: p) x Hc : match_here prefixes (c :: p ++ x) = None).
  apply IH. rewrite forallb_seq_shift in Hrest. exact Hrest.
Qed.

Lemma match_here_hit prefixes q y vid :
  read_id y = Some vid ->
  forallb (fun r => bool_decide (r = q) || clash r q) prefixes = true ->
  q ∈ prefixes ->
  match_here prefixes (q ++ y) = Some vid.
Proof.
  intros Hid. induction prefixes as [|r rs IH]; intros Hall Hin.
  - apply elem_of_nil in Hin. contradiction.
  - cbn [forallb] in Hall. apply andb_true_iff in Hall as [Hr Hrs]. simpl.
    apply orb_true_iff in Hr as [->%bool_decide_eq_true_1|Hr].
    + rewrite starts_with_app, drop_app_length, Hid. reflexivity.
    + rewrite (clash_starts_with r q y Hr). apply IH; [exact Hrs|].
      apply elem_of_cons in Hin as [->|Hin]; [|exact Hin].
      exfalso. clear -Hr. induction r as [|a r IHr]; simpl in Hr; [discriminate|].
      rewrite bool_decide_eq_true_2 in Hr by reflexivity. auto.
Qed.

Lemma re_search_head prefixes s vid :
  match_here prefixes s = Some vid -> re_search prefixes s = Some vid.
Proof. intros Hm. destruct s; simpl; rewrite Hm; reflexivity. Qed.

Lemma take_while_app vid rest :
  Forall (fun c => is_id_char c = true) vid ->
  match rest with [] => True | c :: _ => is_id_char c = false end ->
  take_while is_id_char (vid ++ rest) = vid.
Proof.
  intros Hvid Hrest. induction Hvid as [|c vid Hc _ IH]; simpl.
  - destruct rest as [|c rest]; [reflexivity|]. simpl. rewrite Hrest. reflexivity.
  - rewrite Hc, IH. reflexivity.
Qed.

Lemma read_id_app vid rest :
  video_id vid -> match rest with [] => True | c :: _ => is_id_char c = false end ->
  read_id (vid ++ rest) = Some vid.
Proof.
  intros [Hvid Hlen] Hrest. unfold read_id. rewrite take_while_app by assumption.
  destruct (Nat.leb_spec 6 (length vid)); [reflexivity | lia].
Qed.

Lemma take_while_id s : Forall (fun c => is_id_char c = true) (take_while is_id_char s).
Proof.
  induction s as [|c s IH]; simpl; [constructor|].
  destruct (is_id_char c) eqn:Hc; constructor; assumption.
Qed.

Lemma read_id_video_id s vid : read_id s = Some vid -> video_id vid.
Proof.
  unfold read_id. destruct (Nat.leb_spec 6 (length (take_while is_id_char s))); [|discriminate].
  intros [= <-]. split; [apply take_while_id | assumption].
Qed.

Lemma match_here_video_id prefixes s vid : match_here prefixes s = Some vid -> video_id vid.
Proof.
  induction prefixes as [|r rs IH]; simpl; [discriminate|].
  destruct (starts_with r s).
  - destruct (read_id _) as [v|] eqn:Hid; [intros [= <-]; eapply read_id_video_id, Hid|].
    exact IH.
  - exact IH.
Qed.

Lemma re_search_video_id prefixes s vid : re_search prefixes s = Some vid -> video_id vid.
Proof.
  induction s as [|c s IH]; simpl.
  - destruct (match_here prefixes []) as [v|] eqn:Hm; [|discriminate].
    intros [= <-]. eapply match_here_video_id, Hm.
  - destruct (match_here prefixes (c :: s)) as [v|] eqn:Hm; [|exact IH].
    intros [= <-]. eapply match_here_video_id, Hm.
Qed.

Lemma id_char_not_space c : is_id_char c = true -> py_isspace c = false.
Proof. unfold is_id_char, py_isspace. lia. Qed.

Lemma video_id_no_studio vid rest :
  Forall (fun c => is_id_char c = true) vid -> rest = [] ->
  contains (str "studio.youtube.com") (vid ++ rest) = false.
Proof.
  intros Hvid ->. rewrite app_nil_r.
  destruct (contains _ vid) eqn:Hc; [|reflexivity]. exfalso.
  assert (Hdot : 46 ∈ vid).
  { eapply contains_elem; [exact Hc|]. apply (bool_decide_unpack _). vm_compute. exact I. }
  pose proof (proj1 (Forall_forall _ _) Hvid 46 Hdot) as Hid. discriminate.
Qed.

Lemma starts_with_app_l pat s x : starts_with pat s = true -> starts_with pat (s ++ x) = true.
Proof.
  revert s. induction pat as [|a pat IH]; intros [|b s]; simpl; try discriminate;
    [destruct x | | ]; try reflexivity.
  intros [-> Hs]%andb_true_iff. simpl. apply IH, Hs.
Qed.

Lemma contains_app_l pat s x : contains pat s = true -> contains pat (s ++ x) = true.
Proof.
  induction s as [|c s IH]; simpl.
  - rewrite orb_false_r. intros Hs. destruct pat; [|discriminate].
    destruct x; reflexivity.
  - intros [Hs|Hs]%orb_true_iff.
    + rewrite (starts_with_app_l pat (c :: s) x Hs : starts_with pat (c :: s ++ x) = true).
      reflexivity.
    + rewrite (IH Hs). apply orb_true_r.
Qed.

Section UrlFacts.
Context `{Runtime}.

(** One URL that has a literal [q] of [YOUTUBE_ID_RE] after [pre]. *)
Lemma normalize_watch_shape pre q vid rest :
  video_id vid -> url_tail rest ->
  contains (str "studio.youtube.com") (vid ++ rest) = false ->
  bool_decide (pre ++ q = []) = false ->
  forallb (fun c => negb (py_isspace c)) (pre ++ q) = true ->
  forallb (fun i => clash (str "studio.youtube.com") (drop i (pre ++ q)))
          (seq 0 (length (pre ++ q))) = true ->
  forallb (fun i => forallb (fun r => clash r (drop i pre)) YOUTUBE_ID_RE)
          (seq 0 (length pre)) = true ->
  forallb (fun r => bool_decide (r = q) || clash r q) YOUTUBE_ID_RE = true ->
  q ∈ YOUTUBE_ID_RE ->
  normalize_youtube_url ((pre ++ q) ++ vid ++ rest) = Some (watch_url vid).
Proof.
  intros Hvid [Hhead Htail] Hstudio Hne Hsp Hskip Hpre Hq Hin.
  unfold normalize_youtube_url.
  assert (Hu : (pre ++ q) ++ vid ++ rest ≠ []).
  { apply bool_decide_eq_false_1 in Hne. intros [? _]%app_eq_nil. contradiction. }
  rewrite (bool_decide_eq_false_2 _ Hu).
  assert (Hstrip : strip ((pre ++ q) ++ vid ++ rest) = (pre ++ q) ++ vid ++ rest).
  { apply strip_by_clean. apply Forall_app; split; [|apply Forall_app; split].
    - apply Forall_forall. intros c Hc%list_elem_of_In.
      pose proof (proj1 (forallb_forall _ _) Hsp c Hc) as Hn.
      apply negb_true_iff in Hn. exact Hn.
    - eapply Forall_impl; [exact (proj1 Hvid)|]. apply id_char_not_space.
    - exact Htail. }
  rewrite Hstrip, (bool_decide_eq_false_2 _ Hu).
  rewrite contains_skip by exact Hskip. rewrite Hstudio.
  rewrite <- (app_assoc pre q).
  rewrite re_search_skip by exact Hpre.
  rewrite (re_search_head YOUTUBE_ID_RE (q ++ vid ++ rest) vid); [reflexivity|].
  apply match_here_hit; [|exact Hq | exact Hin].
  apply read_id_app; assumption.
Qed.

(** One URL of the studio form. *)
Lemma normalize_studio_shape pre q vid rest :
  video_id vid -> url_tail rest ->
  bool_decide (pre ++ q = []) = false ->
  forallb (fun c => negb (py_isspace c)) (pre ++ q) = true ->
  contains (str "studio.youtube.com") (pre ++ q) = true ->
  forallb (fun i => forallb (fun r => clash r (drop i pre)) STUDIO_ID_RE)
          (seq 0 (length pre)) = true ->
  q ∈ STUDIO_ID_RE ->
  normalize_youtube_url ((pre ++ q) ++ vid ++ rest) = Some (watch_url vid).
Proof.
  intros Hvid [Hhead Htail] Hne Hsp Hstudio Hpre Hin.
  unfold normalize_youtube_url.
  assert (Hu : (pre ++ q) ++ vid ++ rest ≠ []).
  { apply bool_decide_eq_false_1 in Hne. intros [? _]%app_eq_nil. contradiction. }
  rewrite (bool_decide_eq_false_2 _ Hu).
  assert (Hstrip : strip ((pre ++ q) ++ vid ++ rest) = (pre ++ q) ++ vid ++ rest).
  { apply strip_by_clean. apply Forall_app; split; [|apply Forall_app; split].
    - apply Forall_forall. intros c Hc%list_elem_of_In.
      pose proof (proj1 (forallb_forall _ _) Hsp c Hc) as Hn.
      apply negb_true_iff in Hn. exact Hn.
    - eapply Forall_impl; [exact (proj1 Hvid)|]. apply id_char_not_space.
    - exact Htail. }
  rewrite Hstrip, (bool_decide_eq_false_2 _ Hu).
  rewrite contains_app_l by exact Hstudio.
  rewrite <- (app_assoc pre q).
  rewrite re_search_skip by exact Hpre.
  rewrite (re_search_head STUDIO_ID_RE (q ++ vid ++ rest) vid); [reflexivity|].
  assert (Hq : q = str "studio.youtube.com/video/")
    by (unfold STUDIO_ID_RE in Hin; apply list_elem_of_singleton in Hin; exact Hin).
  apply match_here_hit; [|rewrite Hq; reflexivity | exact Hin].
  apply read_id_app; assumption.
Qed.

Lemma normalize_video_url u vid :
  video_id vid -> url_of_video u vid -> normalize_youtube_url u = Some (watch_url vid).
Proof.
  intros Hvid (p & rest & Hp & Hrest & Hst & ->).
  unfold VIDEO_URL_SHAPES in Hp. rewrite !elem_of_cons in Hp.
  destruct Hp as [->|[->|[->|[->|[->|Hp]]]]]; [| | | | |apply elem_of_nil in Hp; contradiction].
  - destruct Hst as [Hst|Hst]; [vm_compute in Hst; discriminate|].
    change (str "https://youtu.be/") with (str "https://" ++ str "youtu.be/").
    apply normalize_watch_shape; try assumption; try (vm_compute; reflexivity).
    apply (bool_decide_unpack _). vm_compute. exact I.
  - destruct Hst as [Hst|Hst]; [vm_compute in Hst; discriminate|].
    change (str "https://www.youtube.com/watch?v=")
      with (str "https://www." ++ str "youtube.com/watch?v=").
    apply normalize_watch_shape; try assumption; try (vm_compute; reflexivity).
    apply (bool_decide_unpack _). vm_compute. exact I.
  - destruct Hst as [Hst|Hst]; [vm_compute in Hst; discriminate|].
    change (str "https://www.youtube.com/shorts/")
      with (str "https://www." ++ str "youtube.com/shorts/").
    apply normalize_watch_shape; try assumption; try (vm_compute; reflexivity).
    apply (bool_decide_unpack _). vm_compute. exact I.
  - destruct Hst as [Hst|Hst]; [vm_compute in Hst; discriminate|].
    change (str "https://www.youtube.com/embed/")
      with (str "https://www." ++ str "youtube.com/embed/").
    apply normalize_watch_shape; try assumption; try (vm_compute; reflexivity).
    apply (bool_decide_unpack _). vm_compute. exact I.
  - change (str "https://studio.youtube.com/video/")
      with (str "https://" ++ str "studio.youtube.com/video/").
    apply normalize_studio_shape; try assumption; try (vm_compute; reflexivity).
    apply (bool_decide_unpack _). vm_compute. exact I.
Qed.

Lemma watch_url_video_url vid :
  video_id vid -> url_of_video (watch_url vid) vid.
Proof.
  intros Hvid. exists (str "https://www.youtube.com/watch?v="), [].
  split; [apply (bool_decide_unpack _); vm_compute; exact I|].
  split; [split; [exact I | constructor]|].
  split; [right; apply video_id_no_studio; [exact (proj1 Hvid) | reflexivity]|].
  unfold watch_url. rewrite app_nil_r. reflexivity.
Qed.

(** X10.  The five forms of the URL of one video, whatever follows the
    identifier, all normalize to the watch URL of that video. *)
Theorem normalize_shapes (u vid : pystr) :
  video_id vid -> url_of_video u vid ->
  normalize_youtube_url u = Some (watch_url vid).
Proof. apply normalize_video_url. Qed.

(** X11.  A canonical URL that the two expressions gave is its own
    canonical URL. *)
Theorem normalize_idempotent (url n : pystr) :
  normalize_youtube_url url = Some n ->
  urlparse_watch_v (strip url) = None ->
  normalize_youtube_url n = Some n.
Proof.
  intros Hn Hfall.
  assert (exists vid, video_id vid /\ n = watch_url vid) as (vid & Hvid & ->).
  { revert Hn. unfold normalize_youtube_url.
    destruct (bool_decide (url = [])); [discriminate|].
    destruct (bool_decide (strip url = [])); [discriminate|].
    destruct (contains _ (strip url)).
    - destruct (re_search STUDIO_ID_RE (strip url)) as [vid|] eqn:Hs; [|discriminate].
      intros [= <-]. exists vid. split; [eapply re_search_video_id, Hs | reflexivity].
    - destruct (re_search YOUTUBE_ID_RE (strip url)) as [vid|] eqn:Hs.
      + intros [= <-]. exists vid. split; [eapply re_search_video_id, Hs | reflexivity].
      + rewrite Hfall. discriminate. }
  apply normalize_video_url; [exact Hvid | apply watch_url_video_url, Hvid].
Qed.

(** X12.  The key of a YouTube record holds the canonical URL of its
    video and not its date, so records of one video whose links are of
    different forms have one key. *)
Theorem dedup_key_video (it : item) (vid : pystr) :
  py_lower (strip (channel it)) = str "youtube" ->
  video_id vid -> url_of_video (strip (link it)) vid ->
  dedup_key it = [strip (channel it); strip (dtype it); strip (title it); watch_url vid].
Proof.
  intros Hch Hvid Hurl.
  assert (Hnl : norm_link it = watch_url vid).
  { unfold norm_link. rewrite (bool_decide_eq_true_2 _ Hch).
    destruct (bool_decide (strip (link it) = [])) eqn:He.
    - apply bool_decide_eq_true_1 in He. rewrite He in Hurl.
      destruct Hurl as (p & rest & Hp & _ & _ & Hu). exfalso.
      unfold VIDEO_URL_SHAPES in Hp. rewrite !elem_of_cons in Hp.
      destruct Hp as [->|[->|[->|[->|[->|Hp]]]]]; try discriminate.
      apply elem_of_nil in Hp. exact Hp.
    - simpl. rewrite (normalize_video_url _ vid Hvid Hurl). reflexivity. }
  unfold dedup_key. rewrite Hnl. reflexivity.
Qed.

End UrlFacts.

(** ** The months of the report *)

Lemma month_range_loop_unfold fuel y m ey em :
  month_range_loop fuel y m ey em =
  if (y <? ey) || ((y =? ey) && (m <=? em)) then
    match fuel with
    | O => None
    | S f =>
        match (if m + 1 =? 13 then month_range_loop f (y + 1) 1 ey em
               else month_range_loop f y (m + 1) ey em) with
        | Some out => Some (format_ym y m :: out)
        | None => None
        end
    end
  else Some [].
Proof. destruct fuel; reflexivity. Qed.

Lemma month_le_iff y m ey em :
  1 <= m <= 12 -> 1 <= em <= 12 ->
  (y <? ey) || ((y =? ey) && (m <=? em)) = true <-> y * 12 + m <= ey * 12 + em.
Proof.
  intros Hm Hem. rewrite orb_true_iff, andb_true_iff.
  rewrite Z.ltb_lt, Z.eqb_eq, Z.leb_le. lia.
Qed.

Lemma nth_month_0 y m : 1 <= m <= 12 -> nth_month y m 0 = format_ym y m.
Proof.
  intros Hm. unfold nth_month. cbn zeta.
  replace (y * 12 + (m - 1) + Z.of_nat 0) with ((m - 1) + y * 12) by lia.
  rewrite Z.div_add, Z.mod_add by lia.
  rewrite Z.div_small, Z.mod_small by lia.
  replace (0 + y) with y by lia. replace (m - 1 + 1) with m by lia. reflexivity.
Qed.

Lemma nth_month_S y m y' m' i :
  y' * 12 + m' = y * 12 + m + 1 ->
  nth_month y' m' i = nth_month y m (S i).
Proof.
  intros He. unfold nth_month. cbn zeta.
  replace (y' * 12 + (m' - 1) + Z.of_nat i)
    with (y * 12 + (m - 1) + Z.of_nat (S i)) by lia.
  reflexivity.
Qed.

Lemma month_range_loop_closed fuel : forall y m ey em,
  1 <= m <= 12 -> 1 <= em <= 12 ->
  (months_between y m ey em <= fuel)%nat ->
  month_range_loop fuel y m ey em
  = Some (nth_month y m <$> seq 0 (months_between y m ey em)).
Proof.
  induction fuel as [|f IH]; intros y m ey em Hm Hem Hf.
  - rewrite month_range_loop_unfold.
    destruct ((y <? ey) || ((y =? ey) && (m <=? em))) eqn:Hc.
    + apply month_le_iff in Hc; [|lia|lia]. unfold months_between in Hf. lia.
    + assert (months_between y m ey em = 0%nat) as ->; [|reflexivity].
      assert (~ y * 12 + m <= ey * 12 + em).
      { intros Hle. apply (month_le_iff y m ey em Hm Hem) in Hle. congruence. }
      unfold months_between. lia.
  - rewrite month_range_loop_unfold.
    destruct ((y <? ey) || ((y =? ey) && (m <=? em))) eqn:Hc.
    + apply month_le_iff in Hc; [|lia|lia].
      assert (exists n, months_between y m ey em = S n) as [n Hn].
      { exists (Z.to_nat (ey * 12 + em - (y * 12 + m))). unfold months_between. lia. }
      rewrite Hn. cbn [seq fmap list_fmap].
      rewrite <- fmap_S_seq, <- list_fmap_compose.
      rewrite nth_month_0 by exact Hm.
      destruct (m + 1 =? 13) eqn:H13.
      * apply Z.eqb_eq in H13.
        rewrite (IH (y + 1) 1 ey em) by (unfold months_between in *; lia).
        assert (months_between (y + 1) 1 ey em = n) as ->
          by (unfold months_between in *; lia).
        f_equal. f_equal. apply list_fmap_ext. intros _ i _. simpl.
        apply nth_month_S. lia.
      * apply Z.eqb_neq in H13.
        rewrite (IH y (m + 1) ey em) by (unfold months_between in *; lia).
        assert (months_between y (m + 1) ey em = n) as ->
          by (unfold months_between in *; lia).
        f_equal. f_equal. apply list_fmap_ext. intros _ i _. simpl.
        apply nth_month_S. lia.
    + assert (months_between y m ey em = 0%nat) as ->; [|reflexivity].
      assert (~ y * 12 + m <= ey * 12 + em).
      { intros Hle. apply (month_le_iff y m ey em Hm Hem) in Hle. congruence. }
      unfold months_between. lia.
Qed.

Lemma month_range_loop_diverges fuel : forall y m ey em,
  13 <= m -> y < ey -> month_range_loop fuel y m ey em = None.
Proof.
  induction fuel as [|f IH]; intros y m ey em Hm Hy;
    rewrite month_range_loop_unfold;
    (assert ((y <? ey) = true) as -> by (apply Z.ltb_lt; lia)); cbn [orb].
  - reflexivity.
  - assert ((m + 1 =? 13) = false) as -> by (apply Z.eqb_neq; lia).
    rewrite IH by lia. reflexivity.
Qed.

(** The loop ends from a month up to 12: a year takes twelve turns at
    most. *)
Lemma month_range_loop_ends_low fuel : forall y m ey em,
  m <= 12 ->
  (Z.to_nat (12 * (ey + 1 - y) + (13 - m)) <= fuel)%nat ->
  exists out, month_range_loop fuel y m ey em = Some out.
Proof.
  induction fuel as [|f IH]; intros y m ey em Hm Hf;
    rewrite month_range_loop_unfold;
    destruct ((y <? ey) || ((y =? ey) && (m <=? em))) eqn:Hc; eauto.
  - exfalso. rewrite orb_true_iff, andb_true_iff in Hc.
    rewrite Z.ltb_lt, Z.eqb_eq, Z.leb_le in Hc. lia.
  - rewrite orb_true_iff, andb_true_iff in Hc.
    rewrite Z.ltb_lt, Z.eqb_eq, Z.leb_le in Hc.
    destruct (m + 1 =? 13) eqn:H13.
    + apply Z.eqb_eq in H13.
      destruct (IH (y + 1) 1 ey em) as [out ->]; [lia|lia|]. eauto.
    + apply Z.eqb_neq in H13.
      destruct (IH y (m + 1) ey em) as [out ->]; [lia|lia|]. eauto.
Qed.

(** From a month after 12 the loop ends when the year is the last one or
    a later one. *)
Lemma month_range_loop_ends_high fuel : forall y m ey em,
  13 <= m -> ey <= y ->
  (Z.to_nat (em - m + 1) <= fuel)%nat ->
  exists out, month_range_loop fuel y m ey em = Some out.
Proof.
  induction fuel as [|f IH]; intros y m ey em Hm Hy Hf;
    rewrite month_range_loop_unfold;
    destruct ((y <? ey) || ((y =? ey) && (m <=? em))) eqn:Hc; eauto.
  - exfalso. rewrite orb_true_iff, andb_true_iff in Hc.
    rewrite Z.ltb_lt, Z.eqb_eq, Z.leb_le in Hc. lia.
  - rewrite orb_true_iff, andb_true_iff in Hc.
    rewrite Z.ltb_lt, Z.eqb_eq, Z.leb_le in Hc.
    assert ((m + 1 =? 13) = false) as -> by (apply Z.eqb_neq; lia).
    destruct (IH y (m + 1) ey em) as [out ->]; [lia|lia|lia|]. eauto.
Qed.

Section MonthFacts.
Context `{Runtime}.

(** X13.  Between two months written with a month number from 1 to 12,
    [month_range] returns every month from the first to the last, in
    order, and the empty list when the first is after the last. *)
Theorem month_range_closed_form (fuel : nat) (s e : pystr) (sy sm ey em : Z) :
  parse_ym s = Some (sy, sm) -> parse_ym e = Some (ey, em) ->
  1 <= sm <= 12 -> 1 <= em <= 12 ->
  (months_between sy sm ey em <= fuel)%nat ->
  month_range fuel s e
  = Ret (Some (nth_month sy sm <$> seq 0 (months_between sy sm ey em))).
Proof.
  intros Hs He Hsm Hem Hf. unfold month_range. rewrite Hs, He.
  rewrite month_range_loop_closed by assumption. reflexivity.
Qed.

(** X14.  The loop of [month_range] ends unless the first month number
    is over 12 and the first year is before the last: then the month
    number never becomes 13 again and the year never moves. *)
Theorem month_range_ends_iff (y m ey em : Z) :
  (exists fuel out, month_range_loop fuel y m ey em = Some out)
  <-> ~ (13 <= m /\ y < ey).
Proof.
  split.
  - intros (fuel & out & Hr) [Hm Hy].
    rewrite month_range_loop_diverges in Hr by assumption. discriminate.
  - intros Hn. destruct (Z_le_gt_dec m 12) as [Hm|Hm].
    + exists (Z.to_nat (12 * (ey + 1 - y) + (13 - m))).
      apply month_range_loop_ends_low; [exact Hm | lia].
    + exists (Z.to_nat (em - m + 1)).
      apply month_range_loop_ends_high; [lia | lia | lia].
Qed.

End MonthFacts.

(** ** Fallback links *)

Lemma platform_link_nonblank k v :
  dict_get k PLATFORM_LINKS = Some v -> v <> [] /\ strip v <> [].
Proof.
  unfold PLATFORM_LINKS. cbn [dict_get].
  repeat (destruct (bool_decide _); [intros [= <-]; split; vm_compute; discriminate|]).
  discriminate.
Qed.

Lemma set_link_same it : set_link it (link it) = it.
Proof. destruct it; reflexivity. Qed.

Section LinkFacts.
Context `{Runtime}.

Lemma fallback_link_facts (it : item) :
  link_type (fallback_link it) ∈ [str "direct"; str "platform"; str "none"] /\
  li_item (fallback_link it) = set_link it (link (li_item (fallback_link it))) /\
  (link_type (fallback_link it) = str "none"
   <-> strip (link (li_item (fallback_link it))) = []) /\
  (strip (link it) <> [] -> fallback_link it = Linked it (str "direct")).
Proof.
  unfold fallback_link.
  destruct (bool_decide (strip (link it) = [])) eqn:Hl; cbn [negb].
  - apply bool_decide_eq_true_1 in Hl.
    destruct (dict_get (py_lower (strip (channel it))) PLATFORM_LINKS) as [v|] eqn:Hd;
      cbn [default].
    + destruct (platform_link_nonblank _ _ Hd) as [Hv Hsv].
      rewrite (bool_decide_eq_false_2 _ Hv). cbn [negb link_type li_item].
      split; [rewrite !elem_of_cons; tauto|].
      split; [reflexivity|].
      split; [|congruence].
      cbn [set_link link]. split; [intros Hx; vm_compute in Hx; discriminate|].
      intros Hx. contradiction.
    + rewrite (bool_decide_eq_true_2 _ eq_refl). cbn [negb link_type li_item].
      split; [rewrite !elem_of_cons; tauto|].
      split; [symmetry; apply set_link_same|].
      split; [tauto | congruence].
  - apply bool_decide_eq_false_1 in Hl. cbn [link_type li_item].
    split; [rewrite !elem_of_cons; tauto|].
    split; [symmetry; apply set_link_same|].
    split; [|reflexivity].
    split; [intros Hx; vm_compute in Hx; discriminate | intros Hx; contradiction].
Qed.

(** X15.  Every record gets one of three link types; only its link can
    change; its link is blank exactly when its link type is none; and a
    record that had a link is left as it was. *)
Theorem fallback_link_spec (it : item) :
  link_type (fallback_link it) ∈ [str "direct"; str "platform"; str "none"] /\
  li_item (fallback_link it) = set_link it (link (li_item (fallback_link it))) /\
  (link_type (fallback_link it) = str "none"
   <-> strip (link (li_item (fallback_link it))) = []) /\
  (strip (link it) <> [] -> fallback_link it = Linked it (str "direct")).
Proof. apply fallback_link_facts. Qed.

End LinkFacts.

(** ** The order of the output *)

Lemma str_lt_trans a : forall b c,
  str_lt a b = true -> str_lt b c = true -> str_lt a c = true.
Proof.
  induction a as [|x a IH]; intros [|y b] [|z c]; cbn [str_lt]; try discriminate;
    try reflexivity.
  rewrite !orb_true_iff, !andb_true_iff, !Z.ltb_lt, !Z.eqb_eq.
  intros [H1|[H1 H1']] [H2|[H2 H2']]; try (left; lia).
  right. split; [lia|]. eapply IH; eassumption.
Qed.

Lemma str_lt_irrefl a : str_lt a a = false.
Proof.
  induction a as [|x a IH]; cbn [str_lt]; [reflexivity|].
  rewrite IH, Z.ltb_irrefl, andb_false_r. reflexivity.
Qed.

Lemma key_lt_irrefl k : key_lt k k = false.
Proof.
  destruct k as [[a b] c]. unfold key_lt.
  rewrite !str_lt_irrefl. rewrite !andb_false_r. reflexivity.
Qed.

Lemma key_lt_trans a b c :
  key_lt a b = true -> key_lt b c = true -> key_lt a c = true.
Proof.
  destruct a as [[a1 a2] a3], b as [[b1 b2] b3], c as [[c1 c2] c3].
  unfold key_lt.
  rewrite !orb_true_iff, !andb_true_iff, !orb_true_iff, !andb_true_iff,
    !bool_decide_eq_true.
  intros [H1|[-> H1]] [H2|[-> H2]].
  - left. eapply str_lt_trans; eassumption.
  - left. exact H1.
  - left. exact H2.
  - right. split; [reflexivity|].
    destruct H1 as [H1|[-> H1]], H2 as [H2|[-> H2]].
    + left. eapply str_lt_trans; eassumption.
    + left. exact H1.
    + left. exact H2.
    + right. split; [reflexivity|]. eapply str_lt_trans; eassumption.
Qed.

Lemma key_lt_asym a b : key_lt a b = true -> key_lt b a = false.
Proof.
  intros Hab. destruct (key_lt b a) eqn:Hba; [|reflexivity].
  pose proof (key_lt_trans _ _ _ Hab Hba) as Haa.
  rewrite key_lt_irrefl in Haa. discriminate.
Qed.

Lemma sort_insert_perm x l : sort_insert x l ≡ₚ x :: l.
Proof.
  induction l as [|y l IH]; cbn [sort_insert]; [reflexivity|].
  destruct (key_lt _ _); [reflexivity|].
  rewrite IH. apply Permutation_swap.
Qed.

Lemma sort_fold_perm l : forall acc,
  fold_left (fun acc x => sort_insert x acc) l acc ≡ₚ acc ++ l.
Proof.
  induction l as [|x l IH]; intros acc; cbn [fold_left].
  - rewrite app_nil_r. reflexivity.
  - rewrite IH, sort_insert_perm. apply Permutation_middle.
Qed.

Lemma sort_insert_ordered x l : ordered l -> ordered (sort_insert x l).
Proof.
  induction l as [|y l IH]; cbn [sort_insert ordered].
  - intros _. split; [constructor | exact I].
  - intros [Hall Hl].
    destruct (key_lt (sort_key (li_item x)) (sort_key (li_item y))) eqn:Hxy;
      cbn [ordered].
    + split; [|split; assumption].
      constructor; [apply key_lt_asym, Hxy|].
      eapply Forall_impl; [exact Hall|]. intros z Hz. unfold not_after in *.
      destruct (key_lt (sort_key (li_item z)) (sort_key (li_item x))) eqn:Hzx;
        [|reflexivity].
      rewrite (key_lt_trans _ _ _ Hzx Hxy) in Hz. discriminate.
    + split; [|apply IH, Hl].
      rewrite sort_insert_perm. constructor; [exact Hxy | exact Hall].
Qed.

Lemma with_key_none k l :
  Forall (fun z => sort_key (li_item z) <> k) l -> with_key k l = [].
Proof.
  unfold with_key. induction 1 as [|z l Hz _ IH]; [reflexivity|].
  rewrite filter_cons, IH. destruct (decide (sort_key (li_item z) = k)); [contradiction|reflexivity].
Qed.

Lemma sort_insert_with_key k x l :
  ordered l -> with_key k (sort_insert x l) = with_key k l ++ with_key k [x].
Proof.
  unfold with_key.
  induction l as [|y l IH]; cbn [sort_insert ordered].
  - intros _. reflexivity.
  - intros [Hall Hl].
    destruct (key_lt (sort_key (li_item x)) (sort_key (li_item y))) eqn:Hxy.
    + rewrite (filter_cons _ x), (filter_cons _ x []), filter_nil.
      destruct (decide (sort_key (li_item x) = k)) as [Hk|Hk];
        [|rewrite app_nil_r; reflexivity].
      assert (Hnone : filter (fun z => sort_key (li_item z) = k) (y :: l) = []).
      { change (with_key k (y :: l) = []). apply with_key_none. constructor.
        - intros Hy. rewrite Hk, Hy, key_lt_irrefl in Hxy. discriminate.
        - eapply Forall_impl; [exact Hall|]. intros z Hz Hzk. unfold not_after in Hz.
          rewrite Hzk in Hz. rewrite Hk in Hxy. congruence. }
      rewrite Hnone. reflexivity.
    + rewrite (filter_cons _ y), (filter_cons _ y l), (IH Hl).
      destruct (decide (sort_key (li_item y) = k)); reflexivity.
Qed.

Lemma sort_fold_spec k l : forall acc,
  ordered acc ->
  ordered (fold_left (fun acc x => sort_insert x acc) l acc) /\
  with_key k (fold_left (fun acc x => sort_insert x acc) l acc)
  = with_key k acc ++ with_key k l.
Proof.
  induction l as [|x l IH]; intros acc Hacc; cbn [fold_left].
  - split; [exact Hacc|]. unfold with_key. rewrite filter_nil, app_nil_r. reflexivity.
  - destruct (IH (sort_insert x acc) (sort_insert_ordered x acc Hacc)) as [Ho Hk].
    split; [exact Ho|]. rewrite Hk, sort_insert_with_key by exact Hacc.
    rewrite <- app_assoc. f_equal. unfold with_key.
    rewrite (filter_cons _ x l), (filter_cons _ x []), filter_nil.
    destruct (decide (sort_key (li_item x) = k)); reflexivity.
Qed.

Lemma ordered_lookup l : forall i j a b,
  ordered l -> (i < j)%nat -> l !! i = Some a -> l !! j = Some b -> not_after a b.
Proof.
  induction l as [|x l IH]; intros i j a b Ho Hij Ha Hb; [discriminate|].
  destruct Ho as [Hall Ho]. destruct j as [|j]; [lia|].
  destruct i as [|i]; cbn in Ha, Hb.
  - injection Ha as <-. rewrite Forall_lookup in Hall. eapply Hall, Hb.
  - eapply (IH i j); [exact Ho | lia | exact Ha | exact Hb].
Qed.

(** X16.  The sorted list has the records of the list and no others, none
    of them before an earlier one, and those of one sort key in the order
    they had: it is the stable sort of the list. *)
Theorem sort_items_stable_sort (l : list linked) :
  sort_items l ≡ₚ l /\
  (forall i j a b, (i < j)%nat ->
     sort_items l !! i = Some a -> sort_items l !! j = Some b ->
     key_lt (sort_key (li_item b)) (sort_key (li_item a)) = false) /\
  (forall k, with_key k (sort_items l) = with_key k l).
Proof.
  unfold sort_items. split; [|split].
  - rewrite sort_fold_perm. reflexivity.
  - intros i j a b Hij Ha Hb.
    destruct (sort_fold_spec (sort_key (li_item a)) l [] I) as [Ho _].
    exact (ordered_lookup _ i j a b Ho Hij Ha Hb).
  - intros k. destruct (sort_fold_spec k l [] I) as [_ Hk]. exact Hk.
Qed.

Lemma iso_before_sentinel d :
  valid_date d -> str_lt (isoformat d) (str "9999-99-99") = true.
Proof.
  intros (Hy & Hm & Hd). unfold isoformat.
  destruct (format_0d_spec 4 (d_year d)) as (Hl4 & Hd4 & _); [lia|lia|].
  destruct (list_length4 _ Hl4) as (a & b & c & e & Hy4). rewrite Hy4 in *.
  assert (Hm2 : exists m2, format_0d 2 (d_month d) = [48; m2] \/
                           format_0d 2 (d_month d) = [49; m2]).
  { assert (Hcases : d_month d = 1 \/ d_month d = 2 \/ d_month d = 3 \/ d_month d = 4
                     \/ d_month d = 5 \/ d_month d = 6 \/ d_month d = 7 \/ d_month d = 8
                     \/ d_month d = 9 \/ d_month d = 10 \/ d_month d = 11
                     \/ d_month d = 12) by lia.
    repeat (destruct Hcases as [->|Hcases]; [eexists; vm_compute; eauto|]).
    rewrite Hcases. eexists; vm_compute; eauto. }
  destruct Hm2 as [m2 Hm2].
  unfold digit_string in Hd4. rewrite !Forall_cons, !is_digit_range in Hd4.
  destruct Hd4 as (Ha & Hb & Hc & He & _).
  assert (Hstep : forall x s t, x <= 57 ->
            str_lt s t = true -> str_lt (x :: s) (57 :: t) = true).
  { intros x s t Hx Hs. cbn [str_lt]. rewrite Hs, andb_true_r.
    apply orb_true_iff. rewrite Z.ltb_lt, Z.eqb_eq. lia. }
  change (str "9999-99-99") with [57; 57; 57; 57; 45; 57; 57; 45; 57; 57].
  cbn [app]. do 4 (apply Hstep; [lia|]).
  cbn [str_lt]. rewrite Z.ltb_irrefl, Z.eqb_refl. cbn [orb andb].
  destruct Hm2 as [->| ->]; reflexivity.
Qed.

(** X17.  In the sorted list no record without a date is before a record
    with a date. *)
Theorem undated_records_last (l : list linked) (i j : nat) (a b : linked) (d : date) :
  sort_items l !! i = Some a -> sort_items l !! j = Some b ->
  valid_date d -> date_iso (li_item a) = isoformat d ->
  date_iso (li_item b) = [] ->
  (i < j)%nat.
Proof.
  intros Ha Hb Hd Hia Hib.
  destruct (lt_eq_lt_dec i j) as [[Hlt|Heq]|Hgt]; [exact Hlt| |].
  - subst j. rewrite Ha in Hb. injection Hb as <-. rewrite Hia in Hib.
    exfalso. exact (isoformat_nonempty d Hib).
  - exfalso.
    destruct (sort_fold_spec (sort_key (li_item a)) l [] I) as [Ho _].
    pose proof (ordered_lookup _ j i b a Ho Hgt Hb Ha) as Hn.
    unfold not_after, sort_key, key_lt in Hn.
    unfold or_str in Hn. rewrite Hib in Hn.
    rewrite (bool_decide_eq_true_2 ([] = []) eq_refl) in Hn.
    rewrite Hia, (bool_decide_eq_false_2 _ (isoformat_nonempty d)) in Hn.
    rewrite (iso_before_sentinel d Hd) in Hn. discriminate.
Qed.

(** ** Aggregates *)

Lemma dict_get_set_eq {V} k (v : V) d : dict_get k (dict_set k v d) = Some v.
Proof.
  induction d as [|[k' v'] d IH]; cbn [dict_set dict_get].
  - rewrite (bool_decide_eq_true_2 _ eq_refl). reflexivity.
  - destruct (bool_decide (k' = k)) eqn:Hk; cbn [dict_get]; rewrite Hk;
      [reflexivity | exact IH].
Qed.

Lemma dict_get_set_ne {V} k k' (v : V) d :
  k <> k' -> dict_get k' (dict_set k v d) = dict_get k' d.
Proof.
  intros Hne. induction d as [|[k0 v0] d IH]; cbn [dict_set dict_get].
  - rewrite (bool_decide_eq_false_2 _ Hne). reflexivity.
  - destruct (bool_decide (k0 = k)) eqn:Hk; cbn [dict_get].
    + apply bool_decide_eq_true_1 in Hk. subst k0.
      rewrite (bool_decide_eq_false_2 _ Hne). reflexivity.
    + rewrite IH. reflexivity.
Qed.

Lemma add_metric_default total v : add_metric total v = total + default 0 v.
Proof. destruct v; simpl; lia. Qed.

Lemma tally_loop_spec l : forall t,
  fold_left (fun t it => tally_add it t) l t =
  {| t_impressions := t_impressions t + metric_sum impressions l;
     t_views := t_views t + metric_sum views l;
     t_engagements := t_engagements t + metric_sum engagements l;
     t_clicks := t_clicks t + metric_sum clicks l;
     t_attendees := t_attendees t + metric_sum attendees l;
     t_chat_count := t_chat_count t + metric_sum chat_count l;
     t_email_sends := t_email_sends t + metric_sum email_sends l;
     t_article_views := t_article_views t + metric_sum article_views l;
     t_items := t_items t + Z.of_nat (length l) |}.
Proof.
  unfold metric_sum. induction l as [|it l IH]; intros t.
  - destruct t. simpl. rewrite !Z.add_0_r. reflexivity.
  - cbn [fold_left]. rewrite IH. unfold tally_add. cbn [t_impressions t_views
      t_engagements t_clicks t_attendees t_chat_count t_email_sends t_article_views
      t_items foldr length].
    rewrite !add_metric_default. f_equal; lia.
Qed.

Lemma tally_loop_zero l :
  fold_left (fun t it => tally_add it t) l zero_tally = tally_of l.
Proof. rewrite tally_loop_spec. unfold tally_of. cbn. f_equal. Qed.

Lemma tally_loop_snoc l it :
  tally_add it (tally_of l) = tally_of (l ++ [it]).
Proof.
  rewrite <- !tally_loop_zero, fold_left_app. reflexivity.
Qed.

Lemma agg0_spec m months : forall acc,
  dict_get m (fold_left (fun agg m => dict_set m (MonthAgg zero_tally [] false) agg)
                months acc)
  = if decide (m ∈ months) then Some (MonthAgg zero_tally [] false)
    else dict_get m acc.
Proof.
  induction months as [|m0 months IH]; intros acc; cbn [fold_left].
  - destruct (decide (m ∈ [])) as [Hin|_]; [|reflexivity].
    apply elem_of_nil in Hin. contradiction.
  - rewrite IH. destruct (decide (m ∈ months)) as [Hin|Hin].
    + rewrite decide_True by (right; exact Hin). reflexivity.
    + destruct (decide (m0 = m)) as [->|Hne].
      * rewrite decide_True by left. apply dict_get_set_eq.
      * rewrite decide_False by (rewrite elem_of_cons; intros [->|?]; contradiction).
        apply dict_get_set_ne, Hne.
Qed.

(** The month entries after the loop over the records. *)
Lemma agg_loop_spec m items : forall agg,
  dict_get m agg = Some (MonthAgg zero_tally [] false) ->
  exists a, dict_get m (fold_left agg_item items agg) = Some a /\
    totals a = tally_of (in_month m items) /\
    is_empty a = false /\
    forall ch, dict_get ch (by_channel a) =
      if decide (in_channel ch (in_month m items) = []) then None
      else Some (tally_of (in_channel ch (in_month m items))).
Proof.
  induction items as [|it items IH] using rev_ind; intros agg Hm.
  - exists (MonthAgg zero_tally [] false). cbn [fold_left]. split; [exact Hm|].
    split; [reflexivity|]. split; [reflexivity|]. intros ch. reflexivity.
  - rewrite fold_left_app. cbn [fold_left].
    destruct (IH agg Hm) as (a & Ha & Ht & He & Hc).
    unfold in_month in *. rewrite filter_app, filter_cons, filter_nil.
    unfold agg_item at 1.
    destruct (decide (or_str (month it) (str "_nodate") = m)) as [Hmm|Hmm].
    + rewrite Hmm, Ha. exists
        {| totals := tally_add it (totals a);
           by_channel := dict_set (or_str (channel it) (str "Unknown"))
             (tally_add it (default zero_tally
                (dict_get (or_str (channel it) (str "Unknown")) (by_channel a))))
             (by_channel a);
           is_empty := is_empty a |}.
      split; [apply dict_get_set_eq|]. cbn [totals by_channel is_empty].
      split; [rewrite Ht; apply tally_loop_snoc|].
      split; [exact He|].
      intros ch. unfold in_channel in *. rewrite filter_app, filter_cons, filter_nil.
      destruct (decide (or_str (channel it) (str "Unknown") = ch)) as [Hch|Hch].
      * rewrite Hch, dict_get_set_eq.
        rewrite decide_False by (intros Habs; apply app_eq_nil in Habs as [_ ?]; discriminate).
        f_equal. rewrite Hc.
        destruct (decide (_ = [])) as [Hnil|Hnil]; cbn [default].
        -- rewrite Hnil. exact (tally_loop_snoc [] it).
        -- apply tally_loop_snoc.
      * rewrite dict_get_set_ne by exact Hch. rewrite app_nil_r. apply Hc.
    + rewrite app_nil_r. exists a.
      split; [|split; [exact Ht | split; [exact He | exact Hc]]].
      destruct (dict_get (or_str (month it) (str "_nodate")) _) as [a'|]; [|exact Ha].
      rewrite dict_get_set_ne by exact Hmm. exact Ha.
Qed.

Lemma agg_loop_none m items : forall agg,
  dict_get m agg = None -> dict_get m (fold_left agg_item items agg) = None.
Proof.
  induction items as [|it items IH]; intros agg Hm; cbn [fold_left]; [exact Hm|].
  apply IH. unfold agg_item.
  destruct (dict_get (or_str (month it) (str "_nodate")) agg) as [a'|] eqn:Ha; [|exact Hm].
  rewrite dict_get_set_ne; [exact Hm|]. intros Heq. rewrite Heq, Hm in Ha. discriminate.
Qed.

Lemma flag_empty_spec m m0 agg a :
  dict_get m agg = Some a ->
  exists a', dict_get m (flag_empty agg m0) = Some a' /\
    totals a' = totals a /\ by_channel a' = by_channel a /\
    is_empty a' = is_empty a || (bool_decide (m = m0) && (t_items (totals a) =? 0)).
Proof.
  intros Ha. unfold flag_empty.
  destruct (decide (m = m0)) as [<-|Hne].
  - rewrite Ha, (bool_decide_eq_true_2 _ eq_refl). cbn [andb].
    destruct (t_items (totals a) =? 0).
    + eexists. split; [apply dict_get_set_eq|]. cbn.
      rewrite orb_true_r. auto.
    + exists a. rewrite orb_false_r. auto.
  - rewrite (bool_decide_eq_false_2 _ Hne). cbn [andb]. rewrite orb_false_r.
    exists a. split; [|auto].
    destruct (dict_get m0 agg) as [a0|]; [|exact Ha].
    destruct (t_items (totals a0) =? 0); [|exact Ha].
    rewrite dict_get_set_ne by congruence. exact Ha.
Qed.

Lemma flag_loop_spec m months : forall agg a,
  dict_get m agg = Some a ->
  exists a', dict_get m (fold_left flag_empty months agg) = Some a' /\
    totals a' = totals a /\ by_channel a' = by_channel a /\
    is_empty a' = is_empty a || (bool_decide (m ∈ months) && (t_items (totals a) =? 0)).
Proof.
  induction months as [|m0 months IH]; intros agg a Ha; cbn [fold_left].
  - exists a. rewrite (bool_decide_eq_false_2 (m ∈ [])) by apply not_elem_of_nil.
    cbn [andb]. rewrite orb_false_r. auto.
  - destruct (flag_empty_spec m m0 agg a Ha) as (a1 & Ha1 & Ht1 & Hc1 & He1).
    destruct (IH _ _ Ha1) as (a' & Ha' & Ht' & Hc' & He').
    exists a'. split; [exact Ha'|]. split; [congruence|]. split; [congruence|].
    rewrite He', He1, Ht1.
    rewrite (bool_decide_ext (m ∈ m0 :: months) (m = m0 \/ m ∈ months))
      by apply elem_of_cons.
    rewrite bool_decide_or.
    destruct (is_empty a), (bool_decide (m = m0)), (bool_decide (m ∈ months)),
      (t_items (totals a) =? 0); reflexivity.
Qed.

Lemma flag_loop_none m months : forall agg,
  dict_get m agg = None -> dict_get m (fold_left flag_empty months agg) = None.
Proof.
  induction months as [|m0 months IH]; intros agg Hm; cbn [fold_left]; [exact Hm|].
  apply IH. unfold flag_empty.
  destruct (dict_get m0 agg) as [a0|] eqn:Ha; [|exact Hm].
  destruct (t_items (totals a0) =? 0); [|exact Hm].
  rewrite dict_get_set_ne; [exact Hm|]. intros Heq. rewrite Heq, Hm in Ha. discriminate.
Qed.

Lemma aggregate_in_months months items m :
  m ∈ months ->
  exists a, dict_get m (aggregate months items) = Some a /\
    totals a = tally_of (in_month m items) /\
    (is_empty a = true <-> in_month m items = []) /\
    forall ch, dict_get ch (by_channel a) =
      if decide (in_channel ch (in_month m items) = []) then None
      else Some (tally_of (in_channel ch (in_month m items))).
Proof.
  intros Hin. unfold aggregate.
  pose proof (agg0_spec m months []) as H0. rewrite decide_True in H0 by exact Hin.
  destruct (agg_loop_spec m items _ H0) as (a & Ha & Ht & He & Hc).
  destruct (flag_loop_spec m months _ _ Ha) as (a' & Ha' & Ht' & Hc' & He').
  exists a'. split; [exact Ha'|]. split; [congruence|]. split.
  - rewrite He', He, (bool_decide_eq_true_2 _ Hin), Ht. cbn [orb andb tally_of t_items].
    rewrite Z.eqb_eq. split.
    + intros Hl. apply length_zero_iff_nil. lia.
    + intros ->. reflexivity.
  - intros ch. rewrite Hc'. apply Hc.
Qed.

Lemma aggregate_out_of_months months items m :
  m ∉ months -> dict_get m (aggregate months items) = None.
Proof.
  intros Hout. unfold aggregate. apply flag_loop_none, agg_loop_none.
  rewrite agg0_spec, decide_False by exact Hout. reflexivity.
Qed.

(** X18.  The entry of a month of the report holds the sums of the
    records of that month, over all of them and channel by channel; it is
    flagged as empty exactly when the month has no record; and a month
    outside the report has no entry, so its records are counted nowhere. *)
Theorem aggregate_month_sums (months : list pystr) (items : list item) (m : pystr) :
  (m ∈ months ->
   exists a, dict_get m (aggregate months items) = Some a /\
     totals a = tally_of (in_month m items) /\
     (is_empty a = true <-> in_month m items = []) /\
     forall ch, dict_get ch (by_channel a) =
       if decide (in_channel ch (in_month m items) = []) then None
       else Some (tally_of (in_channel ch (in_month m items)))) /\
  (m ∉ months -> dict_get m (aggregate months items) = None).
Proof.
  split; [apply aggregate_in_months | apply aggregate_out_of_months].
Qed.

(** X19.  Each series of the charts has one value for every month of the
    report, the sum of its metric over the records of that month. *)
Theorem series_month_sums (f : tally -> Z) (months : list pystr) (items : list item) :
  series_of f (aggregate months items) months
  = (fun m => f (tally_of (in_month m items))) <$> months.
Proof.
  unfold series_of. apply list_fmap_ext. intros i m Hm.
  destruct (aggregate_in_months months items m) as (a & -> & -> & _).
  - eapply list_elem_of_lookup_2, Hm.
  - reflexivity.
Qed.

(** ** Numbers with separators *)

Section SeparatorFacts.
Context `{Runtime}.

Lemma parse_int_same_digits s s' :
  strip s <> [] -> strip s <> em_dash -> strip s' <> [] -> strip s' <> em_dash ->
  remove_char 44 (strip s) = remove_char 44 (strip s') ->
  parse_int (CStr s) = parse_int (CStr s').
Proof.
  intros H1 H2 H3 H4 Heq. unfold parse_int.
  rewrite (bool_decide_eq_false_2 _ H1), (bool_decide_eq_false_2 _ H2),
    (bool_decide_eq_false_2 _ H3), (bool_decide_eq_false_2 _ H4).
  cbn [orb]. rewrite Heq. reflexivity.
Qed.

Lemma parse_int_of_str n :
  Z.abs n <= 2 ^ 53 -> parse_int (CStr (py_str_int n)) = Ret (Some n).
Proof.
  intros Hn. pose proof (Z.abs_nonneg n) as Hz.
  assert (Hsgn : (if n <? 0 then - Z.abs n else Z.abs n) = n)
    by (destruct (Z.ltb_spec n 0); lia).
  rewrite py_str_int_signed.
  destruct (digits_of_spec (Z.abs n) Hz) as (Hds & Hne & Hval).
  rewrite parse_int_signed by assumption. rewrite Hval.
  unfold float_of_decimal.
  change (0 <=? 0) with true. cbv iota.
  change (10 ^ 0) with 1. rewrite Z.mul_1_r.
  rewrite round_binary64_exact; [|exact Hz|].
  - destruct (Z.leb_spec (2 ^ 2098) (Z.abs n * 2 ^ 1074)) as [Hov|_].
    + exfalso. change (2 ^ 2098) with (2 ^ 1024 * 2 ^ 1074) in Hov.
      assert (2 ^ 53 < 2 ^ 1024) by (apply Z.pow_lt_mono_r; lia).
      assert (0 < 2 ^ 1074) by (apply Z.pow_pos_nonneg; lia). nia.
    + unfold py_int_of_float, res_bind.
      rewrite Z.div_mul by (apply Z.pow_nonzero; lia). rewrite Hsgn. reflexivity.
  - destruct (Z.eq_dec (Z.abs n) (2 ^ 53)) as [->|Hlt].
    + exists (2 ^ 52), 1075. split; [split; [apply Z.pow_nonneg; lia|]|split; [lia|]].
      * apply Z.pow_lt_mono_r; lia.
      * change 1075 with (1 + 1074). rewrite (Z.pow_add_r 2 1 1074) by lia.
        change (2 ^ 53) with (2 ^ 52 * 2 ^ 1). ring.
    + exists (Z.abs n), 1074. split; [lia|]. split; [lia | reflexivity].
Qed.

Lemma py_str_int_chars n :
  Forall (fun c => c = 45 \/ 48 <= c <= 57) (py_str_int n) /\ py_str_int n <> [].
Proof.
  rewrite py_str_int_signed.
  destruct (digits_of_spec (Z.abs n) (Z.abs_nonneg n)) as (Hds & Hne & _).
  split; [apply signed_chars, Hds|].
  unfold signed. destruct (n <? 0); [discriminate | exact Hne].
Qed.

(** X20.  A whole number up to 2^53 in size, written with commas anywhere
    and blanks around it, is read as that number. *)
Theorem parse_int_separators (s : pystr) (n : Z) :
  Z.abs n <= 2 ^ 53 ->
  remove_char 44 (strip s) = py_str_int n ->
  parse_int (CStr s) = Ret (Some n).
Proof.
  intros Hn Hs. destruct (py_str_int_chars n) as [Hch Hne].
  assert (Hstrip : strip (py_str_int n) = py_str_int n).
  { apply strip_by_clean. eapply Forall_impl; [exact Hch|].
    simpl. intros c Hc. unfold py_isspace. lia. }
  assert (Hclean : remove_char 44 (py_str_int n) = py_str_int n).
  { apply remove_char_clean. eapply Forall_impl; [exact Hch|]. simpl. lia. }
  rewrite <- (parse_int_of_str n Hn).
  apply parse_int_same_digits.
  - intros He. rewrite He in Hs. apply Hne. rewrite <- Hs. reflexivity.
  - intros He. rewrite He in Hs. rewrite <- Hs in Hch.
    apply Forall_inv in Hch. lia.
  - rewrite Hstrip. exact Hne.
  - rewrite Hstrip. intros He. rewrite He in Hch. apply Forall_inv in Hch. lia.
  - rewrite Hstrip, Hclean. exact Hs.
Qed.

End SeparatorFacts.

(** ** Where the records come from *)

Lemma same_content_refl a : same_content a a.
Proof. repeat split. Qed.

Lemma same_content_trans a b c : same_content a b -> same_content b c -> same_content a c.
Proof. unfold same_content. intuition congruence. Qed.

Lemma swap_settled_same_content a b : same_content a b -> swap_settled b -> swap_settled a.
Proof.
  intros (_ & _ & _ & Hi & Hv & He & _) Hb Hen v i Hav Hai.
  apply Hb; congruence.
Qed.

Lemma fallback_same_content `{Runtime} it : same_content (li_item (fallback_link it)) it.
Proof.
  unfold fallback_link. destruct (negb _); [apply same_content_refl|].
  destruct (negb _); [repeat split | apply same_content_refl].
Qed.

Section RowProvenance.
Context `{Runtime} `{World}.

Lemma linkedin_post_same_content a b :
  same_content a b -> is_linkedin_post a -> is_linkedin_post b.
Proof.
  intros (Hc & Hd & _) [Hl Hp]. unfold is_linkedin_post. rewrite <- Hc, <- Hd. auto.
Qed.

(** A record of the map after a row is the new record, a record that was
    there, or a record that was there with the date of the new one. *)
Lemma merge_item_cases new s k it :
  store_get k (merge_item new s) = Some it ->
  it = new \/ store_get k s = Some it \/
  exists prev, store_get k s = Some prev /\ it = graft_date prev new.
Proof.
  destruct (decide (k = dedup_key new)) as [->|Hne];
    [|rewrite merge_item_other_key by exact Hne; auto].
  unfold merge_item. destruct (store_get (dedup_key new) s) as [prev|] eqn:Hget.
  - cbv zeta.
    repeat match goal with |- context [if ?b then _ else _] => destruct b end;
      rewrite ?store_get_set_eq, ?Hget; intros [= <-]; eauto.
  - rewrite store_get_set_eq. intros [= <-]. auto.
Qed.

Lemma process_rows_from_rows all rows : forall st stF,
  (forall r, r ∈ rows -> r ∈ all) ->
  process_rows rows st = Ret stF ->
  (forall k it, store_get k st.2 = Some it -> from_rows all it) ->
  forall k it, store_get k stF.2 = Some it -> from_rows all it.
Proof.
  induction rows as [|r rows IH]; intros st stF Hsub Hrun Hinv.
  - simpl in Hrun. injection Hrun as <-. exact Hinv.
  - simpl in Hrun. unfold process_row in Hrun at 1.
    destruct (build_item r st.1) as [[new ls]|e] eqn:Hb; cbn [res_bind] in Hrun;
      [|discriminate].
    assert (Hsub' : forall r', r' ∈ rows -> r' ∈ all)
      by (intros r' Hr'; apply Hsub; right; exact Hr').
    apply (IH _ _ Hsub' Hrun).
    cbn [snd]. intros k it Hget.
    assert (Hnew : from_rows all new).
    { exists r, st.1, ls, new. split; [apply Hsub; left|].
      split; [exact Hb | apply same_content_refl]. }
    destruct (merge_item_cases new st.2 k it Hget)
      as [->|[Hold|(prev & Hprev & ->)]]; [exact Hnew | exact (Hinv k it Hold) |].
    destruct (Hinv k prev Hprev) as (r0 & la & lb & it0 & Hr0 & Hb0 & Hs0).
    exists r0, la, lb, it0. split; [exact Hr0|]. split; [exact Hb0|].
    eapply same_content_trans; [|exact Hs0]. repeat split.
Qed.

Lemma dataset_from_rows rows ls ls' s k it :
  process_rows rows (ls, []) = Ret (ls', s) ->
  store_get k (reconcile s) = Some it ->
  from_rows rows it.
Proof.
  intros Hrun Hget.
  destruct (process_rows_NoDup rows (ls, []) (ls', s) Hrun) as [Hnd _]; [constructor|].
  cbn [snd] in Hnd.
  pose proof (process_rows_from_rows rows rows (ls, []) (ls', s)
                (fun _ Hr => Hr) Hrun) as Hloop.
  cbn [snd] in Hloop. specialize (Hloop ltac:(intros ? ? [=])).
  destruct (reconcile_pass_record s k it Hnd Hget)
    as (it0 & Hget0 & [->|(_ & mk & mit & _ & _ & ->)]).
  - exact (Hloop k it0 Hget0).
  - destruct (Hloop k it0 Hget0) as (r0 & la & lb & it1 & Hr0 & Hb0 & Hs0).
    exists r0, la, lb, it1. split; [exact Hr0|]. split; [exact Hb0|].
    eapply same_content_trans; [|exact Hs0]. repeat split.
Qed.

(** The fix of the LinkedIn columns leaves no record to fix. *)
Lemma build_item_swap_settled r ls it ls' :
  build_item r ls = Ret (it, ls') -> is_linkedin_post it -> swap_settled it.
Proof.
  intros Hb [Hl Hp].
  destruct (build_item_inv r ls it ls' Hb) as (d & _ & Hch & Hdt & _).
  rewrite Hch in Hl. rewrite Hdt in Hp.
  assert (Hcond : bool_decide (py_lower (strip (or_empty (r_channel r))) = str "linkedin")
                  && (contains (str "post") (py_lower (strip (or_empty (r_data_type r))))
                      || bool_decide (py_lower (strip (or_empty (r_data_type r))) = str "post"))
                  = true).
  { rewrite (bool_decide_eq_true_2 _ Hl). cbn [andb].
    destruct Hp as [->| Hp]; [reflexivity|].
    rewrite (bool_decide_eq_true_2 _ Hp). apply orb_true_r. }
  assert (Hinsta : bool_decide (py_lower (strip (or_empty (r_channel r))) = str "instagram")
                   = false).
  { apply bool_decide_eq_false_2. rewrite Hl. discriminate. }
  revert Hb. unfold build_item. rewrite Hcond, Hinsta.
  destruct (resolve_date _ _ _ _ ls) as [[[d' src] ls1]|e]; cbn [res_bind]; [|discriminate].
  repeat match goal with
         | |- context [parse_int ?c] =>
             destruct (parse_int c) as [?|?]; cbn [res_bind]; try discriminate
         end;
  repeat match goal with
         | |- context [match ?x with Some _ => _ | None => _ end] => destruct x
         end;
  try match goal with
      | |- context [?a <? ?b] => destruct (Z.ltb_spec a b)
      end;
  cbn [res_bind]; intros [= <- <-]; unfold swap_settled; cbn;
    intros; simplify_eq; lia.
Qed.

(** X21.  Every record of the dataset has the channel, type, title,
    metrics and period that [main] read from one of the rows: merging and
    the pass move dates and links and nothing else. *)
Theorem dataset_records_from_rows (rows : list row) (ls ls' : lookup_state)
    (s : list (key * item)) (k : key) (it : item) :
  process_rows rows (ls, []) = Ret (ls', s) ->
  store_get k (reconcile s) = Some it ->
  exists r ls0 ls1 it0,
    r ∈ rows /\ build_item r ls0 = Ret (it0, ls1) /\ same_content it it0.
Proof. apply dataset_from_rows. Qed.

(** X22.  No LinkedIn post of the dataset that has no engagements has
    more views than impressions: where the columns were shifted, the fix
    has moved them back. *)
Theorem dataset_linkedin_swapped (rows : list row) (ls ls' : lookup_state)
    (s : list (key * item)) (k : key) (it : item) (v i : Z) :
  process_rows rows (ls, []) = Ret (ls', s) ->
  store_get k (reconcile s) = Some it ->
  is_linkedin_post it -> engagements it = None ->
  views it = Some v -> impressions it = Some i ->
  v <= i.
Proof.
  intros Hrun Hget Hlp.
  destruct (dataset_from_rows rows ls ls' s k it Hrun Hget)
    as (r & la & lb & it0 & _ & Hb & Hs).
  assert (Hset : swap_settled it).
  { eapply swap_settled_same_content; [exact Hs|].
    eapply build_item_swap_settled; [exact Hb|].
    eapply linkedin_post_same_content; eassumption. }
  intros He Hv Hi. exact (Hset He v i Hv Hi).
Qed.

End RowProvenance.

(** ** The records of the output *)

Section OutputFacts.
Context `{Runtime} `{World}.

Lemma build_items_inv rows ls ls' out :
  build_items rows ls = Ret (ls', out) ->
  exists s, process_rows rows (ls, []) = Ret (ls', s) /\
            out = sort_items (fallback_link <$> (reconcile s).*2).
Proof.
  unfold build_items.
  destruct (process_rows rows (ls, [])) as [[ls1 s]|e]; cbn [res_bind]; [|discriminate].
  intros [= <- <-]. eauto.
Qed.

(** X23.  The sorted records of the output are no more than the rows;
    each has a link type, a blank link only with the link type none, one
    of the six tiers, the month of its date, and the content of one of
    the rows. *)
Theorem build_items_records (rows : list row) (ls ls' : lookup_state)
    (out : list linked) :
  build_items rows ls = Ret (ls', out) ->
  (length out <= length rows)%nat /\
  forall x, x ∈ out ->
    link_type x ∈ [str "direct"; str "platform"; str "none"] /\
    (link_type x = str "none" <-> strip (link (li_item x)) = []) /\
    date_source (li_item x) ∈ OUTPUT_TIERS /\
    month_of_date (li_item x) /\
    from_rows rows (li_item x).
Proof.
  intros (s & Hrun & ->)%build_items_inv.
  destruct (process_rows_NoDup rows (ls, []) (ls', s) Hrun) as [Hnd Hlen]; [constructor|].
  cbn [snd length] in Hnd, Hlen.
  split.
  - unfold sort_items. rewrite sort_fold_perm. cbn [app].
    rewrite !length_fmap. pose proof (reconcile_length s). lia.
  - intros x Hx. unfold sort_items in Hx. rewrite sort_fold_perm in Hx. cbn [app] in Hx.
    apply list_elem_of_fmap in Hx as (it & -> & Hit).
    apply list_elem_of_fmap in Hit as ([k it'] & -> & Hp). cbn [snd].
    apply (store_get_NoDup _ _ _ (reconcile_NoDup s Hnd)) in Hp.
    destruct (fallback_link_facts it') as (Hty & Hset & Hnone & _).
    destruct (dataset_record_tier rows ls ls' s k it' Hrun Hp) as (Htier & Hmonth & _).
    split; [exact Hty|]. split; [exact Hnone|].
    rewrite Hset. cbn [set_link date_source].
    split; [exact Htier|]. split.
    + unfold month_of_date in *. cbn [date_iso month]. exact Hmonth.
    + destruct (dataset_from_rows rows ls ls' s k it' Hrun Hp)
        as (r & la & lb & it0 & Hr & Hb & Hs).
      exists r, la, lb, it0. split; [exact Hr|]. split; [exact Hb|].
      eapply same_content_trans; [|exact Hs]. repeat split.
Qed.

End OutputFacts.

(** ** Reading the text of a date *)

Lemma scan_int_digits ds : forall prev,
  digit_string ds -> prev <> 95 -> scan_int prev ds = Some (ds, []).
Proof.
  induction ds as [|c ds IH]; intros prev Hds Hprev; cbn [scan_int].
  - apply Z.eqb_neq in Hprev. rewrite Hprev. reflexivity.
  - apply Forall_cons in Hds as [Hc Hds]. rewrite Hc.
    apply is_digit_range in Hc. rewrite IH; [reflexivity | exact Hds | lia].
Qed.

Lemma split_ws_aux_word w : forall cur rest,
  Forall (fun c => py_isspace c = false) w ->
  split_ws_aux cur (w ++ rest) = split_ws_aux (rev w ++ cur) rest.
Proof.
  induction w as [|c w IH]; intros cur rest Hw; [reflexivity|].
  apply Forall_cons in Hw as [Hc Hw]. cbn [app split_ws_aux]. rewrite Hc.
  rewrite IH by exact Hw. cbn [rev]. rewrite <- app_assoc. reflexivity.
Qed.

Lemma split_ws_aux_space w rest :
  w <> [] -> Forall (fun c => py_isspace c = false) w ->
  split_ws_aux [] (w ++ 32 :: rest) = w :: split_ws_aux [] rest.
Proof.
  intros Hne Hw. rewrite split_ws_aux_word by exact Hw. rewrite app_nil_r.
  cbn [split_ws_aux]. change (py_isspace 32) with true. cbv iota.
  destruct (decide (rev w = [])) as [He|_].
  - exfalso. apply Hne. rewrite <- (rev_involutive w), He. reflexivity.
  - rewrite rev_involutive. reflexivity.
Qed.

Lemma split_ws_aux_end w :
  w <> [] -> Forall (fun c => py_isspace c = false) w ->
  split_ws_aux [] w = [w].
Proof.
  intros Hne Hw. rewrite <- (app_nil_r w) at 1.
  rewrite split_ws_aux_word by exact Hw. rewrite app_nil_r.
  cbn [split_ws_aux].
  destruct (decide (rev w = [])) as [He|_].
  - exfalso. apply Hne. rewrite <- (rev_involutive w), He. reflexivity.
  - rewrite rev_involutive. reflexivity.
Qed.

(** A text that begins and ends with a word has nothing to strip. *)
Lemma strip_between_words a mid c :
  a <> [] -> c <> [] ->
  Forall (fun x => py_isspace x = false) a ->
  Forall (fun x => py_isspace x = false) c ->
  strip (a ++ mid ++ c) = a ++ mid ++ c.
Proof.
  intros Ha Hc Hsa Hsc. unfold strip, strip_by, rstrip_by.
  destruct a as [|x a]; [contradiction|]. apply Forall_cons in Hsa as [Hx _].
  cbn [app]. rewrite lstrip_by_head by exact Hx.
  change (x :: a ++ mid ++ c) with ((x :: a) ++ mid ++ c).
  rewrite (app_assoc (x :: a) mid c). set (s := (x :: a) ++ mid).
  rewrite rev_app_distr.
  destruct (rev c) as [|z rc] eqn:Hrc.
  - exfalso. apply Hc. rewrite <- (rev_involutive c), Hrc. reflexivity.
  - assert (Hz : py_isspace z = false).
    { assert (Hin : z ∈ c).
      { apply list_elem_of_In, in_rev. rewrite Hrc. left. reflexivity. }
      exact (proj1 (Forall_forall _ _) Hsc z Hin). }
    cbn [app]. rewrite lstrip_by_head by exact Hz.
    change (z :: rc ++ rev s) with ((z :: rc) ++ rev s).
    rewrite <- Hrc, rev_app_distr, !rev_involutive. reflexivity.
Qed.

Lemma digit_string_chars ds :
  digit_string ds ->
  Forall (fun c => 0 <= c < 128) ds /\
  Forall (fun c => py_isspace c = false) ds /\
  Forall (fun c => c <> 44) ds.
Proof.
  intros Hds. repeat split; (eapply Forall_impl; [exact Hds|]); cbn beta;
    intros c Hc%is_digit_range; [lia | unfold py_isspace; lia | lia].
Qed.

Section ReadFacts.
Context `{Runtime}.

Lemma py_int_digits ds :
  digit_string ds -> ds <> [] -> (length ds <= 4300)%nat ->
  py_int ds = Some (digits_val ds).
Proof.
  intros Hds Hne Hlen. destruct (digit_string_chars ds Hds) as (Hascii & _ & _).
  unfold py_int. rewrite to_ascii_number_ascii by exact Hascii.
  unfold int_of_ascii.
  destruct ds as [|c ds']; [contradiction|].
  pose proof Hds as Hds0. apply Forall_cons in Hds0 as [Hc _].
  apply is_digit_range in Hc.
  rewrite lstrip_by_head by (unfold c_isspace; lia).
  unfold read_sign.
  assert ((c =? 45) = false) as -> by lia.
  assert ((c =? 43) = false) as -> by lia.
  assert (starts_with [95] (c :: ds') = false) as ->.
  { cbn [starts_with]. rewrite bool_decide_eq_false_2 by lia. reflexivity. }
  rewrite scan_int_digits by (assumption || lia).
  rewrite (bool_decide_eq_false_2 _ Hne).
  assert ((int_max_str_digits <? length (c :: ds'))%nat = false) as ->.
  { apply Nat.ltb_ge. unfold int_max_str_digits. exact Hlen. }
  cbn [lstrip_by]. rewrite (bool_decide_eq_true_2 _ eq_refl). reflexivity.
Qed.

Lemma py_int_of_str n :
  0 <= n <= 9999 ->
  py_int (py_str_int n) = Some n /\ py_str_int n <> [] /\ digit_string (py_str_int n).
Proof.
  intros Hn. unfold py_str_int.
  assert ((n <? 0) = false) as -> by lia.
  destruct (digits_of_spec n) as (Hds & Hne & Hval); [lia|].
  split; [|split; assumption].
  rewrite py_int_digits, Hval; [reflexivity | exact Hds | exact Hne |].
  unfold digits_of.
  pose proof (digits_fuel_length (S (Z.to_nat (Z.log2 n))) n [] 4) as Hl.
  cbn [length] in Hl. change (10 ^ Z.of_nat 4) with 10000 in Hl. lia.
Qed.

Lemma no_space_no_comma (name : pystr) :
  Forall (fun c => py_isspace c = false /\ c <> 44) name ->
  Forall (fun c => py_isspace c = false) name /\ Forall (fun c => c <> 44) name.
Proof.
  intros Hn. split; (eapply Forall_impl; [exact Hn|]); cbn beta; tauto.
Qed.

Lemma month_name_nonempty (name : pystr) (m : Z) :
  dict_get (py_lower name) MONTHS_MAP = Some m -> name <> [].
Proof. intros Hm ->. vm_compute in Hm. discriminate. Qed.

Lemma month_number_range (k : pystr) (m : Z) :
  dict_get k MONTHS_MAP = Some m -> 1 <= m <= 12.
Proof.
  unfold MONTHS_MAP. cbn [dict_get].
  repeat (destruct (bool_decide _); [intros [= <-]; lia|]). discriminate.
Qed.

(** X24.  The text of a date of the calendar as day, month name and
    year is read as that date, by any name of the month that the table
    of months has, in any case of letters. *)
Theorem parse_human_date_reads (d : date) (name : pystr) :
  valid_date d ->
  Forall (fun c => py_isspace c = false /\ c <> 44) name ->
  dict_get (py_lower name) MONTHS_MAP = Some (d_month d) ->
  parse_human_date
    (py_str_int (d_day d) ++ [32] ++ name ++ [32] ++ py_str_int (d_year d))
  = Ret (Some d).
Proof.
  intros Hv Hname Hm. pose proof Hv as (Hy & _ & Hd).
  pose proof (days_in_month_bound (d_year d) (d_month d)) as Hdim.
  destruct (py_int_of_str (d_day d)) as (Hid & Hnd & Hdd); [lia|].
  destruct (py_int_of_str (d_year d)) as (Hiy & Hny & Hdy); [lia|].
  destruct (digit_string_chars _ Hdd) as (_ & Hsd & Hcd).
  destruct (digit_string_chars _ Hdy) as (_ & Hsy & Hcy).
  destruct (no_space_no_comma name Hname) as [Hsn Hcn].
  pose proof (month_name_nonempty name _ Hm) as Hnn.
  set (day := py_str_int (d_day d)) in *. set (year := py_str_int (d_year d)) in *.
  assert (Htxt : day ++ [32] ++ name ++ [32] ++ year
                 = day ++ (32 :: name ++ [32]) ++ year)
    by (cbn [app]; rewrite <- app_assoc; reflexivity).
  assert (Hstrip : strip (day ++ [32] ++ name ++ [32] ++ year)
                   = day ++ [32] ++ name ++ [32] ++ year)
    by (rewrite Htxt; apply strip_between_words; assumption).
  assert (Htn : day ++ [32] ++ name ++ [32] ++ year <> [])
    by (destruct day; [contradiction | discriminate]).
  unfold parse_human_date.
  rewrite (bool_decide_eq_false_2 _ Htn). cbv zeta.
  rewrite Hstrip, (bool_decide_eq_false_2 _ Htn).
  rewrite remove_char_clean.
  2:{ apply Forall_app. split; [exact Hcd|]. constructor; [lia|].
      apply Forall_app. split; [exact Hcn|]. constructor; [lia | exact Hcy]. }
  cbn [app].
  unfold split_ws.
  rewrite split_ws_aux_space, split_ws_aux_space, split_ws_aux_end by assumption.
  rewrite Hid. unfold strip. rewrite strip_by_clean by exact Hsn. rewrite Hm, Hiy.
  rewrite (mk_date_of_valid d Hv). reflexivity.
Qed.

(** X25.  The text of a period as month name and year, for a year from 1
    to 9999, is read as the first day of that month. *)
Theorem parse_report_month_reads (name : pystr) (m y : Z) :
  1 <= y <= 9999 ->
  Forall (fun c => py_isspace c = false) name ->
  dict_get (py_lower name) MONTHS_MAP = Some m ->
  parse_report_month (name ++ [32] ++ py_str_int y) = Ret (Some (Date y m 1)).
Proof.
  intros Hy Hsn Hm.
  destruct (py_int_of_str y) as (Hiy & Hny & Hdy); [lia|].
  destruct (digit_string_chars _ Hdy) as (_ & Hsy & _).
  pose proof (month_name_nonempty name _ Hm) as Hnn.
  pose proof (month_number_range _ _ Hm) as Hmr.
  set (year := py_str_int y) in *.
  unfold parse_report_month.
  rewrite bool_decide_eq_false_2
    by (destruct name; [contradiction | discriminate]).
  rewrite (strip_between_words name [32] year) by assumption.
  unfold split_ws. cbn [app].
  rewrite split_ws_aux_space, split_ws_aux_end by assumption.
  unfold strip. rewrite strip_by_clean by exact Hsn. rewrite Hm, Hiy.
  assert (Hmk : mk_date y m 1 = Ret (Date y m 1)).
  { apply (mk_date_of_valid (Date y m 1)).
    pose proof (days_in_month_bound y m). unfold valid_date. cbn. lia. }
  rewrite Hmk. reflexivity.
Qed.

End ReadFacts.

(** ** The date on a video page *)

Lemma starts_with_split l s : starts_with l s = true -> s = l ++ drop (length l) s.
Proof.
  revert s. induction l as [|a l IH]; intros s Hs; [reflexivity|].
  destruct s as [|b s]; [discriminate|]. cbn [starts_with] in Hs.
  apply andb_true_iff in Hs as [Hab%bool_decide_eq_true_1 Hs]. subst b.
  cbn [length drop app]. f_equal. apply IH, Hs.
Qed.

Lemma match_pieces_suffix ps : forall s r,
  match_pieces ps s = Some r -> exists pre, s = pre ++ r.
Proof.
  induction ps as [|[l|min] ps IH]; intros s r; cbn [match_pieces].
  - intros [= <-]. exists []. reflexivity.
  - destruct (starts_with l s); [|discriminate].
    intros (pre & Hpre)%IH. exists (take (length l) s ++ pre).
    rewrite <- app_assoc, <- Hpre, take_drop. reflexivity.
  - cbv zeta. destruct (_ <=? _)%nat; [|discriminate].
    intros (pre & Hpre)%IH.
    exists (take (length (take_while py_isspace s)) s ++ pre).
    rewrite <- app_assoc, <- Hpre, take_drop. reflexivity.
Qed.

Lemma contains_middle p pre post : contains p (pre ++ p ++ post) = true.
Proof.
  induction pre as [|c pre IH].
  - cbn [app]. destruct (p ++ post) eqn:He; cbn [contains];
      rewrite <- He, starts_with_app; reflexivity.
  - cbn [app contains]. rewrite IH. apply orb_true_r.
Qed.

Lemma take_while_run (p : Z -> bool) w c r :
  Forall (fun x => p x = true) w -> p c = false ->
  take_while p (w ++ c :: r) = w.
Proof.
  intros Hw Hc. induction Hw as [|x w Hx _ IH]; cbn [app take_while].
  - rewrite Hc. reflexivity.
  - rewrite Hx, IH. reflexivity.
Qed.

Section PageFacts.
Context `{Runtime}.

Lemma read_digits_split n : forall s ds r,
  read_digits n s = Some (ds, r) -> s = ds ++ r.
Proof.
  induction n as [|n IH]; intros s ds r; cbn [read_digits].
  - intros [= <- <-]. reflexivity.
  - destruct s as [|c s]; [discriminate|].
    destruct (re_digit c); [|discriminate].
    destruct (read_digits n s) as [[ds' r']|] eqn:Hr; [|discriminate].
    intros [= <- <-]. cbn [app]. f_equal. apply IH, Hr.
Qed.

Lemma read_date_group_split s g :
  read_date_group s = Some g -> exists post, s = g ++ [34] ++ post.
Proof.
  unfold read_date_group.
  destruct (read_digits 4 s) as [[y s1]|] eqn:Hy; [|discriminate].
  destruct (starts_with [45] s1) eqn:H1; [|discriminate].
  destruct (read_digits 2 (drop 1 s1)) as [[m s2]|] eqn:Hm; [|discriminate].
  destruct (starts_with [45] s2) eqn:H2; [|discriminate].
  destruct (read_digits 2 (drop 1 s2)) as [[d s3]|] eqn:Hd; [|discriminate].
  destruct (starts_with [34] s3) eqn:H3; [|discriminate].
  intros [= <-]. exists (drop 1 s3).
  apply read_digits_split in Hy, Hm, Hd.
  apply starts_with_split in H1, H2, H3. cbn [length] in H1, H2, H3.
  transitivity (y ++ [45] ++ m ++ [45] ++ d ++ [34] ++ drop 1 s3);
    [|repeat (rewrite <- app_assoc; cbn [app]); reflexivity].
  rewrite Hy. f_equal. rewrite H1 at 1. f_equal. rewrite Hm. f_equal.
  rewrite H2 at 1. f_equal. rewrite Hd. f_equal. exact H3.
Qed.

Lemma date_search_occurs ps s g :
  date_search ps s = Some g -> exists pre post, s = pre ++ (g ++ [34]) ++ post.
Proof.
  assert (Hhere : forall s, match_date_here ps s = Some g ->
                            exists pre post, s = pre ++ (g ++ [34]) ++ post).
  { intros s0. unfold match_date_here.
    destruct (match_pieces ps s0) as [r|] eqn:Hr; [|discriminate].
    intros (post & Hpost)%read_date_group_split.
    apply match_pieces_suffix in Hr as (pre & ->).
    exists pre, post. rewrite Hpost, <- !app_assoc. reflexivity. }
  induction s as [|c s IH]; cbn [date_search].
  - destruct (match_date_here ps []) as [g'|] eqn:Hm; [|discriminate].
    intros [= ->]. apply Hhere, Hm.
  - destruct (match_date_here ps (c :: s)) as [g'|] eqn:Hm.
    + intros [= ->]. apply Hhere, Hm.
    + intros (pre & post & ->)%IH. exists (c :: pre), post. reflexivity.
Qed.

Lemma extract_loop_sound rxs html d :
  extract_loop rxs html = Some d ->
  valid_date d /\ contains (isoformat d ++ [34]) html = true.
Proof.
  induction rxs as [|rx rxs IH]; cbn [extract_loop]; [discriminate|].
  destruct (date_search rx html) as [g|] eqn:Hs; [|exact IH].
  destruct (date_fromisoformat g) as [d'|] eqn:Hd; [|exact IH].
  intros [= ->]. apply isoformat_fromisoformat in Hd as [<- Hv].
  split; [exact Hv|].
  apply date_search_occurs in Hs as (pre & post & ->). apply contains_middle.
Qed.

Lemma re_digit_ascii c : is_digit c = true -> re_digit c = true.
Proof.
  intros Hc. unfold re_digit. pose proof Hc as Hr%is_digit_range.
  replace (is_ascii c) with true by (unfold is_ascii; lia). exact Hc.
Qed.

Lemma read_digits_run n ds r :
  digit_string ds -> length ds = n -> read_digits n (ds ++ r) = Some (ds, r).
Proof.
  intros Hds <-. induction Hds as [|c ds Hc _ IH]; [reflexivity|].
  cbn [length app read_digits]. rewrite (re_digit_ascii c Hc), IH. reflexivity.
Qed.

Lemma isoformat_parts d :
  valid_date d ->
  exists y m dd,
    isoformat d = y ++ [45] ++ m ++ [45] ++ dd /\
    digit_string y /\ digit_string m /\ digit_string dd /\
    length y = 4%nat /\ length m = 2%nat /\ length dd = 2%nat.
Proof.
  intros (Hy & Hm & Hd).
  pose proof (days_in_month_bound (d_year d) (d_month d)).
  destruct (format_0d_spec 4 (d_year d)) as (Hly & Hdy & _); [simpl; lia | lia |].
  destruct (format_0d_spec 2 (d_month d)) as (Hlm & Hdm & _); [simpl; lia | lia |].
  destruct (format_0d_spec 2 (d_day d)) as (Hld & Hdd & _); [simpl; lia | lia |].
  exists (format_0d 4 (d_year d)), (format_0d 2 (d_month d)), (format_0d 2 (d_day d)).
  repeat split; assumption.
Qed.

Lemma read_date_group_iso d post :
  valid_date d -> read_date_group (isoformat d ++ [34] ++ post) = Some (isoformat d).
Proof.
  intros (y & m & dd & -> & Hy & Hm & Hdd & Hly & Hlm & Hld)%isoformat_parts.
  unfold read_date_group.
  replace ((y ++ [45] ++ m ++ [45] ++ dd) ++ [34] ++ post)
    with (y ++ 45 :: m ++ 45 :: dd ++ 34 :: post)
    by (repeat (rewrite <- app_assoc; cbn [app]); reflexivity).
  rewrite (read_digits_run 4 y _ Hy Hly).
  cbn [starts_with]. rewrite (bool_decide_eq_true_2 _ eq_refl). cbn [andb drop].
  rewrite drop_0, (read_digits_run 2 m _ Hm Hlm).
  cbn [starts_with]. rewrite (bool_decide_eq_true_2 _ eq_refl). cbn [andb drop].
  rewrite drop_0, (read_digits_run 2 dd _ Hdd Hld).
  cbn [starts_with]. rewrite (bool_decide_eq_true_2 _ eq_refl). reflexivity.
Qed.

(** The first pattern at the head of a text with its key, a colon with
    any whitespace around it, and the text of a date in quotes. *)
Lemma match_date_here_json key ws1 ws2 d post :
  valid_date d ->
  Forall (fun c => py_isspace c = true) ws1 ->
  Forall (fun c => py_isspace c = true) ws2 ->
  match_date_here [Lit key; Spaces 0; Lit [58]; Spaces 0; Lit [34]]
    (key ++ ws1 ++ [58] ++ ws2 ++ [34] ++ isoformat d ++ [34] ++ post)
  = Some (isoformat d).
Proof.
  intros Hv Hw1 Hw2. unfold match_date_here. cbn [match_pieces].
  rewrite starts_with_app, drop_app_length.
  cbn [app]. rewrite (take_while_run py_isspace ws1 58) by (assumption || reflexivity).
  cbn [Nat.leb]. rewrite drop_app_length.
  cbn [starts_with length drop]. rewrite ?drop_0.
  rewrite (bool_decide_eq_true_2 _ eq_refl). cbn [andb].
  rewrite (take_while_run py_isspace ws2 34) by (assumption || reflexivity).
  cbn [Nat.leb]. rewrite drop_app_length.
  cbn [starts_with length drop]. rewrite ?drop_0.
  rewrite (bool_decide_eq_true_2 _ eq_refl). cbn [andb].
  apply (read_date_group_iso d post Hv).
Qed.

Lemma date_search_leftmost ps pre s g :
  (forall i, (i < length pre)%nat -> match_date_here ps (drop i (pre ++ s)) = None) ->
  match_date_here ps s = Some g ->
  date_search ps (pre ++ s) = Some g.
Proof.
  induction pre as [|c pre IH]; intros Hnone Hm.
  - cbn [app]. destruct s; cbn [date_search]; rewrite Hm; reflexivity.
  - pose proof (Hnone 0%nat ltac:(cbn [length]; lia)) as H0.
    rewrite drop_0 in H0. cbn [app] in H0.
    cbn [app date_search]. rewrite H0.
    apply IH; [|exact Hm].
    intros i Hi. apply (Hnone (S i)). cbn [length]. lia.
Qed.

(** X26.  A date that [extract_publish_date] returns is a date of the
    calendar, and its text stands in the page with a quote behind it. *)
Theorem extract_publish_date_sound (html : pystr) (d : date) :
  extract_publish_date html = Some d ->
  valid_date d /\ contains (isoformat d ++ [34]) html = true.
Proof. apply extract_loop_sound. Qed.

(** X27.  Where the leftmost match of the first pattern is the key
    publishDate, a colon with any whitespace around it, and the text of a
    date of the calendar in quotes, that date is the result. *)
Theorem extract_publish_date_reads (pre ws1 ws2 post : pystr) (d : date) :
  let found := quoted (str "publishDate") ++ ws1 ++ [58] ++ ws2
               ++ [34] ++ isoformat d ++ [34] ++ post in
  valid_date d ->
  Forall (fun c => py_isspace c = true) ws1 ->
  Forall (fun c => py_isspace c = true) ws2 ->
  (forall i, (i < length pre)%nat ->
     match_date_here [Lit (quoted (str "publishDate")); Spaces 0; Lit [58];
                      Spaces 0; Lit [34]] (drop i (pre ++ found)) = None) ->
  extract_publish_date (pre ++ found) = Some d.
Proof.
  intros found Hv Hw1 Hw2 Hnone.
  unfold extract_publish_date, PUBLISH_DATE_REGEXES. cbn [extract_loop].
  rewrite (date_search_leftmost _ pre found (isoformat d) Hnone)
    by (apply match_date_here_json; assumption).
  rewrite (fromisoformat_isoformat d Hv). reflexivity.
Qed.

End PageFacts.

(** ** The further properties at sample inputs *)

Lemma sample_date_valid : valid_date (Date 2025 4 9).
Proof. unfold valid_date. cbn. lia. Qed.

Lemma sample_video_id : video_id (str "abcdef").
Proof. split; [repeat constructor | cbn; lia]. Qed.

Lemma merge_equal_or_lower_tier_witness :
  store_get (@dedup_key bare_runtime post_again) [(post_key, post_first)] = Some post_first /\
  store_get (@dedup_key bare_runtime post_again)
    (@merge_item bare_runtime post_again [(post_key, post_first)]) = Some post_again.
Proof.
  split; [vm_compute; reflexivity|].
  etransitivity.
  - eapply (@merge_equal_or_lower_tier bare_runtime post_again post_first
             [(post_key, post_first)]).
    + vm_compute. reflexivity.
    + vm_compute. discriminate.
  - vm_compute. reflexivity.
Defined.

Lemma dataset_keys_unique_witness :
  exists ls' s,
    @process_rows bare_runtime silent_world [row_stored; row_relisted]
      (LookupState ∅ [], []) = Ret (ls', s) /\
    NoDup s.*1 /\ NoDup (@reconcile bare_runtime s).*1 /\
    (forall k, k ∈ (@reconcile bare_runtime s).*1 -> k ∈ s.*1) /\
    (length (@reconcile bare_runtime s) <= length s <= 2)%nat.
Proof.
  eexists _, _. split; [vm_compute; reflexivity|].
  eapply (@dataset_keys_unique bare_runtime silent_world [row_stored; row_relisted]
           (LookupState ∅ [])).
  vm_compute. reflexivity.
Defined.

Lemma reconcile_same_content_witness :
  exists it,
    store_get (@dedup_key bare_runtime webinar_recap)
      (@reconcile bare_runtime webinar_store) = Some it /\
    date_iso it = str "2025-04-09" /\
    exists it0, store_get (@dedup_key bare_runtime webinar_recap) webinar_store = Some it0 /\
                same_content it it0.
Proof.
  eexists. split; [vm_compute; reflexivity|]. split; [reflexivity|].
  eapply (@reconcile_same_content bare_runtime webinar_store).
  - unfold webinar_store. apply merge_item_NoDup, merge_item_NoDup. constructor.
  - vm_compute. reflexivity.
Defined.

Lemma dataset_tiers_and_months_witness :
  exists ls' s it,
    @process_rows bare_runtime silent_world [row_stored; row_relisted]
      (LookupState ∅ [], []) = Ret (ls', s) /\
    store_get episode_key (@reconcile bare_runtime s) = Some it /\
    date_source it ∈ OUTPUT_TIERS /\ month_of_date it /\
    (store_get episode_key s = Some it ->
     date_source it ∈ [str "provided"; str "youtube_publish";
                       str "inferred_report_month"; str "unknown"]).
Proof.
  eexists _, _, _. split; [vm_compute; reflexivity|]. split; [vm_compute; reflexivity|].
  eapply (@dataset_tiers_and_months bare_runtime silent_world [row_stored; row_relisted]
            (LookupState ∅ []) (LookupState ∅ []) _ episode_key).
  - vm_compute. reflexivity.
  - vm_compute. reflexivity.
Defined.

Lemma lookup_memoized_witness :
  exists st1,
    @youtube_publish_date bare_runtime dated_world (str "https://youtu.be/abcdef")
      (LookupState ∅ []) = (Some (Date 2025 4 9), st1) /\
    @youtube_publish_date bare_runtime dated_world video_url st1
    = (Some (Date 2025 4 9), st1).
Proof.
  eexists. split; [vm_compute; reflexivity|].
  eapply (@lookup_memoized bare_runtime dated_world (str "https://youtu.be/abcdef")
           video_url (LookupState ∅ [])).
  - vm_compute. reflexivity.
  - exact sample_date_valid.
  - vm_compute. reflexivity.
Defined.

Lemma normalize_shapes_witness :
  @normalize_youtube_url bare_runtime (str "https://youtu.be/abcdef?t=5")
  = Some (watch_url (str "abcdef")).
Proof.
  eapply (@normalize_shapes bare_runtime (str "https://youtu.be/abcdef?t=5") (str "abcdef")).
  - exact sample_video_id.
  - exists (str "https://youtu.be/"), (str "?t=5").
    split; [apply (bool_decide_unpack _); vm_compute; exact I|].
    split; [split; [reflexivity | repeat constructor]|].
    split; [right; vm_compute; reflexivity | reflexivity].
Defined.

Lemma normalize_idempotent_witness :
  @normalize_youtube_url bare_runtime (str "https://youtu.be/abcdef") = Some video_url /\
  @normalize_youtube_url bare_runtime video_url = Some video_url.
Proof.
  split; [vm_compute; reflexivity|].
  eapply (@normalize_idempotent bare_runtime (str "https://youtu.be/abcdef") video_url).
  - vm_compute. reflexivity.
  - reflexivity.
Defined.

Lemma dedup_key_video_witness :
  @dedup_key bare_runtime
    (plain_item (str "YouTube") (str "Video") (str "Intro")
       (str "https://www.youtube.com/shorts/abcdef"))
  = [str "YouTube"; str "Video"; str "Intro"; video_url] /\
  @dedup_key bare_runtime
    (plain_item (str "YouTube") (str "Video") (str "Intro") (str "https://youtu.be/abcdef"))
  = [str "YouTube"; str "Video"; str "Intro"; video_url].
Proof.
  split; [vm_compute; reflexivity|].
  eapply (@dedup_key_video bare_runtime
           (plain_item (str "YouTube") (str "Video") (str "Intro")
              (str "https://youtu.be/abcdef")) (str "abcdef")).
  - vm_compute. reflexivity.
  - exact sample_video_id.
  - exists (str "https://youtu.be/"), [].
    split; [apply (bool_decide_unpack _); vm_compute; exact I|].
    split; [split; [exact I | constructor]|].
    split; [right; vm_compute; reflexivity | vm_compute; reflexivity].
Defined.

Lemma month_range_closed_form_witness :
  @month_range bare_runtime 11 (str "2025-03") (str "2026-01")
  = Ret (Some [str "2025-03"; str "2025-04"; str "2025-05"; str "2025-06";
               str "2025-07"; str "2025-08"; str "2025-09"; str "2025-10";
               str "2025-11"; str "2025-12"; str "2026-01"]).
Proof.
  etransitivity.
  - eapply (@month_range_closed_form bare_runtime 11 (str "2025-03") (str "2026-01")
             2025 3 2026 1).
    + vm_compute. reflexivity.
    + vm_compute. reflexivity.
    + lia.
    + lia.
    + vm_compute. lia.
  - vm_compute. reflexivity.
Defined.

Lemma undated_records_last_witness :
  sort_items [Linked blank_record (str "none"); Linked linkedin_post (str "direct")] !! 0%nat
  = Some (Linked linkedin_post (str "direct")) /\
  sort_items [Linked blank_record (str "none"); Linked linkedin_post (str "direct")] !! 1%nat
  = Some (Linked blank_record (str "none")) /\
  (0 < 1)%nat.
Proof.
  split; [vm_compute; reflexivity|]. split; [vm_compute; reflexivity|].
  apply (undated_records_last
           [Linked blank_record (str "none"); Linked linkedin_post (str "direct")]
           0 1 (Linked linkedin_post (str "direct")) (Linked blank_record (str "none"))
           (Date 2025 4 9)).
  - vm_compute. reflexivity.
  - vm_compute. reflexivity.
  - exact sample_date_valid.
  - vm_compute. reflexivity.
  - reflexivity.
Defined.

Lemma parse_int_separators_witness :
  @parse_int bare_runtime (CStr (str " 1,234,567 ")) = Ret (Some 1234567).
Proof.
  eapply (@parse_int_separators bare_runtime (str " 1,234,567 ") 1234567).
  - vm_compute. discriminate.
  - vm_compute. reflexivity.
Defined.

Lemma dataset_records_from_rows_witness :
  exists ls' s it,
    @process_rows bare_runtime silent_world [row_stored; row_relisted]
      (LookupState ∅ [], []) = Ret (ls', s) /\
    store_get episode_key (@reconcile bare_runtime s) = Some it /\
    exists r ls0 ls1 it0,
      r ∈ [row_stored; row_relisted] /\
      @build_item bare_runtime silent_world r ls0 = Ret (it0, ls1) /\
      same_content it it0.
Proof.
  eexists _, _, _. split; [vm_compute; reflexivity|]. split; [vm_compute; reflexivity|].
  eapply (@dataset_records_from_rows bare_runtime silent_world [row_stored; row_relisted]
           (LookupState ∅ []) (LookupState ∅ []) _ episode_key).
  - vm_compute. reflexivity.
  - vm_compute. reflexivity.
Defined.

Lemma dataset_linkedin_swapped_witness :
  exists ls' s it,
    @process_rows bare_runtime silent_world [row_post] (LookupState ∅ [], []) = Ret (ls', s) /\
    store_get post_key (@reconcile bare_runtime s) = Some it /\
    views it = Some 10 /\ impressions it = Some 30 /\ 10 <= 30.
Proof.
  eexists _, _, _. split; [vm_compute; reflexivity|]. split; [vm_compute; reflexivity|].
  split; [reflexivity|]. split; [reflexivity|].
  eapply (@dataset_linkedin_swapped bare_runtime silent_world [row_post]
            (LookupState ∅ []) (LookupState ∅ []) _ post_key).
  - vm_compute. reflexivity.
  - vm_compute. reflexivity.
  - split; [vm_compute; reflexivity | left; vm_compute; reflexivity].
  - reflexivity.
  - reflexivity.
  - reflexivity.
Defined.

Lemma build_items_records_witness :
  exists ls' out,
    @build_items bare_runtime silent_world [row_stored; row_relisted] (LookupState ∅ [])
    = Ret (ls', out) /\
    (length out <= 2)%nat /\
    forall x, x ∈ out ->
      link_type x ∈ [str "direct"; str "platform"; str "none"] /\
      (link_type x = str "none" <-> @strip (link (li_item x)) = []) /\
      date_source (li_item x) ∈ OUTPUT_TIERS /\
      month_of_date (li_item x) /\
      @from_rows bare_runtime silent_world [row_stored; row_relisted] (li_item x).
Proof.
  eexists _, _. split; [vm_compute; reflexivity|].
  eapply (@build_items_records bare_runtime silent_world [row_stored; row_relisted]
           (LookupState ∅ [])).
  vm_compute. reflexivity.
Defined.

Lemma parse_human_date_reads_witness :
  @parse_human_date bare_runtime (str "9 Apr 2025") = Ret (Some (Date 2025 4 9)).
Proof.
  eapply (@parse_human_date_reads bare_runtime (Date 2025 4 9) (str "Apr")).
  - exact sample_date_valid.
  - repeat constructor; discriminate.
  - vm_compute. reflexivity.
Defined.

Lemma parse_report_month_reads_witness :
  @parse_report_month bare_runtime (str "December 2025") = Ret (Some (Date 2025 12 1)).
Proof.
  eapply (@parse_report_month_reads bare_runtime (str "December") 12 2025).
  - lia.
  - repeat constructor.
  - vm_compute. reflexivity.
Defined.

Lemma extract_publish_date_sound_witness :
  @extract_publish_date bare_runtime page_sample = Some (Date 2025 4 9) /\
  valid_date (Date 2025 4 9) /\
  contains (isoformat (Date 2025 4 9) ++ [34]) page_sample = true.
Proof.
  split; [vm_compute; reflexivity|].
  eapply (@extract_publish_date_sound bare_runtime page_sample (Date 2025 4 9)).
  vm_compute. reflexivity.
Defined.

Lemma extract_publish_date_reads_witness :
  @extract_publish_date bare_runtime page_sample = Some (Date 2025 4 9).
Proof.
  eapply (@extract_publish_date_reads bare_runtime page_head [] [32] (str "}</script>")
           (Date 2025 4 9)).
  - exact sample_date_valid.
  - constructor.
  - repeat constructor.
  - intros i Hi.
    do 9 (destruct i as [|i]; [vm_compute; reflexivity|]).
    cbn in Hi. lia.
Defined.
